(** * Pega when-rule compiler: the rule model, its renderings and the
      rule-building tool

    A shallow embedding of [pega_agent/models.py] (the data model and the
    methods [to_expression], [_condition_to_expr], [_build_function_expr],
    [_build_function_expr_from_comparator], [to_pega_xml], [to_dict]) and of
    [create_when_rule] from [pega_agent/agent.py].

    Conventions.
    - A Python [str] is a Rocq [string], one character per code point; the
      model covers the code points below 256.
    - An f-string is written with [++].
    - [Optional[T]] is [option T]; [x or ''] on an optional string is
      [or_empty].
    - Code that can raise returns a [result]; an exception that leaves a
      function is the [Raise] outcome of that function. *)

From Stdlib Require Import String Ascii List ZArith Bool Arith Lia DecimalString.
Import ListNotations.
Open Scope list_scope.
Open Scope string_scope.

(** ** Python strings *)

Module PyStr.

(** The double quote character and the line feed. *)
Definition dquote : string := String "034"%char EmptyString.
Definition newline : string := String "010"%char EmptyString.

(** [s.replace(c, '')] for a one-character [c]: every occurrence goes. *)
Fixpoint remove_char (c : ascii) (s : string) : string :=
  match s with
  | EmptyString => EmptyString
  | String a rest =>
      if Ascii.eqb a c then remove_char c rest
      else String a (remove_char c rest)
  end.

(** [s.startswith(p)]. *)
Definition startswith (p s : string) : bool := String.prefix p s.

(** The characters below 256 on which [str.isdigit] holds: the ASCII
    digits and the superscripts two, three and one (U+00B2, U+00B3,
    U+00B9). *)
Definition is_digit_char (c : ascii) : bool :=
  let n := nat_of_ascii c in
  (Nat.leb 48 n && Nat.leb n 57)
  || Nat.eqb n 178 || Nat.eqb n 179 || Nat.eqb n 185.

Fixpoint all_digits (s : string) : bool :=
  match s with
  | EmptyString => true
  | String a rest => is_digit_char a && all_digits rest
  end.

(** [s.isdigit()]: at least one character, and all of them digits. *)
Definition isdigit (s : string) : bool :=
  match s with
  | EmptyString => false
  | String _ _ => all_digits s
  end.

(** [sep.join(l)]. *)
Fixpoint join (sep : string) (l : list string) : string :=
  match l with
  | [] => EmptyString
  | [x] => x
  | x :: rest => x ++ sep ++ join sep rest
  end.

(** [needle in s] on strings. *)
Definition contains (needle s : string) : bool :=
  match String.index 0 needle s with
  | Some _ => true
  | None => false
  end.

(** [x or ''] for an optional string. *)
Definition or_empty (o : option string) : string :=
  match o with
  | Some s => s
  | None => EmptyString
  end.

(** Truth value of an optional string: [None] and the empty string are
    false. *)
Definition truthy (o : option string) : bool :=
  match o with
  | Some (String _ _) => true
  | _ => false
  end.

(** How an f-string shows an optional string: [None] prints as its name. *)
Definition format_opt (o : option string) : string :=
  match o with
  | Some s => s
  | None => "None"
  end.

(** [str(b).lower()]. *)
Definition bool_lower (b : bool) : string := if b then "true" else "false".

End PyStr.

(** ** Python values: what [json.loads] returns and what [to_dict] builds *)

Module Py.

#[local] Set Warnings "-register-all".

Inductive value : Type :=
  | PyNone
  | PyBool (b : bool)
  | PyInt (n : Z)
  | PyFloat (lexeme : string)
  | PyStr (s : string)
  | PyList (items : list value)
  | PyDict (entries : list (string * value)).

(** A dict keeps its keys in insertion order. *)
Definition dict := list (string * value).

Fixpoint dict_get (k : string) (d : dict) : option value :=
  match d with
  | [] => None
  | (k', v) :: rest => if String.eqb k' k then Some v else dict_get k rest
  end.

(** [d[k] = v]: a key already present keeps its place. *)
Fixpoint dict_set (k : string) (v : value) (d : dict) : dict :=
  match d with
  | [] => [(k, v)]
  | (k', v') :: rest =>
      if String.eqb k' k then (k', v) :: rest
      else (k', v') :: dict_set k v rest
  end.

Definition dict_has (k : string) (d : dict) : bool :=
  match dict_get k d with
  | Some _ => true
  | None => false
  end.

(** [v == s] for a string [s]: only an equal [str] is equal to it. *)
Definition eq_str (v : value) (s : string) : bool :=
  match v with
  | PyStr t => String.eqb t s
  | _ => false
  end.

(** [v[k]] read from a dict; nothing when [v] is no dict or lacks [k]. *)
Definition item (v : value) (k : string) : option value :=
  match v with
  | PyDict d => dict_get k d
  | _ => None
  end.

(** The exceptions the tool layer can meet. *)
Inductive exn : Type :=
  | AttributeError
  | TypeError
  | ValidationError.

Inductive result (A : Type) : Type :=
  | Ok (a : A)
  | Raise (e : exn).

Arguments Ok {A} a.
Arguments Raise {A} e.

Definition bind {A B : Type} (r : result A) (k : A -> result B) : result B :=
  match r with
  | Ok a => k a
  | Raise e => Raise e
  end.

(** [v.get(k, default)]: only a dict has the method. *)
Definition get (v : value) (k : string) (default : value) : result value :=
  match v with
  | PyDict d =>
      Ok (match dict_get k d with
          | Some x => x
          | None => default
          end)
  | _ => Raise AttributeError
  end.

(** What a [for] loop over [v] visits: the items of a list, the keys of a
    dict, the characters of a string; anything else is not iterable. *)
Definition iter (v : value) : result (list value) :=
  match v with
  | PyList l => Ok l
  | PyDict d => Ok (map (fun kv => PyStr (fst kv)) d)
  | PyStr s =>
      Ok (map (fun c => PyStr (String c EmptyString)) (list_ascii_of_string s))
  | _ => Raise TypeError
  end.

(** [k in v] for a string [k]. *)
Definition contains (k : string) (v : value) : result bool :=
  match v with
  | PyDict d => Ok (dict_has k d)
  | PyList l => Ok (existsb (fun x => eq_str x k) l)
  | PyStr s => Ok (PyStr.contains k s)
  | _ => Raise TypeError
  end.

(** A loop body run on each item in turn; the first exception ends it. *)
Fixpoint for_each {A B : Type} (body : A -> result B) (l : list A)
  : result (list B) :=
  match l with
  | [] => Ok []
  | x :: rest =>
      bind (body x) (fun y =>
      bind (for_each body rest) (fun ys => Ok (y :: ys)))
  end.

End Py.

Declare Scope py_scope.
Delimit Scope py_scope with py.
Notation "x <- c ;; k" := (Py.bind c (fun x => k))
  (at level 61, c at next level, right associativity) : py_scope.

(** [l.append(x)], as the new list. *)
Definition append {A : Type} (l : list A) (x : A) : list A := (l ++ [x])%list.

(** ** The rule model ([models.py]) *)

Module Models.
Import PyStr.

(** [class Comparator(str, Enum)], in definition order. *)
Inductive Comparator : Type :=
  | EQUALS
  | NOT_EQUALS
  | GREATER_THAN
  | GREATER_THAN_OR_EQUAL
  | LESS_THAN
  | LESS_THAN_OR_EQUAL
  | IS_TRUE
  | IS_FALSE
  | IS_BLANK
  | IS_NOT_BLANK
  | CONTAINS
  | STARTS_WITH
  | ENDS_WITH
  | IS_IN
  | IS_NOT_IN.

(** [c.value]. *)
Definition Comparator_value (c : Comparator) : string :=
  match c with
  | EQUALS => "is equal to"
  | NOT_EQUALS => "is not equal to"
  | GREATER_THAN => "is greater than"
  | GREATER_THAN_OR_EQUAL => "is greater than or equal to"
  | LESS_THAN => "is less than"
  | LESS_THAN_OR_EQUAL => "is less than or equal to"
  | IS_TRUE => "is true"
  | IS_FALSE => "is false"
  | IS_BLANK => "is blank"
  | IS_NOT_BLANK => "is not blank"
  | CONTAINS => "contains"
  | STARTS_WITH => "starts with"
  | ENDS_WITH => "ends with"
  | IS_IN => "is in"
  | IS_NOT_IN => "is not in"
  end.

(** What [for c in Comparator] visits. *)
Definition Comparator_members : list Comparator :=
  [EQUALS; NOT_EQUALS; GREATER_THAN; GREATER_THAN_OR_EQUAL; LESS_THAN;
   LESS_THAN_OR_EQUAL; IS_TRUE; IS_FALSE; IS_BLANK; IS_NOT_BLANK; CONTAINS;
   STARTS_WITH; ENDS_WITH; IS_IN; IS_NOT_IN].

(** [class PegaFunction(str, Enum)]. *)
Inductive PegaFunction : Type :=
  | F_EQUALS_IGNORE_CASE
  | F_NOT_EQUALS_IGNORE_CASE
  | F_CONTAINS
  | F_STARTS_WITH
  | F_ENDS_WITH
  | F_GREATER_THAN
  | F_GREATER_THAN_OR_EQUAL
  | F_LESS_THAN
  | F_LESS_THAN_OR_EQUAL
  | F_TRIM
  | F_IS_TRUE
  | F_IS_FALSE
  | F_IS_BLANK
  | F_IS_NOT_BLANK
  | F_CALL_WHEN
  | F_IS_IN_PAGE_LIST.

(** [func.value]. *)
Definition PegaFunction_value (f : PegaFunction) : string :=
  match f with
  | F_EQUALS_IGNORE_CASE => "@equalsIgnoreCase"
  | F_NOT_EQUALS_IGNORE_CASE => "@notEqualsIgnoreCase"
  | F_CONTAINS => "@contains"
  | F_STARTS_WITH => "@startsWith"
  | F_ENDS_WITH => "@endsWith"
  | F_GREATER_THAN => "@greaterThan"
  | F_GREATER_THAN_OR_EQUAL => "@greaterThanOrEqual"
  | F_LESS_THAN => "@lessThan"
  | F_LESS_THAN_OR_EQUAL => "@lessThanOrEqual"
  | F_TRIM => "@trim"
  | F_IS_TRUE => "@isTrue"
  | F_IS_FALSE => "@isFalse"
  | F_IS_BLANK => "@isBlank"
  | F_IS_NOT_BLANK => "@isNotBlank"
  | F_CALL_WHEN => "@Utilities.callWhen"
  | F_IS_IN_PAGE_LIST => "@IsInPageListWhen"
  end.

Inductive LogicalOperator : Type :=
  | AND
  | OR.

Inductive ConditionType : Type :=
  | PROPERTY_COMPARISON
  | RULE_REFERENCE
  | FUNCTION_CALL.

Record Condition : Type := mkCondition {
  condition_type : ConditionType;
  property_reference : option string;
  comparator : option Comparator;
  pega_function : option PegaFunction;
  compare_value : option string;
  apply_trim : bool;
  compare_value_is_property : bool;
  referenced_rule : option string;
  rule_evaluates_to : bool
}.

(** The field defaults of [Condition]. *)
Definition default_Condition : Condition :=
  {| condition_type := PROPERTY_COMPARISON;
     property_reference := None;
     comparator := None;
     pega_function := None;
     compare_value := None;
     apply_trim := true;
     compare_value_is_property := false;
     referenced_rule := None;
     rule_evaluates_to := true |}.

Record ConditionGroup : Type := mkConditionGroup {
  conditions : list Condition;
  operator : LogicalOperator
}.

Record WhenRule : Type := mkWhenRule {
  rule_name : string;
  applies_to : string;
  description : string;
  condition_groups : list ConditionGroup;
  group_operator : LogicalOperator;
  campaign_id : option string
}.

(** ["&&" if op == LogicalOperator.AND else "||"]. *)
Definition op_symbol (op : LogicalOperator) : string :=
  match op with
  | AND => "&&"
  | OR => "||"
  end.

Definition is_rule_reference (t : ConditionType) : bool :=
  match t with
  | RULE_REFERENCE => true
  | _ => false
  end.

(** [comp in (IS_TRUE, IS_FALSE, IS_BLANK, IS_NOT_BLANK)]. *)
Definition comparator_is_unary (comp : Comparator) : bool :=
  match comp with
  | IS_TRUE | IS_FALSE | IS_BLANK | IS_NOT_BLANK => true
  | _ => false
  end.

(** [comp in (GREATER_THAN, LESS_THAN, GREATER_THAN_OR_EQUAL,
    LESS_THAN_OR_EQUAL)]; [None] is in no tuple. *)
Definition comparator_is_magnitude (comp : option Comparator) : bool :=
  match comp with
  | Some GREATER_THAN | Some LESS_THAN
  | Some GREATER_THAN_OR_EQUAL | Some LESS_THAN_OR_EQUAL => true
  | _ => false
  end.

(** [func in (PegaFunction.GREATER_THAN, PegaFunction.LESS_THAN,
    PegaFunction.GREATER_THAN_OR_EQUAL, PegaFunction.LESS_THAN_OR_EQUAL)]. *)
Definition function_is_magnitude (func : PegaFunction) : bool :=
  match func with
  | F_GREATER_THAN | F_LESS_THAN
  | F_GREATER_THAN_OR_EQUAL | F_LESS_THAN_OR_EQUAL => true
  | _ => false
  end.

(** [func in (PegaFunction.IS_TRUE, PegaFunction.IS_FALSE,
    PegaFunction.IS_BLANK, PegaFunction.IS_NOT_BLANK)]. *)
Definition function_is_unary (func : PegaFunction) : bool :=
  match func with
  | F_IS_TRUE | F_IS_FALSE | F_IS_BLANK | F_IS_NOT_BLANK => true
  | _ => false
  end.

(** [val.replace('.', '').replace('-', '').isdigit()]. *)
Definition looks_numeric (val : string) : bool :=
  isdigit (remove_char "-"%char (remove_char "."%char val)).

(** [f'"{val}"']. *)
Definition quoted (val : string) : string := dquote ++ val ++ dquote.

(** [func_map.get(comp)] of [_build_function_expr_from_comparator]. *)
Definition func_map_get (comp : option Comparator) : option PegaFunction :=
  match comp with
  | Some EQUALS => Some F_EQUALS_IGNORE_CASE
  | Some NOT_EQUALS => Some F_NOT_EQUALS_IGNORE_CASE
  | Some GREATER_THAN => Some F_GREATER_THAN
  | Some GREATER_THAN_OR_EQUAL => Some F_GREATER_THAN_OR_EQUAL
  | Some LESS_THAN => Some F_LESS_THAN
  | Some LESS_THAN_OR_EQUAL => Some F_LESS_THAN_OR_EQUAL
  | Some CONTAINS => Some F_CONTAINS
  | Some STARTS_WITH => Some F_STARTS_WITH
  | Some ENDS_WITH => Some F_ENDS_WITH
  | Some IS_TRUE => Some F_IS_TRUE
  | Some IS_FALSE => Some F_IS_FALSE
  | Some IS_BLANK => Some F_IS_BLANK
  | Some IS_NOT_BLANK => Some F_IS_NOT_BLANK
  | Some IS_IN | Some IS_NOT_IN | None => None
  end.

(** [WhenRule._build_function_expr]; [func] is [cond.pega_function], which
    the one caller has found set. *)
Definition _build_function_expr (cond : Condition) (func : PegaFunction)
  : string :=
  let prop := or_empty (property_reference cond) in
  let prop :=
    if apply_trim cond && negb (function_is_magnitude func)
    then "@trim(" ++ prop ++ ")"
    else prop in
  if function_is_unary func then PegaFunction_value func ++ "(" ++ prop ++ ")"
  else
    let val := or_empty (compare_value cond) in
    let val :=
      if negb (compare_value_is_property cond) && negb (startswith dquote val)
      then
        if negb (looks_numeric val) then quoted val else val
      else val in
    PegaFunction_value func ++ "(" ++ prop ++ ", " ++ val ++ ")".

(** [WhenRule._build_function_expr_from_comparator]. *)
Definition _build_function_expr_from_comparator (cond : Condition) : string :=
  let prop := or_empty (property_reference cond) in
  let comp := comparator cond in
  let val := or_empty (compare_value cond) in
  match func_map_get comp with
  | None => "(" ++ prop ++ " == " ++ val ++ ")"
  | Some func =>
      let is_numeric := comparator_is_magnitude comp in
      let prop :=
        if apply_trim cond && negb is_numeric
        then "@trim(" ++ prop ++ ")"
        else prop in
      if function_is_unary func
      then PegaFunction_value func ++ "(" ++ prop ++ ")"
      else
        let val :=
          if negb is_numeric && negb (startswith dquote val)
          then
            if negb (looks_numeric val) then quoted val else val
          else val in
        PegaFunction_value func ++ "(" ++ prop ++ ", " ++ val ++ ")"
  end.

(** [WhenRule._condition_to_expr]. *)
Definition _condition_to_expr (cond : Condition) (use_pega_functions : bool)
  : string :=
  if is_rule_reference (condition_type cond) && truthy (referenced_rule cond)
  then
    let eval_str := if rule_evaluates_to cond then "true" else "false" in
    "{Rule " ++ format_opt (referenced_rule cond)
      ++ " evaluates to " ++ eval_str ++ "}"
  else
    let prop := or_empty (property_reference cond) in
    match use_pega_functions, pega_function cond with
    | true, Some func => _build_function_expr cond func
    | true, None => _build_function_expr_from_comparator cond
    | false, _ =>
        match comparator cond with
        | Some c =>
            let comp := Comparator_value c in
            if comparator_is_unary c then prop ++ " " ++ comp
            else
              let val :=
                match compare_value cond with
                | Some v =>
                    if negb (compare_value_is_property cond)
                       && (negb (startswith dquote v)
                           && negb (looks_numeric v))
                    then Some (quoted v)
                    else Some v
                | None => None
                end in
              prop ++ " " ++ comp ++ " " ++ format_opt val
        | None => prop
        end
    end.

(** The body of the loop over groups in [to_expression]: one token per
    group, appended to [group_expressions]. *)
Definition group_expression (use_pega_functions : bool) (group : ConditionGroup)
  : string :=
  let conditions_str :=
    fold_left
      (fun acc cond => append acc (_condition_to_expr cond use_pega_functions))
      (conditions group) [] in
  let group_op := op_symbol (operator group) in
  match conditions_str with
  | [only] => only
  | _ => "(" ++ join (" " ++ group_op ++ " ") conditions_str ++ ")"
  end.

(** [WhenRule.to_expression]. *)
Definition to_expression (self : WhenRule) (use_pega_functions : bool)
  : string :=
  let op_symbol := op_symbol (group_operator self) in
  let group_expressions :=
    fold_left
      (fun acc group => append acc (group_expression use_pega_functions group))
      (condition_groups self) [] in
  match group_expressions with
  | [only] => only
  | _ => join (" " ++ op_symbol ++ " ") group_expressions
  end.

(** [enumerate(l)]. *)
Definition enumerate {A : Type} (l : list A) : list (nat * A) :=
  combine (seq 0 (length l)) l.

(** The block [to_pega_xml] emits for one condition. *)
Definition condition_xml (cond : Condition) : string :=
  if is_rule_reference (condition_type cond)
  then
    "    <ruleReference>" ++ newline
    ++ "      <ruleName>" ++ format_opt (referenced_rule cond)
    ++ "</ruleName>" ++ newline
    ++ "      <evaluatesTo>" ++ bool_lower (rule_evaluates_to cond)
    ++ "</evaluatesTo>" ++ newline
    ++ "    </ruleReference>"
  else
    "    <condition>" ++ newline
    ++ "      <propertyRef>" ++ or_empty (property_reference cond)
    ++ "</propertyRef>" ++ newline
    ++ "      <comparator>"
    ++ match comparator cond with
       | Some c => Comparator_value c
       | None => EmptyString
       end
    ++ "</comparator>" ++ newline
    ++ "      <compareValue>" ++ or_empty (compare_value cond)
    ++ "</compareValue>" ++ newline
    ++ "      <compareValueIsProperty>"
    ++ bool_lower (compare_value_is_property cond)
    ++ "</compareValueIsProperty>" ++ newline
    ++ "    </condition>".

(** [WhenRule.to_pega_xml]. *)
Definition to_pega_xml (self : WhenRule) : string :=
  let groups := condition_groups self in
  let conditions_xml :=
    fold_left
      (fun acc '(group_idx, group) =>
         let acc :=
           fold_left
             (fun acc '(cond_idx, cond) =>
                let acc := append acc (condition_xml cond) in
                if Nat.ltb cond_idx (length (conditions group) - 1)
                then append acc ("    <operator>" ++ op_symbol (operator group)
                                 ++ "</operator>")
                else acc)
             (enumerate (conditions group)) acc in
         if Nat.ltb group_idx (length groups - 1)
         then append acc ("    <groupOperator>"
                          ++ op_symbol (group_operator self)
                          ++ "</groupOperator>")
         else acc)
      (enumerate groups) [] in
  "<?xml version=" ++ dquote ++ "1.0" ++ dquote ++ " encoding=" ++ dquote
  ++ "UTF-8" ++ dquote ++ "?>" ++ newline
  ++ "<pega:WhenRule xmlns:pega=" ++ dquote ++ "http://www.pega.com/rules"
  ++ dquote ++ ">" ++ newline
  ++ "  <ruleName>" ++ rule_name self ++ "</ruleName>" ++ newline
  ++ "  <appliesTo>" ++ applies_to self ++ "</appliesTo>" ++ newline
  ++ "  <description>" ++ description self ++ "</description>" ++ newline
  ++ "  <campaignId>" ++ or_empty (campaign_id self) ++ "</campaignId>"
  ++ newline
  ++ "  <conditions>" ++ newline
  ++ join newline conditions_xml ++ newline
  ++ "  </conditions>" ++ newline
  ++ "</pega:WhenRule>".

(** An optional string as a Python value. *)
Definition py_opt_str (o : option string) : Py.value :=
  match o with
  | Some s => Py.PyStr s
  | None => Py.PyNone
  end.

(** The record [to_dict] appends for [cond] inside [group]. *)
Definition condition_record (group : ConditionGroup) (cond : Condition)
  : Py.value :=
  if is_rule_reference (condition_type cond)
  then
    Py.PyDict
      [("pyConditionType", Py.PyStr "rule");
       ("pyRuleName", py_opt_str (referenced_rule cond));
       ("pyEvaluatesTo", Py.PyBool (rule_evaluates_to cond));
       ("pyLogicalOperator", Py.PyStr (op_symbol (operator group)))]
  else
    Py.PyDict
      [("pyConditionType", Py.PyStr "property");
       ("pyPropertyRef", Py.PyStr (or_empty (property_reference cond)));
       ("pyComparator",
        Py.PyStr match comparator cond with
                 | Some c => Comparator_value c
                 | None => EmptyString
                 end);
       ("pyCompareValue", Py.PyStr (or_empty (compare_value cond)));
       ("pyCompareValueIsProperty", Py.PyBool (compare_value_is_property cond));
       ("pyLogicalOperator", Py.PyStr (op_symbol (operator group)))].

(** The list [conditions_list] that the two loops of [to_dict] build. *)
Definition conditions_list (self : WhenRule) : list Py.value :=
  fold_left
    (fun acc group =>
       fold_left
         (fun acc cond => append acc (condition_record group cond))
         (conditions group) acc)
    (condition_groups self) [].

(** [WhenRule.to_dict]. *)
Definition to_dict (self : WhenRule) : Py.value :=
  Py.PyDict
    [("pxObjClass", Py.PyStr "Rule-Obj-When");
     ("pyClassName", Py.PyStr (applies_to self));
     ("pyRuleName", Py.PyStr (rule_name self));
     ("pyDescription", Py.PyStr (description self));
     ("pyCampaignId", py_opt_str (campaign_id self));
     ("pyConditions", Py.PyList (conditions_list self))].

End Models.

(** ** A JSON decoder

    [create_when_rule] calls [json.loads] of the standard library.  The
    tool layer below takes the decoder as a parameter; this module gives
    one to run it on concrete texts.  It follows [json.decoder]
    ([scan_once], [JSONObject], [JSONArray], [scanstring]) and the wording
    and positions of its [JSONDecodeError].  A float is kept as its lexeme.

    The decoder has two outcomes, a value or the text of a
    [JSONDecodeError]; it agrees with [json.loads] on the texts where
    [json.loads] has one of these two.  Outside of them it is no model of
    [json.loads]:
    - an escape [\uXXXX] above [00FF] names a character outside the
      strings of this model, and the decoder stops there with a message of
      its own;
    - on a text nested deeper than the interpreter's recursion limit
      [json.loads] raises [RecursionError], and on an integer literal of
      more than 4300 digits it raises [ValueError]; neither is a
      [JSONDecodeError], and the decoder here gives a value or an error
      text instead.
    The properties below run the decoder on short texts without such
    escapes, nesting or literals. *)

Module Json.
Import Py.

Inductive outcome (A : Type) : Type :=
  | Done (a : A) (rest : string) (idx : nat)
  | Fail (msg : string) (pos : nat)
  | OutOfFuel.

Arguments Done {A} a rest idx.
Arguments Fail {A} msg pos.
Arguments OutOfFuel {A}.

Definition map_outcome {A B : Type} (f : A -> B) (o : outcome A) : outcome B :=
  match o with
  | Done a rest idx => Done (f a) rest idx
  | Fail msg pos => Fail msg pos
  | OutOfFuel => OutOfFuel
  end.

Definition dq : ascii := "034"%char.

Definition is_ws (c : ascii) : bool :=
  let n := nat_of_ascii c in
  Nat.eqb n 32 || Nat.eqb n 9 || Nat.eqb n 10 || Nat.eqb n 13.

Fixpoint skip_ws (s : string) (idx : nat) : string * nat :=
  match s with
  | String c rest => if is_ws c then skip_ws rest (S idx) else (s, idx)
  | EmptyString => (s, idx)
  end.

Definition is_ascii_digit (c : ascii) : bool :=
  let n := nat_of_ascii c in Nat.leb 48 n && Nat.leb n 57.

Definition hex_value (c : ascii) : option nat :=
  let n := nat_of_ascii c in
  if Nat.leb 48 n && Nat.leb n 57 then Some (n - 48)
  else if Nat.leb 97 n && Nat.leb n 102 then Some (n - 87)
  else if Nat.leb 65 n && Nat.leb n 70 then Some (n - 55)
  else None.

(** The one-character escapes of a JSON string. *)
Definition unescape (c : ascii) : option ascii :=
  if Ascii.eqb c dq then Some dq
  else if Ascii.eqb c "\"%char then Some "\"%char
  else if Ascii.eqb c "/"%char then Some "/"%char
  else if Ascii.eqb c "b"%char then Some "008"%char
  else if Ascii.eqb c "f"%char then Some "012"%char
  else if Ascii.eqb c "n"%char then Some "010"%char
  else if Ascii.eqb c "r"%char then Some "013"%char
  else if Ascii.eqb c "t"%char then Some "009"%char
  else None.

(** [scanstring]: [s] starts after the opening quote, which stands at
    [begin]. *)
Fixpoint scanstring (begin : nat) (s : string) (idx : nat) : outcome string :=
  match s with
  | EmptyString => Fail "Unterminated string starting at" begin
  | String c rest =>
      if Ascii.eqb c dq then Done EmptyString rest (S idx)
      else if Ascii.eqb c "\"%char then
        match rest with
        | EmptyString => Fail "Unterminated string starting at" begin
        | String e rest1 =>
            if Ascii.eqb e "u"%char then
              match rest1 with
              | String h1 (String h2 (String h3 (String h4
                  (String _ _ as rest2)))) =>
                  match hex_value h1, hex_value h2, hex_value h3, hex_value h4 with
                  | Some a, Some b, Some c3, Some d =>
                      if Nat.eqb a 0 && Nat.eqb b 0
                      then map_outcome (String (ascii_of_nat (16 * c3 + d)))
                             (scanstring begin rest2 (idx + 6))
                      else Fail "Escape above U+00FF" (S idx)
                  | _, _, _, _ => Fail "Invalid \uXXXX escape" (S idx)
                  end
              | _ => Fail "Invalid \uXXXX escape" (S idx)
              end
            else
              match unescape e with
              | Some ch =>
                  map_outcome (String ch) (scanstring begin rest1 (idx + 2))
              | None => Fail "Invalid \escape" idx
              end
        end
      else if Nat.ltb (nat_of_ascii c) 32
      then Fail "Invalid control character at" idx
      else map_outcome (String c) (scanstring begin rest (S idx))
  end.

(** The longest prefix of ASCII digits, and what follows it. *)
Fixpoint span_digits (s : string) : string * string :=
  match s with
  | String c rest =>
      if is_ascii_digit c
      then let '(d, r) := span_digits rest in (String c d, r)
      else (EmptyString, s)
  | EmptyString => (EmptyString, s)
  end.

Fixpoint Z_of_digits (acc : Z) (s : string) : Z :=
  match s with
  | String c rest =>
      Z_of_digits (10 * acc + Z.of_nat (nat_of_ascii c - 48))%Z rest
  | EmptyString => acc
  end.

Definition is_empty (s : string) : bool :=
  match s with
  | EmptyString => true
  | String _ _ => false
  end.

(** [NUMBER_RE]: an integer part, then an optional fraction and an optional
    exponent; the value and what follows the match. *)
Definition scan_number (s : string) : option (value * string) :=
  let '(neg, s0) :=
    match s with
    | String c r => if Ascii.eqb c "-"%char then (true, r) else (false, s)
    | EmptyString => (false, s)
    end in
  match s0 with
  | String c r =>
      if is_ascii_digit c then
        let '(int_part, r1) :=
          if Ascii.eqb c "0"%char then ("0", r) else span_digits s0 in
        let '(frac, r2) :=
          match r1 with
          | String p r' =>
              if Ascii.eqb p "."%char then
                let '(d, r'') := span_digits r' in
                if is_empty d then (EmptyString, r1) else (String p d, r'')
              else (EmptyString, r1)
          | EmptyString => (EmptyString, r1)
          end in
        let '(exp, r3) :=
          match r2 with
          | String e r' =>
              if Ascii.eqb e "e"%char || Ascii.eqb e "E"%char then
                let '(sign, r'') :=
                  match r' with
                  | String g t =>
                      if Ascii.eqb g "+"%char || Ascii.eqb g "-"%char
                      then (String g EmptyString, t)
                      else (EmptyString, r')
                  | EmptyString => (EmptyString, r')
                  end in
                let '(d, r''') := span_digits r'' in
                if is_empty d then (EmptyString, r2)
                else (String e (sign ++ d), r''')
              else (EmptyString, r2)
          | EmptyString => (EmptyString, r2)
          end in
        if is_empty frac && is_empty exp
        then
          let n := Z_of_digits 0 int_part in
          Some (PyInt (if neg then Z.opp n else n), r3)
        else
          Some (PyFloat ((if neg then "-" else EmptyString)
                         ++ int_part ++ frac ++ exp), r3)
      else None
  | EmptyString => None
  end.

(** [s] without its prefix [p], when it has it. *)
Fixpoint strip_prefix (p s : string) : option string :=
  match p, s with
  | EmptyString, _ => Some s
  | String a p', String b s' =>
      if Ascii.eqb a b then strip_prefix p' s' else None
  | String _ _, EmptyString => None
  end.

(** The constants and numbers [scan_once] recognises, tried in its order. *)
Definition scan_atom (s : string) : option (value * string) :=
  match strip_prefix "null" s with
  | Some r => Some (PyNone, r)
  | None =>
  match strip_prefix "true" s with
  | Some r => Some (PyBool true, r)
  | None =>
  match strip_prefix "false" s with
  | Some r => Some (PyBool false, r)
  | None =>
  match scan_number s with
  | Some vr => Some vr
  | None =>
  match strip_prefix "NaN" s with
  | Some r => Some (PyFloat "NaN", r)
  | None =>
  match strip_prefix "Infinity" s with
  | Some r => Some (PyFloat "Infinity", r)
  | None =>
  match strip_prefix "-Infinity" s with
  | Some r => Some (PyFloat "-Infinity", r)
  | None => None
  end end end end end end end.

Definition expecting_name : string :=
  "Expecting property name enclosed in double quotes".

(** [scan_once], with [JSONArray] and [JSONObject] and their loops. *)
Fixpoint scan_once (fuel : nat) (s : string) (idx : nat) {struct fuel}
  : outcome value :=
  match fuel with
  | O => OutOfFuel
  | S fuel' =>
      match s with
      | EmptyString => Fail "Expecting value" idx
      | String c rest =>
          if Ascii.eqb c dq
          then map_outcome PyStr (scanstring idx rest (S idx))
          else if Ascii.eqb c "{"%char then
            let '(s1, i1) := skip_ws rest (S idx) in
            match s1 with
            | String c1 r1 =>
                if Ascii.eqb c1 "}"%char then Done (PyDict []) r1 (S i1)
                else if Ascii.eqb c1 dq then object_loop fuel' [] i1 r1 (S i1)
                else Fail expecting_name i1
            | EmptyString => Fail expecting_name i1
            end
          else if Ascii.eqb c "["%char then
            let '(s1, i1) := skip_ws rest (S idx) in
            match s1 with
            | String c1 r1 =>
                if Ascii.eqb c1 "]"%char then Done (PyList []) r1 (S i1)
                else array_loop fuel' [] s1 i1
            | EmptyString => array_loop fuel' [] s1 i1
            end
          else
            match scan_atom s with
            | Some (v, r) => Done v r (idx + (String.length s - String.length r))
            | None => Fail "Expecting value" idx
            end
      end
  end

with array_loop (fuel : nat) (acc : list value) (s : string) (idx : nat)
  {struct fuel} : outcome value :=
  match fuel with
  | O => OutOfFuel
  | S fuel' =>
      match scan_once fuel' s idx with
      | Done v rest i =>
          let '(s1, i1) := skip_ws rest i in
          match s1 with
          | String c r1 =>
              if Ascii.eqb c "]"%char then Done (PyList (append acc v)) r1 (S i1)
              else if Ascii.eqb c ","%char then
                let '(s2, i2) := skip_ws r1 (S i1) in
                array_loop fuel' (append acc v) s2 i2
              else Fail "Expecting ',' delimiter" i1
          | EmptyString => Fail "Expecting ',' delimiter" i1
          end
      | Fail msg pos => Fail msg pos
      | OutOfFuel => OutOfFuel
      end
  end

with object_loop (fuel : nat) (acc : dict) (begin : nat) (s : string)
  (idx : nat) {struct fuel} : outcome value :=
  match fuel with
  | O => OutOfFuel
  | S fuel' =>
      match scanstring begin s idx with
      | Done key rest i =>
          let '(s1, i1) := skip_ws rest i in
          match s1 with
          | String c r1 =>
              if Ascii.eqb c ":"%char then
                let '(s2, i2) := skip_ws r1 (S i1) in
                match scan_once fuel' s2 i2 with
                | Done v rest3 i3 =>
                    let acc := dict_set key v acc in
                    let '(s4, i4) := skip_ws rest3 i3 in
                    match s4 with
                    | String c4 r4 =>
                        if Ascii.eqb c4 "}"%char then Done (PyDict acc) r4 (S i4)
                        else if Ascii.eqb c4 ","%char then
                          let '(s5, i5) := skip_ws r4 (S i4) in
                          match s5 with
                          | String c5 r5 =>
                              if Ascii.eqb c5 dq
                              then object_loop fuel' acc i5 r5 (S i5)
                              else Fail expecting_name i5
                          | EmptyString => Fail expecting_name i5
                          end
                        else Fail "Expecting ',' delimiter" i4
                    | EmptyString => Fail "Expecting ',' delimiter" i4
                    end
                | Fail msg pos => Fail msg pos
                | OutOfFuel => OutOfFuel
                end
              else Fail "Expecting ':' delimiter" i1
          | EmptyString => Fail "Expecting ':' delimiter" i1
          end
      | Fail msg pos => Fail msg pos
      | OutOfFuel => OutOfFuel
      end
  end.

(** [JSONDecoder.decode]: one value between optional white space. *)
Definition decode (s : string) : outcome value :=
  let '(s0, i0) := skip_ws s 0 in
  match scan_once (2 * String.length s + 1) s0 i0 with
  | Done v rest i =>
      let '(s1, i1) := skip_ws rest i in
      match s1 with
      | EmptyString => Done v s1 i1
      | String _ _ => Fail "Extra data" i1
      end
  | other => other
  end.

Definition nat_str (n : nat) : string :=
  DecimalString.NilEmpty.string_of_uint (Nat.to_uint n).

(** Line and column of [pos] in [doc], counted as [JSONDecodeError] does:
    the line is one more than the line feeds before [pos], the column is
    the distance from the last of them. *)
Fixpoint line_col (doc : string) (pos line col : nat) : nat * nat :=
  match pos, doc with
  | O, _ => (line, col)
  | S pos', String c rest =>
      if Ascii.eqb c "010"%char then line_col rest pos' (S line) 1
      else line_col rest pos' line (S col)
  | S _, EmptyString => (line, col)
  end.

(** [str(e)] of a [JSONDecodeError]. *)
Definition errmsg (doc msg : string) (pos : nat) : string :=
  let '(line, col) := line_col doc pos 1 1 in
  msg ++ ": line " ++ nat_str line ++ " column " ++ nat_str col
  ++ " (char " ++ nat_str pos ++ ")".

(** [json.loads]: the value, or the text of the [JSONDecodeError]. *)
Definition loads (s : string) : value + string :=
  match decode s with
  | Done v _ _ => inl v
  | Fail msg pos => inr (errmsg s msg pos)
  | OutOfFuel => inr "out of fuel"
  end.

End Json.

(** ** Field validation

    [Condition(...)] validates its arguments with pydantic, which is not
    part of the repository; the tool layer below takes the validation of a
    [str] field and of a [bool] field as parameters.  The validators here
    accept exactly the values of the field's own type.  Pydantic's default
    mode accepts more for a [bool] field (the integers [0] and [1] and
    texts such as ["false"] or ["yes"]) and these validators refuse
    them; the sample entries below hold a text, a truth value or [None]
    in every field. *)

Module Pydantic.
Import Py.

Definition strict_str (v : value) : option string :=
  match v with
  | PyStr s => Some s
  | _ => None
  end.

Definition strict_bool (v : value) : option bool :=
  match v with
  | PyBool b => Some b
  | _ => None
  end.

End Pydantic.

(** ** The tool layer ([agent.py]) *)

Module Agent.
Import PyStr Py Models.
Local Open Scope py_scope.

Section Tool.

(** [json.loads]: the decoded value, or [str(e)] of the
    [json.JSONDecodeError] it raises. *)
Variable json_loads : string -> value + string.

(** What pydantic makes of a value offered for a [str] field and for a
    [bool] field; [None] when it refuses the value. *)
Variable validate_str : value -> option string.
Variable validate_bool : value -> option bool.

(** A field declared [Optional[str]]. *)
Definition optional_str_field (v : value) : result (option string) :=
  match v with
  | PyNone => Ok None
  | _ =>
      match validate_str v with
      | Some s => Ok (Some s)
      | None => Raise ValidationError
      end
  end.

(** A field declared [bool]. *)
Definition bool_field (v : value) : result bool :=
  match validate_bool v with
  | Some b => Ok b
  | None => Raise ValidationError
  end.

(** The search [for c in Comparator: if c.value == comp_str: ... break]. *)
Definition find_comparator (comp_str : value) : option Comparator :=
  find (fun c => eq_str comp_str (Comparator_value c)) Comparator_members.

(** The comparator chosen for a property comparison: the one found, and
    [Comparator.EQUALS] [if not comparator]. *)
Definition select_comparator (comp_str : value) : Comparator :=
  match find_comparator comp_str with
  | Some c => c
  | None => EQUALS
  end.

(** The body of the loop over the condition entries of a group. *)
Definition build_condition (cond : value) : result Condition :=
  is_rule <- contains "rule" cond ;;
  if is_rule : bool then
    rule <- get cond "rule" PyNone ;;
    evaluates_to <- get cond "evaluates_to" (PyBool true) ;;
    referenced_rule <- optional_str_field rule ;;
    rule_evaluates_to <- bool_field evaluates_to ;;
    Ok {| condition_type := RULE_REFERENCE;
          property_reference := None;
          comparator := None;
          pega_function := None;
          compare_value := None;
          apply_trim := true;
          compare_value_is_property := false;
          referenced_rule := referenced_rule;
          rule_evaluates_to := rule_evaluates_to |}
  else
    comp_str <- get cond "comparator" (PyStr "is equal to") ;;
    let comparator := select_comparator comp_str in
    let apply_trim := negb (comparator_is_magnitude (Some comparator)) in
    property <- get cond "property" (PyStr EmptyString) ;;
    value <- get cond "value" PyNone ;;
    trim <- get cond "apply_trim" (PyBool apply_trim) ;;
    is_property <- get cond "is_property" (PyBool false) ;;
    property_reference <- optional_str_field property ;;
    compare_value <- optional_str_field value ;;
    apply_trim <- bool_field trim ;;
    compare_value_is_property <- bool_field is_property ;;
    Ok {| condition_type := PROPERTY_COMPARISON;
          property_reference := property_reference;
          comparator := Some comparator;
          pega_function := None;
          compare_value := compare_value;
          apply_trim := apply_trim;
          compare_value_is_property := compare_value_is_property;
          referenced_rule := None;
          rule_evaluates_to := true |}.

(** The body of the loop over [conditions_data.get("groups", [])]. *)
Definition build_group (group_data : value) : result ConditionGroup :=
  entries <- get group_data "conditions" (PyList []) ;;
  items <- iter entries ;;
  conditions <- for_each build_condition items ;;
  op_str <- get group_data "operator" (PyStr "AND") ;;
  let operator := if eq_str op_str "AND" then AND else OR in
  Ok {| conditions := conditions; operator := operator |}.

(** [create_when_rule]: the dict it returns, or the exception that leaves
    it. *)
Definition create_when_rule (rule_name applies_to description : string)
  (conditions_json : string) (campaign_id : option string) : result value :=
  match json_loads conditions_json with
  | inr e =>
      Ok (PyDict [("error", PyStr ("Invalid JSON in conditions: " ++ e))])
  | inl conditions_data =>
      groups <- get conditions_data "groups" (PyList []) ;;
      items <- iter groups ;;
      condition_groups <- for_each build_group items ;;
      group_op_str <- get conditions_data "group_operator" (PyStr "AND") ;;
      let group_operator := if eq_str group_op_str "AND" then AND else OR in
      let when_rule :=
        {| rule_name := rule_name;
           applies_to := applies_to;
           description := description;
           condition_groups := condition_groups;
           group_operator := group_operator;
           campaign_id := campaign_id |} in
      Ok (PyDict
            [("status", PyStr "success");
             ("rule_name", PyStr (Models.rule_name when_rule));
             ("applies_to", PyStr (Models.applies_to when_rule));
             ("campaign_id", py_opt_str (Models.campaign_id when_rule));
             ("expression", PyStr (to_expression when_rule true));
             ("expression_simple", PyStr (to_expression when_rule false));
             ("xml", PyStr (to_pega_xml when_rule));
             ("api_payload", to_dict when_rule)])
  end.

End Tool.

(** The tool run with the decoder and the validators given above. *)
Definition run_create_when_rule :=
  create_when_rule Json.loads Pydantic.strict_str Pydantic.strict_bool.

End Agent.

(** ** The renderings as the specification words them

    Two rules of the specification, written out from its text to be
    compared with the code. *)

Module Spec.
Import PyStr Models.

(** Step 3 of the rendering algorithm: the group tokens joined by the
    symbol of [groupOperator], a single token left bare and a join of
    several wrapped in one parenthesis pair. *)
Definition to_expression (self : WhenRule) (use_pega_functions : bool)
  : string :=
  let tokens :=
    map (group_expression use_pega_functions) (condition_groups self) in
  match tokens with
  | [] => EmptyString
  | [only] => only
  | _ => "(" ++ join (" " ++ op_symbol (group_operator self) ++ " ") tokens
         ++ ")"
  end.

(** The quoting rule: a value that passes the numeric test stays bare;
    any other value, unless it starts with a double quote or names a
    property, is wrapped in double quotes. *)
Definition value_token (is_property : bool) (val : string) : string :=
  if looks_numeric val then val
  else if negb (startswith dquote val) && negb is_property then quoted val
  else val.

End Spec.

(** ** Sample rules and specifications *)

Module Samples.
Import PyStr Models.

Definition property_cond (prop : string) (comp : Comparator) (val : string)
  : Condition :=
  {| condition_type := PROPERTY_COMPARISON;
     property_reference := Some prop;
     comparator := Some comp;
     pega_function := None;
     compare_value := Some val;
     apply_trim := true;
     compare_value_is_property := false;
     referenced_rule := None;
     rule_evaluates_to := true |}.

(** [AGE_NUM > abc]: a magnitude comparison with a value that is no
    number. *)
Definition age_above_text : Condition :=
  property_cond "AGE_NUM" GREATER_THAN "abc".

(** [CUST_SEG == Premier]. *)
Definition segment_is_premier : Condition :=
  property_cond "CUST_SEG" EQUALS "Premier".

(** A value with an inner dash. *)
Definition range_value : Condition := property_cond "RANGE" EQUALS "1-2".

(** A comparison of two properties. *)
Definition same_as_other : Condition :=
  {| condition_type := PROPERTY_COMPARISON;
     property_reference := Some "HOME_CTRY";
     comparator := Some EQUALS;
     pega_function := None;
     compare_value := Some "WORK_CTRY";
     apply_trim := true;
     compare_value_is_property := true;
     referenced_rule := None;
     rule_evaluates_to := true |}.

(** Membership in a list, with trimming asked for. *)
Definition segment_in_list : Condition :=
  property_cond "CUST_SEG" IS_IN "A,B".

Definition rule_of (groups : list ConditionGroup) (op : LogicalOperator)
  : WhenRule :=
  {| rule_name := "IsEligible";
     applies_to := "Customer Eligibility";
     description := "sample";
     condition_groups := groups;
     group_operator := op;
     campaign_id := None |}.

(** Two groups of one condition each, combined with OR. *)
Definition two_groups : WhenRule :=
  rule_of [ {| conditions := [age_above_text]; operator := AND |};
            {| conditions := [segment_is_premier]; operator := AND |} ] OR.

(** One AND group of two conditions. *)
Definition one_and_group : WhenRule :=
  rule_of [ {| conditions := [segment_is_premier; range_value];
               operator := AND |} ] AND.

(** One group with no condition. *)
Definition one_empty_group : WhenRule :=
  rule_of [ {| conditions := []; operator := AND |} ] AND.

(** A text between double quotes, as it stands in a JSON document. *)
Definition q (s : string) : string := dquote ++ s ++ dquote.

(** [{"groups": 5}] *)
Definition groups_is_number : string := "{" ++ q "groups" ++ ": 5}".

(** [[]] *)
Definition top_level_list : string := "[]".

(** [{"groups": ["x"]}] *)
Definition group_is_string : string :=
  "{" ++ q "groups" ++ ": [" ++ q "x" ++ "]}".

(** A condition entry whose comparator is no supported phrase:
    [{"property": "CUST_SEG", "comparator": "roughly", "value": "Premier"}]. *)
Definition roughly_entry : Py.dict :=
  [("property", Py.PyStr "CUST_SEG");
   ("comparator", Py.PyStr "roughly");
   ("value", Py.PyStr "Premier")].

(** A specification of one group holding that entry alone. *)
Definition roughly_spec : string :=
  "{" ++ q "groups" ++ ": [{" ++ q "conditions" ++ ": [{"
  ++ q "property" ++ ": " ++ q "CUST_SEG" ++ ", "
  ++ q "comparator" ++ ": " ++ q "roughly" ++ ", "
  ++ q "value" ++ ": " ++ q "Premier" ++ "}]}]}".

End Samples.

(** ** More string methods *)

Module PyText.
Import PyStr.

(** [s.count(c)] for a one-character [c]. *)
Fixpoint count_char (c : ascii) (s : string) : nat :=
  match s with
  | EmptyString => 0
  | String a rest =>
      if Ascii.eqb a c then S (count_char c rest) else count_char c rest
  end.

(** [c in s] for a one-character [c]. *)
Fixpoint has_char (c : ascii) (s : string) : bool :=
  match s with
  | EmptyString => false
  | String a rest => Ascii.eqb a c || has_char c rest
  end.

(** The characters below 256 that [str.strip] removes: the code points
    9 to 13, 28 to 32, 133 and 160. *)
Definition is_space (c : ascii) : bool :=
  let n := nat_of_ascii c in
  (Nat.leb 9 n && Nat.leb n 13) || (Nat.leb 28 n && Nat.leb n 32)
  || Nat.eqb n 133 || Nat.eqb n 160.

Fixpoint lstrip (s : string) : string :=
  match s with
  | EmptyString => EmptyString
  | String a rest => if is_space a then lstrip rest else s
  end.

Fixpoint rstrip (s : string) : string :=
  match s with
  | EmptyString => EmptyString
  | String a rest =>
      match rstrip rest with
      | EmptyString => if is_space a then EmptyString else String a EmptyString
      | kept => String a kept
      end
  end.

(** [s.strip()]. *)
Definition strip (s : string) : string := rstrip (lstrip s).

(** [s.endswith(suffix)]: some tail of [s] is [suffix]. *)
Fixpoint endswith (suffix s : string) : bool :=
  String.eqb s suffix
  || match s with
     | EmptyString => false
     | String _ rest => endswith suffix rest
     end.

(** The characters below 256 that [\w] matches in a [str] pattern:
    letters, digits and other alphanumerics, and the underscore. *)
Definition is_word_char (c : ascii) : bool :=
  let n := nat_of_ascii c in
  (Nat.leb 48 n && Nat.leb n 57) || (Nat.leb 65 n && Nat.leb n 90)
  || Nat.eqb n 95 || (Nat.leb 97 n && Nat.leb n 122)
  || Nat.eqb n 170 || Nat.eqb n 178 || Nat.eqb n 179 || Nat.eqb n 181
  || Nat.eqb n 185 || Nat.eqb n 186 || (Nat.leb 188 n && Nat.leb n 190)
  || (Nat.leb 192 n && Nat.leb n 214) || (Nat.leb 216 n && Nat.leb n 246)
  || (Nat.leb 248 n && Nat.leb n 255).

(** What is left after the longest run of word characters. *)
Fixpoint skip_word (s : string) : string :=
  match s with
  | EmptyString => EmptyString
  | String a rest => if is_word_char a then skip_word rest else s
  end.

(** The pattern [\w+\([^)]*\)] matched at the start of [s]: at least one
    word character, the whole run of them followed by an opening
    parenthesis, and a closing parenthesis anywhere after it. *)
Definition call_at (s : string) : bool :=
  match s with
  | String a _ =>
      is_word_char a
      && match skip_word s with
         | String p after => Ascii.eqb p "("%char && has_char ")"%char after
         | EmptyString => false
         end
  | EmptyString => false
  end.

(** [re.search(r'@\w+\([^)]*\)', s)] finds a match. *)
Fixpoint search_call (s : string) : bool :=
  match s with
  | EmptyString => false
  | String a rest => (Ascii.eqb a "@"%char && call_at rest) || search_call rest
  end.

(** The characters below 256 that [str.lower] changes: [A] to [Z] and
    the capital letters from 192 to 222 other than 215 move up by 32. *)
Definition lower_char (c : ascii) : ascii :=
  let n := nat_of_ascii c in
  if (Nat.leb 65 n && Nat.leb n 90)
     || (Nat.leb 192 n && Nat.leb n 222 && negb (Nat.eqb n 215))
  then ascii_of_nat (n + 32)
  else c.

(** [s.lower()]. *)
Fixpoint lower (s : string) : string :=
  match s with
  | EmptyString => EmptyString
  | String a rest => String (lower_char a) (lower rest)
  end.

End PyText.

(** ** The lint and the comparator list ([agent.py]) *)

Module AgentTools.
Import PyStr PyText Py Models.

(** [validate_when_rule]. *)
Definition validate_when_rule (expression : string) : value :=
  let errors : list string := [] in
  let errors :=
    if negb (Nat.eqb (count_char "("%char expression)
                     (count_char ")"%char expression))
    then append errors "Unbalanced parentheses in expression"
    else errors in
  let errors :=
    if negb (Nat.eqb (count_char "{"%char expression)
                     (count_char "}"%char expression))
    then append errors "Unbalanced braces in rule references"
    else errors in
  let errors :=
    if existsb (fun suffix => endswith suffix (strip expression))
         ["&&"; "||"; "AND"; "OR"]
    then append errors "Expression ends with a dangling logical operator"
    else errors in
  let errors :=
    if has_char "@"%char expression
    then
      if negb (search_call expression)
      then append errors "Invalid function syntax detected"
      else errors
    else errors in
  PyDict
    [("valid", PyBool (Nat.eqb (length errors) 0));
     ("expression", PyStr expression);
     ("errors",
      match errors with
      | [] => PyNone
      | _ => PyList (map PyStr errors)
      end)].

(** [c.name]. *)
Definition Comparator_name (c : Comparator) : string :=
  match c with
  | EQUALS => "EQUALS"
  | NOT_EQUALS => "NOT_EQUALS"
  | GREATER_THAN => "GREATER_THAN"
  | GREATER_THAN_OR_EQUAL => "GREATER_THAN_OR_EQUAL"
  | LESS_THAN => "LESS_THAN"
  | LESS_THAN_OR_EQUAL => "LESS_THAN_OR_EQUAL"
  | IS_TRUE => "IS_TRUE"
  | IS_FALSE => "IS_FALSE"
  | IS_BLANK => "IS_BLANK"
  | IS_NOT_BLANK => "IS_NOT_BLANK"
  | CONTAINS => "CONTAINS"
  | STARTS_WITH => "STARTS_WITH"
  | ENDS_WITH => "ENDS_WITH"
  | IS_IN => "IS_IN"
  | IS_NOT_IN => "IS_NOT_IN"
  end.

(** [list_comparators]. *)
Definition list_comparators : value :=
  PyDict
    [("comparators",
      PyList
        (map (fun c =>
                PyDict [("value", PyStr (Comparator_value c));
                        ("name", PyStr (Comparator_name c))])
           Comparator_members))].

End AgentTools.

(** ** The list of blocks inside [to_pega_xml] *)

Module ModelsXml.
Import PyStr Models.

(** The line put between two conditions of [group]. *)
Definition operator_line (group : ConditionGroup) : string :=
  "    <operator>" ++ op_symbol (operator group) ++ "</operator>".

(** The line put between two groups of [self]. *)
Definition group_operator_line (self : WhenRule) : string :=
  "    <groupOperator>" ++ op_symbol (group_operator self)
  ++ "</groupOperator>".

(** The list [conditions_xml] that the two loops of [to_pega_xml]
    build. *)
Definition conditions_xml (self : WhenRule) : list string :=
  let groups := condition_groups self in
  fold_left
    (fun acc '(group_idx, group) =>
       let acc :=
         fold_left
           (fun acc '(cond_idx, cond) =>
              let acc := append acc (condition_xml cond) in
              if Nat.ltb cond_idx (length (conditions group) - 1)
              then append acc (operator_line group)
              else acc)
           (enumerate (conditions group)) acc in
       if Nat.ltb group_idx (length groups - 1)
       then append acc (group_operator_line self)
       else acc)
    (enumerate groups) [].

(** [sep] put between the items of [l]. *)
Fixpoint intersperse {A : Type} (sep : A) (l : list A) : list A :=
  match l with
  | [] => []
  | [x] => [x]
  | x :: rest => x :: sep :: intersperse sep rest
  end.

(** The lists of [ls] one after the other, [sep] between two of them. *)
Fixpoint chain {A : Type} (sep : A) (ls : list (list A)) : list A :=
  match ls with
  | [] => []
  | [l] => l
  | l :: rest => (l ++ sep :: chain sep rest)%list
  end.

End ModelsXml.

(** ** The expression syntax module ([pega_syntax.py]) *)

Module PegaSyntax.
Import PyStr.

Inductive PegaFunction : Type :=
  | EQUALS_IGNORE_CASE
  | NOT_EQUALS_IGNORE_CASE
  | CONTAINS
  | STARTS_WITH
  | ENDS_WITH
  | TRIM
  | TO_UPPER
  | TO_LOWER
  | GREATER_THAN
  | GREATER_THAN_OR_EQUAL
  | LESS_THAN
  | LESS_THAN_OR_EQUAL
  | EQUALS
  | NOT_EQUALS
  | TO_DATE
  | DATE_TIME_DIFFERENCE
  | GET_CURRENT
  | IS_IN_PAGE_LIST_WHEN
  | UTILITIES_CALL_WHEN
  | IS_TRUE
  | IS_FALSE
  | IS_BLANK
  | IS_NOT_BLANK.

Definition PegaFunction_value (f : PegaFunction) : string :=
  match f with
  | EQUALS_IGNORE_CASE => "@equalsIgnoreCase"
  | NOT_EQUALS_IGNORE_CASE => "@notEqualsIgnoreCase"
  | CONTAINS => "@contains"
  | STARTS_WITH => "@startsWith"
  | ENDS_WITH => "@endsWith"
  | TRIM => "@trim"
  | TO_UPPER => "@toUpper"
  | TO_LOWER => "@toLower"
  | GREATER_THAN => "@greaterThan"
  | GREATER_THAN_OR_EQUAL => "@greaterThanOrEqual"
  | LESS_THAN => "@lessThan"
  | LESS_THAN_OR_EQUAL => "@lessThanOrEqual"
  | EQUALS => "@equals"
  | NOT_EQUALS => "@notEquals"
  | TO_DATE => "@toDate"
  | DATE_TIME_DIFFERENCE => "@DateTimeDifference"
  | GET_CURRENT => "@getCurrent"
  | IS_IN_PAGE_LIST_WHEN => "@IsInPageListWhen"
  | UTILITIES_CALL_WHEN => "@Utilities.callWhen"
  | IS_TRUE => "@isTrue"
  | IS_FALSE => "@isFalse"
  | IS_BLANK => "@isBlank"
  | IS_NOT_BLANK => "@isNotBlank"
  end.

Inductive LogicalOperator : Type :=
  | AND
  | OR.

Definition LogicalOperator_value (op : LogicalOperator) : string :=
  match op with
  | AND => "&&"
  | OR => "||"
  end.

Record RuleReference : Type := mkRuleReference {
  rule_name : string;
  evaluates_to : bool
}.

(** [RuleReference.to_expression]. *)
Definition RuleReference_to_expression (self : RuleReference) : string :=
  let eval_str := if evaluates_to self then "true" else "false" in
  "{Rule " ++ rule_name self ++ " evaluates to " ++ eval_str ++ "}".

Record FunctionCall : Type := mkFunctionCall {
  call_function : PegaFunction;
  arguments : list string
}.

(** [FunctionCall.to_expression]. *)
Definition FunctionCall_to_expression (self : FunctionCall) : string :=
  let args_str := join ", " (arguments self) in
  PegaFunction_value (call_function self) ++ "(" ++ args_str ++ ")".

Record Condition : Type := mkCondition {
  function : option PegaFunction;
  property_ref : option string;
  compare_value : option string;
  apply_trim : bool;
  simple_operator : option string;
  rule_reference : option RuleReference
}.

(** The field defaults of the dataclass. *)
Definition default_Condition : Condition :=
  {| function := None;
     property_ref := None;
     compare_value := None;
     apply_trim := false;
     simple_operator := None;
     rule_reference := None |}.

(** [func in (IS_TRUE, IS_FALSE, IS_BLANK, IS_NOT_BLANK)]. *)
Definition function_is_unary (f : PegaFunction) : bool :=
  match f with
  | IS_TRUE | IS_FALSE | IS_BLANK | IS_NOT_BLANK => true
  | _ => false
  end.

(** [Condition.to_expression]. *)
Definition Condition_to_expression (self : Condition) : string :=
  match rule_reference self with
  | Some reference => RuleReference_to_expression reference
  | None =>
      if truthy (simple_operator self)
      then "(" ++ format_opt (property_ref self) ++ " "
           ++ or_empty (simple_operator self) ++ " "
           ++ format_opt (compare_value self) ++ ")"
      else
        match function self with
        | Some func =>
            let prop :=
              if apply_trim self
              then Some ("@trim(" ++ format_opt (property_ref self) ++ ")")
              else property_ref self in
            if function_is_unary func
            then PegaFunction_value func ++ "(" ++ format_opt prop ++ ")"
            else
              let val :=
                match compare_value self with
                | Some v =>
                    if truthy (Some v) && negb (startswith dquote v)
                       && negb (isdigit v)
                    then Some (dquote ++ v ++ dquote)
                    else Some v
                | None => None
                end in
              PegaFunction_value func ++ "(" ++ format_opt prop ++ ", "
              ++ format_opt val ++ ")"
        | None => EmptyString
        end
  end.

Record ConditionGroup : Type := mkConditionGroup {
  conditions : list Condition;
  operator : LogicalOperator
}.

(** [ConditionGroup.to_expression]. *)
Definition ConditionGroup_to_expression (self : ConditionGroup) : string :=
  match conditions self with
  | [] => EmptyString
  | _ =>
      let exprs := map Condition_to_expression (conditions self) in
      let op := " " ++ LogicalOperator_value (operator self) ++ " " in
      match exprs with
      | [only] => only
      | _ => "(" ++ join op exprs ++ ")"
      end
  end.

(** [build_string_comparison]. *)
Definition build_string_comparison (property_ref value : string)
  (ignore_case apply_trim negate : bool) : Condition :=
  let func :=
    if ignore_case
    then (if negate then NOT_EQUALS_IGNORE_CASE else EQUALS_IGNORE_CASE)
    else (if negate then NOT_EQUALS else EQUALS) in
  {| function := Some func;
     property_ref := Some property_ref;
     compare_value := Some value;
     apply_trim := apply_trim;
     simple_operator := None;
     rule_reference := None |}.

(** [func_map] of [build_numeric_comparison]. *)
Definition numeric_func_map (operator : string) : option PegaFunction :=
  if String.eqb operator ">" then Some GREATER_THAN
  else if String.eqb operator ">=" then Some GREATER_THAN_OR_EQUAL
  else if String.eqb operator "<" then Some LESS_THAN
  else if String.eqb operator "<=" then Some LESS_THAN_OR_EQUAL
  else None.

(** [build_numeric_comparison]. *)
Definition build_numeric_comparison (property_ref value operator : string)
  : Condition :=
  match numeric_func_map operator with
  | Some func =>
      {| function := Some func;
         property_ref := Some property_ref;
         compare_value := Some value;
         apply_trim := false;
         simple_operator := None;
         rule_reference := None |}
  | None =>
      {| function := None;
         property_ref := Some property_ref;
         compare_value := Some value;
         apply_trim := false;
         simple_operator := Some operator;
         rule_reference := None |}
  end.

(** [build_rule_reference]. *)
Definition build_rule_reference (rule_name : string) (evaluates_to : bool)
  : Condition :=
  {| function := None;
     property_ref := None;
     compare_value := None;
     apply_trim := false;
     simple_operator := None;
     rule_reference :=
       Some {| rule_name := rule_name; evaluates_to := evaluates_to |} |}.

End PegaSyntax.

(** ** The data source suggestion ([hsbc_domain.py]) *)

Module HsbcDomain.
Import PyStr PyText Py.

Definition investment_keywords : list string :=
  ["bond"; "rpq"; "maturity"; "investment account"; "risk profile";
   "certificate"].

Definition eligibility_keywords : list string :=
  ["exclusion"; "eligibility"; "suppression"; "country code"; "kyc";
   "compliance"].

Definition account_keywords : list string :=
  ["account"; "balance"; "transaction"; "credit limit"; "utilization";
   "payment"].

Definition model_keywords : list string :=
  ["propensity"; "score"; "probability"; "likelihood"; "segment"; "cluster";
   "nba"; "churn"; "risk"].

Definition customer_keywords : list string :=
  ["customer"; "age"; "tenure"; "product"; "relationship"; "tier"; "segment";
   "digital"; "channel"].

(** [any(kw in hint_lower for kw in keywords)]. *)
Definition any_keyword (keywords : list string) (hint_lower : string) : bool :=
  existsb (fun kw => PyStr.contains kw hint_lower) keywords.

Definition suggestion (table reason class : string) : value :=
  PyDict [("table", PyStr table); ("reason", PyStr reason);
          ("class", PyStr class)].

(** The list [suggestions] that [suggest_data_source] builds. *)
Definition suggestions_for (property_hint : string) : list value :=
  let hint_lower := lower property_hint in
  let suggestions : list value := [] in
  let suggestions :=
    if any_keyword investment_keywords hint_lower
    then append suggestions
           (suggestion "INVESTMENT"
              "Property relates to investment/bond products" "Bond Products")
    else suggestions in
  let suggestions :=
    if any_keyword eligibility_keywords hint_lower
    then append suggestions
           (suggestion "ELIGIBILITY"
              "Property relates to customer eligibility/exclusions"
              "Customer Eligibility")
    else suggestions in
  let suggestions :=
    if any_keyword account_keywords hint_lower
    then append suggestions
           (suggestion "AAR" "Property relates to account-level data"
              "HSBC-Data-AAR")
    else suggestions in
  let suggestions :=
    if any_keyword model_keywords hint_lower
    then append suggestions
           (suggestion "MAR"
              "Property relates to model outputs or propensity scores"
              "HSBC-Data-MAR")
    else suggestions in
  let suggestions :=
    if any_keyword customer_keywords hint_lower
       || match suggestions with [] => true | _ => false end
    then append suggestions
           (suggestion "CAR" "Property relates to customer-level attributes"
              "HSBC-Data-CAR")
    else suggestions in
  suggestions.

(** [suggest_data_source]. *)
Definition suggest_data_source (property_hint : string) : value :=
  let suggestions := suggestions_for property_hint in
  PyDict
    [("query", PyStr property_hint);
     ("suggestions", PyList suggestions);
     ("recommendation",
      match suggestions with
      | first :: _ => first
      | [] => PyNone
      end)].

End HsbcDomain.

(** ** Specifications of the expected shape *)

Module Shape.
Import Py.

(** A field that is absent, [null] or a string. *)
Definition text_or_absent (o : option value) : bool :=
  match o with
  | None | Some PyNone | Some (PyStr _) => true
  | Some _ => false
  end.

(** A field that is absent or a boolean. *)
Definition flag_or_absent (o : option value) : bool :=
  match o with
  | None | Some (PyBool _) => true
  | Some _ => false
  end.

(** A condition entry: a map whose fields have the documented types. *)
Definition entry_ok (v : value) : bool :=
  match v with
  | PyDict d =>
      if dict_has "rule" d
      then text_or_absent (dict_get "rule" d)
           && flag_or_absent (dict_get "evaluates_to" d)
      else text_or_absent (dict_get "property" d)
           && text_or_absent (dict_get "value" d)
           && flag_or_absent (dict_get "apply_trim" d)
           && flag_or_absent (dict_get "is_property" d)
  | _ => false
  end.

(** The condition entries of a group, when [conditions] is absent or a
    list. *)
Definition group_entries (v : value) : option (list value) :=
  match v with
  | PyDict d =>
      match dict_get "conditions" d with
      | None => Some []
      | Some (PyList l) => Some l
      | Some _ => None
      end
  | _ => None
  end.

Definition group_ok (v : value) : bool :=
  match group_entries v with
  | Some l => forallb entry_ok l
  | None => false
  end.

(** The groups of a document, when [groups] is absent or a list. *)
Definition document_groups (v : value) : option (list value) :=
  match v with
  | PyDict d =>
      match dict_get "groups" d with
      | None => Some []
      | Some (PyList l) => Some l
      | Some _ => None
      end
  | _ => None
  end.

Definition document_ok (v : value) : bool :=
  match document_groups v with
  | Some l => forallb group_ok l
  | None => false
  end.

(** How many condition entries the document holds. *)
Definition entry_count (v : value) : nat :=
  match document_groups v with
  | Some l =>
      list_sum
        (map (fun g => match group_entries g with
                       | Some es => length es
                       | None => 0
                       end) l)
  | None => 0
  end.

End Shape.

(** ** Vocabulary for the lint results *)

Module Lint.
Import PyStr PyText Models.

(** A text made of white space only. *)
Fixpoint all_space (s : string) : bool :=
  match s with
  | EmptyString => true
  | String a rest => is_space a && all_space rest
  end.

(** The last character of a text. *)
Fixpoint last_char (s : string) : option ascii :=
  match s with
  | EmptyString => None
  | String a EmptyString => Some a
  | String _ rest => last_char rest
  end.

(** A text that is empty or ends with a closing parenthesis or brace. *)
Definition closes (s : string) : bool :=
  match last_char s with
  | None => true
  | Some c => Ascii.eqb c ")"%char || Ascii.eqb c "}"%char
  end.

(** A text that ends with a closing parenthesis or brace. *)
Definition ends_closed (s : string) : bool :=
  match last_char s with
  | None => false
  | Some c => Ascii.eqb c ")"%char || Ascii.eqb c "}"%char
  end.

(** A character other than the parentheses, the braces and the at
    sign. *)
Definition plain_char (c : ascii) : bool :=
  negb (Ascii.eqb c "("%char || Ascii.eqb c ")"%char || Ascii.eqb c "{"%char
        || Ascii.eqb c "}"%char || Ascii.eqb c "@"%char).

Fixpoint plain (s : string) : bool :=
  match s with
  | EmptyString => true
  | String a rest => plain_char a && plain rest
  end.

(** A condition without an explicit function whose property, value and
    rule name are plain texts. *)
Definition plain_condition (c : Condition) : bool :=
  match pega_function c with
  | None =>
      plain (or_empty (property_reference c))
      && plain (or_empty (compare_value c))
      && plain (or_empty (referenced_rule c))
  | Some _ => false
  end.

Definition plain_rule (r : WhenRule) : bool :=
  forallb (fun g => forallb plain_condition (conditions g))
    (condition_groups r).

(** What the lint asks of a text, its last check apart: as many opening
    as closing parentheses, as many opening as closing braces, and a
    function call wherever there is an at sign. *)
Definition balanced (s : string) : bool :=
  Nat.eqb (count_char "("%char s) (count_char ")"%char s)
  && Nat.eqb (count_char "{"%char s) (count_char "}"%char s)
  && (negb (has_char "@"%char s) || search_call s).

(** The reply of the lint to a text it accepts. *)
Definition accepted (expression : string) : Py.value :=
  Py.PyDict [("valid", Py.PyBool true);
             ("expression", Py.PyStr expression);
             ("errors", Py.PyNone)].

End Lint.

(** ** More samples *)

Module MoreSamples.
Import PyStr Models.

(** [{Rule IsHKID evaluates to false}]. *)
Definition not_hkid : Condition :=
  {| condition_type := RULE_REFERENCE;
     property_reference := None;
     comparator := None;
     pega_function := None;
     compare_value := None;
     apply_trim := true;
     compare_value_is_property := false;
     referenced_rule := Some "IsHKID";
     rule_evaluates_to := false |}.

(** What the tool builds from the entry [{"rule": null}]. *)
Definition nameless_reference : Condition :=
  {| condition_type := RULE_REFERENCE;
     property_reference := None;
     comparator := None;
     pega_function := None;
     compare_value := None;
     apply_trim := true;
     compare_value_is_property := false;
     referenced_rule := None;
     rule_evaluates_to := true |}.

(** A rule reference of the rule model. *)
Definition reference_condition (name : string) (evaluates_to : bool)
  : Condition :=
  {| condition_type := RULE_REFERENCE;
     property_reference := None;
     comparator := None;
     pega_function := None;
     compare_value := None;
     apply_trim := true;
     compare_value_is_property := false;
     referenced_rule := Some name;
     rule_evaluates_to := evaluates_to |}.

(** A property comparison of the rule model. *)
Definition comparison_condition (prop : string) (comp : Comparator)
  (val : string) (trim : bool) : Condition :=
  {| condition_type := PROPERTY_COMPARISON;
     property_reference := Some prop;
     comparator := Some comp;
     pega_function := None;
     compare_value := Some val;
     apply_trim := trim;
     compare_value_is_property := false;
     referenced_rule := None;
     rule_evaluates_to := true |}.

(** The document that [Samples.roughly_spec] decodes to. *)
Definition roughly_document : Py.value :=
  Py.PyDict
    [("groups",
      Py.PyList
        [Py.PyDict
           [("conditions", Py.PyList [Py.PyDict Samples.roughly_entry])]])].

(** A group whose operator is written in lower case. *)
Definition lower_case_and_group : Py.dict :=
  [("conditions", Py.PyList []); ("operator", Py.PyStr "and")].

(** A property comparison that names the function to call. *)
Definition function_condition (prop : string) (comp : Comparator)
  (func : PegaFunction) (val : string) : Condition :=
  {| condition_type := PROPERTY_COMPARISON;
     property_reference := Some prop;
     comparator := Some comp;
     pega_function := Some func;
     compare_value := Some val;
     apply_trim := true;
     compare_value_is_property := false;
     referenced_rule := None;
     rule_evaluates_to := true |}.

(** Membership in a list, with [@IsInPageListWhen] named as the function. *)
Definition membership_with_function : Condition :=
  function_condition "CUST_SEG" IS_IN F_IS_IN_PAGE_LIST "A,B".

(** [AGE_NUM > abc] with [@greaterThan] named as the function. *)
Definition age_above_text_by_function : Condition :=
  function_condition "AGE_NUM" GREATER_THAN F_GREATER_THAN "abc".

(** An equality with [@greaterThan] named as the function. *)
Definition segment_by_magnitude_function : Condition :=
  function_condition "CUST_SEG" EQUALS F_GREATER_THAN "Premier".

(** A magnitude comparator with [@contains] named as the function. *)
Definition age_by_contains : Condition :=
  function_condition "AGE_NUM" GREATER_THAN F_CONTAINS "abc".

(** A blank test, with no explicit function. *)
Definition segment_is_blank : Condition :=
  {| condition_type := PROPERTY_COMPARISON;
     property_reference := Some "CUST_SEG";
     comparator := Some IS_BLANK;
     pega_function := None;
     compare_value := None;
     apply_trim := true;
     compare_value_is_property := false;
     referenced_rule := None;
     rule_evaluates_to := true |}.

(** A blank test by [@isBlank] named as the function; the comparator is
    the default one of the tool. *)
Definition segment_is_blank_by_function : Condition :=
  function_condition "CUST_SEG" EQUALS F_IS_BLANK "x".

(** An equality with [apply_trim] unset. *)
Definition segment_untrimmed : Condition :=
  comparison_condition "CUST_SEG" EQUALS "Premier" false.

(** An AND group and an OR group, combined with AND. *)
Definition mixed_rule : WhenRule :=
  Samples.rule_of
    [ {| conditions := [Samples.age_above_text]; operator := AND |};
      {| conditions := [Samples.segment_is_premier; Samples.range_value];
         operator := OR |} ] AND.

End MoreSamples.

(** ** Specifications with plain texts *)

Module PlainShape.
Import Py Shape.

(** A field that, when it is a string, is a plain text. *)
Definition plain_text_field (o : option value) : bool :=
  match o with
  | Some (PyStr s) => Lint.plain s
  | _ => true
  end.

Definition entry_plain (v : value) : bool :=
  match v with
  | PyDict d =>
      plain_text_field (dict_get "property" d)
      && plain_text_field (dict_get "value" d)
      && plain_text_field (dict_get "rule" d)
  | _ => true
  end.

Definition group_plain (v : value) : bool :=
  match group_entries v with
  | Some l => forallb entry_plain l
  | None => true
  end.

Definition document_plain (v : value) : bool :=
  match document_groups v with
  | Some l => forallb group_plain l
  | None => true
  end.

End PlainShape.

(** * Properties *)

(** ** Lists and strings *)

Module ListFacts.

(** A loop that appends one item per element builds the mapped list. *)
Lemma fold_left_append_map {A B : Type} (f : A -> B) (l : list A)
  (init : list B) :
  fold_left (fun acc x => append acc (f x)) l init = (init ++ map f l)%list.
Proof.
  revert init.
  induction l as [| x l IH]; intros init; simpl.
  - now rewrite app_nil_r.
  - rewrite IH. unfold append. now rewrite <- app_assoc.
Qed.

(** Two nested appending loops build the concatenation of the mapped
    inner lists. *)
Lemma fold_left_nested_append {A B C : Type} (inner : A -> list B)
  (f : A -> B -> C) (l : list A) (init : list C) :
  fold_left
    (fun acc a => fold_left (fun acc b => append acc (f a b)) (inner a) acc)
    l init
  = (init ++ flat_map (fun a => map (f a) (inner a)) l)%list.
Proof.
  revert init.
  induction l as [| a l IH]; intros init; simpl.
  - now rewrite app_nil_r.
  - rewrite IH, fold_left_append_map. now rewrite <- app_assoc.
Qed.

End ListFacts.

Module StrFacts.
Import PyStr.

Lemma length_append (s t : string) :
  String.length (s ++ t) = String.length s + String.length t.
Proof.
  induction s as [| a s IH]; simpl; [reflexivity | now rewrite IH].
Qed.

Lemma append_assoc (s t u : string) : (s ++ t) ++ u = s ++ t ++ u.
Proof.
  induction s as [| a s IH]; simpl; [reflexivity | now rewrite IH].
Qed.

(** Joining one token gives the token. *)
Lemma join_singleton (sep x : string) : join sep [x] = x.
Proof. reflexivity. Qed.

(** Joining at least two tokens puts the separator after the first. *)
Lemma join_cons2 (sep x y : string) (rest : list string) :
  join sep (x :: y :: rest) = x ++ sep ++ join sep (y :: rest).
Proof. reflexivity. Qed.

(** Taking the only item when there is exactly one, and the join
    otherwise, is the join. *)
Lemma only_or_join (sep : string) (l : list string) :
  match l with
  | [only] => only
  | _ => join sep l
  end = join sep l.
Proof. destruct l as [| x [| y l]]; reflexivity. Qed.

End StrFacts.

(** ** The expression renderings *)

Module ExpressionFacts.
Import PyStr Models ListFacts StrFacts.

(** The condition tokens of a group, in order. *)
Lemma group_expression_tokens (b : bool) (g : ConditionGroup) :
  group_expression b g
  = match map (fun c => _condition_to_expr c b) (conditions g) with
    | [only] => only
    | tokens =>
        "(" ++ join (" " ++ op_symbol (operator g) ++ " ") tokens ++ ")"
    end.
Proof.
  unfold group_expression.
  rewrite fold_left_append_map, app_nil_l.
  destruct (map _ (conditions g)) as [| x [| y l]]; reflexivity.
Qed.

(** [to_expression] is the join of the group tokens. *)
Lemma to_expression_join (r : WhenRule) (b : bool) :
  to_expression r b
  = join (" " ++ op_symbol (group_operator r) ++ " ")
      (map (group_expression b) (condition_groups r)).
Proof.
  unfold to_expression.
  rewrite fold_left_append_map. simpl.
  apply only_or_join.
Qed.




(** C7.  A rule of one AND group with more than one condition renders, in
    the function dialect, as the condition tokens joined by [" && "]
    inside one parenthesis pair; and a group of exactly one condition
    renders as that condition's token, with nothing around it. *)
Theorem single_and_group_parenthesized (r : WhenRule) (g : ConditionGroup) :
  condition_groups r = [g] ->
  (operator g = AND ->
   1 < length (conditions g) ->
   to_expression r true
   = "(" ++ join " && " (map (fun c => _condition_to_expr c true)
                           (conditions g)) ++ ")")
  /\ (forall b c, conditions g = [c] ->
        group_expression b g = _condition_to_expr c b
        /\ to_expression r b = _condition_to_expr c b).
Proof.
  intros Hr. split.
  - intros Hop Hlen.
    rewrite to_expression_join, Hr. simpl.
    rewrite group_expression_tokens, Hop.
    destruct (conditions g) as [| c1 [| c2 cs]]; simpl in Hlen; try lia.
    reflexivity.
  - intros b c Hc.
    assert (Hg : group_expression b g = _condition_to_expr c b).
    { rewrite group_expression_tokens, Hc. reflexivity. }
    split; [exact Hg |].
    rewrite to_expression_join, Hr. simpl. exact Hg.
Qed.

Lemma single_and_group_parenthesized_witness :
  to_expression Samples.one_and_group true
  = "(@equalsIgnoreCase(@trim(CUST_SEG), " ++ dquote ++ "Premier" ++ dquote
    ++ ") && @equalsIgnoreCase(@trim(RANGE), 1-2))"
  /\ to_expression
       (Samples.rule_of
          [ {| conditions := [Samples.segment_is_premier];
               operator := AND |} ] AND) true
     = "@equalsIgnoreCase(@trim(CUST_SEG), " ++ dquote ++ "Premier" ++ dquote
       ++ ")".
Proof.
  split.
  - apply (proj1 (single_and_group_parenthesized Samples.one_and_group
                    {| conditions := [Samples.segment_is_premier;
                                      Samples.range_value];
                       operator := AND |} eq_refl)).
    + reflexivity.
    + simpl. lia.
  - exact (proj2 (proj2 (single_and_group_parenthesized
                           (Samples.rule_of
                              [ {| conditions := [Samples.segment_is_premier];
                                   operator := AND |} ] AND)
                           {| conditions := [Samples.segment_is_premier];
                              operator := AND |} eq_refl)
                    true Samples.segment_is_premier eq_refl)).
Defined.

(** C10.  A group with no condition renders as the token ["()"] in both
    dialects, and a rule whose only group has no condition renders as the
    two-character string ["()"]. *)
Theorem empty_group_token (g : ConditionGroup) (b : bool) :
  conditions g = [] ->
  group_expression b g = "()"
  /\ (forall r, condition_groups r = [g] ->
        to_expression r b = "()" /\ String.length (to_expression r b) = 2)
  /\ (forall r before after,
        condition_groups r = (before ++ g :: after)%list ->
        to_expression r b
        = join (" " ++ op_symbol (group_operator r) ++ " ")
            (map (group_expression b) before ++ "()"
               :: map (group_expression b) after)%list).
Proof.
  intros Hg.
  assert (Htok : group_expression b g = "()").
  { rewrite group_expression_tokens, Hg. reflexivity. }
  split; [exact Htok |]. split.
  - intros r Hr. rewrite to_expression_join, Hr. simpl.
    rewrite Htok. split; reflexivity.
  - intros r before after Hr.
    rewrite to_expression_join, Hr, map_app. simpl.
    now rewrite Htok.
Qed.

Lemma empty_group_token_witness :
  group_expression true {| conditions := []; operator := AND |} = "()"
  /\ to_expression Samples.one_empty_group true = "()"
  /\ to_expression Samples.one_empty_group false = "()".
Proof.
  split.
  - exact (proj1 (empty_group_token
                    {| conditions := []; operator := AND |} true eq_refl)).
  - split.
    + exact (proj1 (proj1 (proj2 (empty_group_token
                       {| conditions := []; operator := AND |} true eq_refl))
                     Samples.one_empty_group eq_refl)).
    + exact (proj1 (proj1 (proj2 (empty_group_token
                       {| conditions := []; operator := AND |} false eq_refl))
                     Samples.one_empty_group eq_refl)).
Defined.

End ExpressionFacts.

(** ** The rendering of one condition *)

Module ConditionFacts.
Import PyStr Models StrFacts.

(** Wrapping in quotes changes the value. *)
Lemma quoted_differs (v : string) : quoted v <> v.
Proof.
  intros H. apply (f_equal String.length) in H.
  unfold quoted in H. rewrite !length_append in H. simpl in H. lia.
Qed.

(** On a property comparison with no explicit function, the function
    dialect is [_build_function_expr_from_comparator]. *)
Lemma function_dialect_from_comparator (c : Condition) :
  condition_type c = PROPERTY_COMPARISON ->
  pega_function c = None ->
  _condition_to_expr c true = _build_function_expr_from_comparator c.
Proof.
  intros Ht Hf. unfold _condition_to_expr. now rewrite Ht, Hf.
Qed.

(** The simple dialect of a property comparison with a binary comparator
    and a value. *)
Lemma simple_dialect_binary (c : Condition) (comp : Comparator) (v : string) :
  condition_type c = PROPERTY_COMPARISON ->
  comparator c = Some comp ->
  comparator_is_unary comp = false ->
  compare_value c = Some v ->
  _condition_to_expr c false
  = or_empty (property_reference c) ++ " " ++ Comparator_value comp ++ " "
    ++ (if negb (compare_value_is_property c)
           && (negb (startswith dquote v) && negb (looks_numeric v))
        then quoted v else v).
Proof.
  intros Ht Hc Hu Hv. unfold _condition_to_expr.
  rewrite Ht, Hc, Hu, Hv. simpl.
  now destruct (negb (compare_value_is_property c)
                && (negb (startswith dquote v) && negb (looks_numeric v))).
Qed.

(** The function dialect built from a comparator that has a function and
    takes a value. *)
Lemma from_comparator_binary (c : Condition) (comp : Comparator)
  (f : PegaFunction) :
  comparator c = Some comp ->
  func_map_get (Some comp) = Some f ->
  comparator_is_unary comp = false ->
  let val := or_empty (compare_value c) in
  let magnitude := comparator_is_magnitude (Some comp) in
  _build_function_expr_from_comparator c
  = PegaFunction_value f ++ "("
    ++ (if apply_trim c && negb magnitude
        then "@trim(" ++ or_empty (property_reference c) ++ ")"
        else or_empty (property_reference c))
    ++ ", "
    ++ (if negb magnitude && negb (startswith dquote val)
        then if negb (looks_numeric val) then quoted val else val
        else val)
    ++ ")".
Proof.
  intros Hc Hf Hu val magnitude.
  unfold _build_function_expr_from_comparator. rewrite Hc, Hf.
  assert (Hfu : function_is_unary f = false).
  { destruct comp; simpl in Hf, Hu; inversion Hf; subst;
      solve [reflexivity | discriminate]. }
  now rewrite Hfu.
Qed.

(** The function dialect built from a unary comparator. *)
Lemma from_comparator_unary (c : Condition) (comp : Comparator) :
  comparator c = Some comp ->
  comparator_is_unary comp = true ->
  exists f,
    func_map_get (Some comp) = Some f
    /\ _build_function_expr_from_comparator c
       = PegaFunction_value f ++ "("
         ++ (if apply_trim c
             then "@trim(" ++ or_empty (property_reference c) ++ ")"
             else or_empty (property_reference c))
         ++ ")".
Proof.
  intros Hc Hu.
  unfold _build_function_expr_from_comparator. rewrite Hc.
  destruct comp; simpl in Hu; try discriminate; simpl;
    (eexists; split; [reflexivity |]);
    rewrite andb_true_r; reflexivity.
Qed.

(** [_build_function_expr], the path of an explicit function, leaves the
    value of a property reference as it is. *)
Lemma explicit_function_keeps_property_value (c : Condition)
  (func : PegaFunction) :
  compare_value_is_property c = true ->
  function_is_unary func = false ->
  exists prop_arg,
    _build_function_expr c func
    = PegaFunction_value func ++ "(" ++ prop_arg ++ ", "
      ++ or_empty (compare_value c) ++ ")".
Proof.
  intros Hp Hu. unfold _build_function_expr. rewrite Hp, Hu. simpl.
  eexists. reflexivity.
Qed.

(** The simple dialect leaves the value of a property reference as it
    is. *)
Lemma simple_dialect_keeps_property_value (c : Condition) (comp : Comparator)
  (v : string) :
  condition_type c = PROPERTY_COMPARISON ->
  comparator c = Some comp ->
  comparator_is_unary comp = false ->
  compare_value c = Some v ->
  compare_value_is_property c = true ->
  _condition_to_expr c false
  = or_empty (property_reference c) ++ " " ++ Comparator_value comp ++ " " ++ v.
Proof.
  intros Ht Hc Hu Hv Hp.
  rewrite (simple_dialect_binary c comp v Ht Hc Hu Hv), Hp. reflexivity.
Qed.

(** On a property comparison that names its function, the function
    dialect is [_build_function_expr]. *)
Lemma function_dialect_explicit (c : Condition) (func : PegaFunction) :
  condition_type c = PROPERTY_COMPARISON ->
  pega_function c = Some func ->
  _condition_to_expr c true = _build_function_expr c func.
Proof.
  intros Ht Hf. unfold _condition_to_expr. now rewrite Ht, Hf.
Qed.

(** The two tests of the quoting step, as one choice. *)
Lemma quoting_step (v : string) :
  (if negb (startswith dquote v)
   then if negb (looks_numeric v) then quoted v else v
   else v)
  = (if startswith dquote v || looks_numeric v then v else quoted v).
Proof. now destruct (startswith dquote v), (looks_numeric v). Qed.

(** [_build_function_expr] for a function that takes a value. *)
Lemma explicit_function_binary (c : Condition) (func : PegaFunction) :
  function_is_unary func = false ->
  let prop := or_empty (property_reference c) in
  let val := or_empty (compare_value c) in
  _build_function_expr c func
  = PegaFunction_value func ++ "("
    ++ (if apply_trim c && negb (function_is_magnitude func)
        then "@trim(" ++ prop ++ ")" else prop)
    ++ ", "
    ++ (if compare_value_is_property c then val
        else if startswith dquote val || looks_numeric val then val
             else quoted val)
    ++ ")".
Proof.
  intros Hu prop val. unfold _build_function_expr. rewrite Hu.
  fold prop val. cbv zeta.
  destruct (compare_value_is_property c); simpl negb; cbn [andb];
    [reflexivity |].
  now rewrite quoting_step.
Qed.

(** [_build_function_expr] for a function of the property alone. *)
Lemma explicit_function_unary (c : Condition) (func : PegaFunction) :
  function_is_unary func = true ->
  _build_function_expr c func
  = PegaFunction_value func ++ "("
    ++ (if apply_trim c
        then "@trim(" ++ or_empty (property_reference c) ++ ")"
        else or_empty (property_reference c))
    ++ ")".
Proof.
  intros Hu. unfold _build_function_expr. rewrite Hu.
  assert (Hm : function_is_magnitude func = false)
    by (destruct func; simpl in Hu; solve [reflexivity | discriminate]).
  rewrite Hm. simpl negb. now rewrite andb_true_r.
Qed.

(** The comparators outside the unary tuple are the ones
    [comparator_is_unary] refuses. *)
Lemma binary_comparator (comp : Comparator) :
  ~ In comp [IS_TRUE; IS_FALSE; IS_BLANK; IS_NOT_BLANK] ->
  comparator_is_unary comp = false.
Proof.
  intros H. destruct comp; try reflexivity; exfalso; apply H; simpl; tauto.
Qed.

(** The functions outside the unary tuple are the ones
    [function_is_unary] refuses. *)
Lemma binary_function (func : PegaFunction) :
  ~ In func [F_IS_TRUE; F_IS_FALSE; F_IS_BLANK; F_IS_NOT_BLANK] ->
  function_is_unary func = false.
Proof.
  intros H. destruct func; try reflexivity; exfalso; apply H; simpl; tauto.
Qed.

(** C3, as amended.  For a property comparison with a compare value [v],
    write [shown] for [v] itself when [v] starts with a double quote or
    when its remainder after removing every [.] and [-] passes
    [str.isdigit], and for [v] between double quotes otherwise, the two
    being different texts; [1-2] passes the test.
    - Simple dialect, comparator taking a value: the value is rendered as
      [v] when it is flagged as a property reference and as [shown]
      otherwise, with or without an explicit function.
    - Function dialect, explicit function taking a value: the second
      argument is [v] when it is flagged as a property reference and
      [shown] otherwise, whatever the comparator is.
    - Function dialect, no explicit function, comparator [EQUALS],
      [NOT_EQUALS], [CONTAINS], [STARTS_WITH] or [ENDS_WITH], value not
      flagged as a property reference: the second argument is [shown].
    - Function dialect, no explicit function, one of the four magnitude
      comparators: the second argument is [v], never quoted.
    - Function dialect, no explicit function, [IS_IN] or [IS_NOT_IN]: the
      fallback shows [v], never quoted. *)
Theorem value_quoting_by_path (c : Condition) (v : string) :
  condition_type c = PROPERTY_COMPARISON ->
  compare_value c = Some v ->
  let prop := or_empty (property_reference c) in
  let trimmed := if apply_trim c then "@trim(" ++ prop ++ ")" else prop in
  let shown :=
    if startswith dquote v || looks_numeric v then v else quoted v in
  let shown_or_reference := if compare_value_is_property c then v else shown in
  quoted v <> v
  /\ looks_numeric "1-2" = true
  /\ (forall comp,
        comparator c = Some comp ->
        ~ In comp [IS_TRUE; IS_FALSE; IS_BLANK; IS_NOT_BLANK] ->
        _condition_to_expr c false
        = prop ++ " " ++ Comparator_value comp ++ " " ++ shown_or_reference)
  /\ (forall func,
        pega_function c = Some func ->
        ~ In func [F_IS_TRUE; F_IS_FALSE; F_IS_BLANK; F_IS_NOT_BLANK] ->
        _condition_to_expr c true
        = PegaFunction_value func ++ "("
          ++ (if apply_trim c && negb (function_is_magnitude func)
              then "@trim(" ++ prop ++ ")" else prop)
          ++ ", " ++ shown_or_reference ++ ")")
  /\ (forall comp name,
        pega_function c = None ->
        compare_value_is_property c = false ->
        comparator c = Some comp ->
        In (comp, name)
          [(EQUALS, "@equalsIgnoreCase");
           (NOT_EQUALS, "@notEqualsIgnoreCase");
           (CONTAINS, "@contains");
           (STARTS_WITH, "@startsWith");
           (ENDS_WITH, "@endsWith")] ->
        _condition_to_expr c true
        = name ++ "(" ++ trimmed ++ ", " ++ shown ++ ")")
  /\ (forall comp name,
        pega_function c = None ->
        comparator c = Some comp ->
        In (comp, name)
          [(GREATER_THAN, "@greaterThan");
           (GREATER_THAN_OR_EQUAL, "@greaterThanOrEqual");
           (LESS_THAN, "@lessThan");
           (LESS_THAN_OR_EQUAL, "@lessThanOrEqual")] ->
        _condition_to_expr c true = name ++ "(" ++ prop ++ ", " ++ v ++ ")")
  /\ (pega_function c = None ->
      comparator c = Some IS_IN \/ comparator c = Some IS_NOT_IN ->
      _condition_to_expr c true = "(" ++ prop ++ " == " ++ v ++ ")").
Proof.
  intros Ht Hv prop trimmed shown shown_or_reference.
  split; [apply quoted_differs |].
  split; [reflexivity |].
  split.
  { intros comp Hc Hu. apply binary_comparator in Hu.
    rewrite (simple_dialect_binary c comp v Ht Hc Hu Hv).
    subst shown_or_reference shown.
    destruct (compare_value_is_property c); [reflexivity |].
    simpl. now destruct (startswith dquote v), (looks_numeric v). }
  split.
  { intros func Hf Hu. apply binary_function in Hu.
    rewrite (function_dialect_explicit c func Ht Hf).
    rewrite (explicit_function_binary c func Hu), Hv. reflexivity. }
  split; [| split].
  - intros comp name Hf Hp Hc Hin.
    rewrite (function_dialect_from_comparator c Ht Hf).
    simpl in Hin.
    decompose [or] Hin; clear Hin;
      match goal with
      | H : False |- _ => destruct H
      | H : (_, _) = (_, _) |- _ => inversion H; subst comp name; clear H
      end;
      rewrite (from_comparator_binary c _ _ Hc eq_refl eq_refl), Hv;
      simpl negb; cbn [andb or_empty]; rewrite andb_true_r, quoting_step;
      reflexivity.
  - intros comp name Hf Hc Hin.
    rewrite (function_dialect_from_comparator c Ht Hf).
    simpl in Hin.
    decompose [or] Hin; clear Hin;
      match goal with
      | H : False |- _ => destruct H
      | H : (_, _) = (_, _) |- _ => inversion H; subst comp name; clear H
      end;
      rewrite (from_comparator_binary c _ _ Hc eq_refl eq_refl), Hv;
      simpl negb; cbn [andb or_empty]; rewrite andb_false_r;
      reflexivity.
  - intros Hf Hc.
    rewrite (function_dialect_from_comparator c Ht Hf).
    unfold _build_function_expr_from_comparator.
    destruct Hc as [Hc | Hc]; now rewrite Hc, Hv.
Qed.

(** The value [1-2] is shown bare in both dialects; a name of a property
    is shown bare in the simple dialect; and an explicit [@greaterThan]
    quotes the value [abc]. *)
Lemma value_quoting_by_path_witness :
  _condition_to_expr Samples.range_value false = "RANGE is equal to 1-2"
  /\ _condition_to_expr Samples.range_value true
     = "@equalsIgnoreCase(@trim(RANGE), 1-2)"
  /\ _condition_to_expr Samples.same_as_other false
     = "HOME_CTRY is equal to WORK_CTRY"
  /\ _condition_to_expr MoreSamples.age_above_text_by_function true
     = "@greaterThan(AGE_NUM, " ++ dquote ++ "abc" ++ dquote ++ ")"
  /\ _condition_to_expr Samples.age_above_text true
     = "@greaterThan(AGE_NUM, abc)"
  /\ _condition_to_expr Samples.segment_in_list true = "(CUST_SEG == A,B)".
Proof.
  assert (Hc : ~ In EQUALS [IS_TRUE; IS_FALSE; IS_BLANK; IS_NOT_BLANK])
    by (simpl; intuition discriminate).
  assert (Hf : ~ In F_GREATER_THAN
                 [F_IS_TRUE; F_IS_FALSE; F_IS_BLANK; F_IS_NOT_BLANK])
    by (simpl; intuition discriminate).
  pose proof (value_quoting_by_path Samples.range_value "1-2"
                eq_refl eq_refl) as [_ [_ [H1 [_ [H2 _]]]]].
  pose proof (value_quoting_by_path Samples.same_as_other "WORK_CTRY"
                eq_refl eq_refl) as [_ [_ [H3 _]]].
  pose proof (value_quoting_by_path MoreSamples.age_above_text_by_function
                "abc" eq_refl eq_refl) as [_ [_ [_ [H4 _]]]].
  pose proof (value_quoting_by_path Samples.age_above_text "abc"
                eq_refl eq_refl) as [_ [_ [_ [_ [_ [H5 _]]]]]].
  pose proof (value_quoting_by_path Samples.segment_in_list "A,B"
                eq_refl eq_refl) as [_ [_ [_ [_ [_ [_ H6]]]]]].
  split; [exact (H1 EQUALS eq_refl Hc) |].
  split; [exact (H2 EQUALS "@equalsIgnoreCase" eq_refl eq_refl eq_refl
                   (or_introl eq_refl)) |].
  split; [exact (H3 EQUALS eq_refl Hc) |].
  split; [exact (H4 F_GREATER_THAN eq_refl Hf) |].
  split; [exact (H5 GREATER_THAN "@greaterThan" eq_refl eq_refl
                   (or_introl eq_refl)) |].
  exact (H6 eq_refl (or_introl eq_refl)).
Defined.

(** C3, the claim as stated fails: with a magnitude comparator the
    function dialect leaves the value [abc] bare, although it is no
    number, starts with no quote and names no property, so that the
    stated rule wraps it. *)
Lemma magnitude_value_not_quoted :
  _condition_to_expr Samples.age_above_text true = "@greaterThan(AGE_NUM, abc)"
  /\ compare_value_is_property Samples.age_above_text = false
  /\ Spec.value_token false "abc" = dquote ++ "abc" ++ dquote
  /\ _condition_to_expr Samples.age_above_text true
     <> "@greaterThan(AGE_NUM, " ++ Spec.value_token false "abc" ++ ")".
Proof.
  repeat split; try reflexivity.
  vm_compute. discriminate.
Qed.

(** C5, the code at the failing input: a comparison of two properties,
    with no explicit function, renders in the function dialect with the
    name of the second property between double quotes. *)
Theorem property_value_quoted_from_comparator :
  compare_value_is_property Samples.same_as_other = true
  /\ _condition_to_expr Samples.same_as_other true
     = "@equalsIgnoreCase(@trim(HOME_CTRY), " ++ dquote ++ "WORK_CTRY"
       ++ dquote ++ ")"
  /\ _condition_to_expr Samples.same_as_other false
     = "HOME_CTRY is equal to WORK_CTRY".
Proof. repeat split. Qed.

(** Wrapping in [@trim(...)] changes the text. *)
Lemma trim_call_differs (p : string) : "@trim(" ++ p ++ ")" <> p.
Proof.
  intros H. apply (f_equal String.length) in H.
  rewrite !length_append in H. simpl in H. lia.
Qed.

(** C6, as amended.  For a property comparison rendered in the function
    dialect, with [trimmed] standing for [@trim(<property>)] when
    [apply_trim] is set and for the bare property otherwise, the two being
    different texts:
    - no explicit function, comparator [IS_TRUE], [IS_FALSE], [IS_BLANK]
      or [IS_NOT_BLANK]: the one argument is [trimmed];
    - no explicit function, comparator [EQUALS], [NOT_EQUALS], [CONTAINS],
      [STARTS_WITH] or [ENDS_WITH]: the first argument is [trimmed];
    - no explicit function, one of the four magnitude comparators: the
      first argument is the bare property, whatever [apply_trim] says;
    - no explicit function, comparator [IS_IN], [IS_NOT_IN] or none: the
      fallback [(<property> == <value>)], with no [@trim];
    - explicit function, whatever the comparator: the first argument is
      the bare property when the function is one of [@greaterThan],
      [@lessThan], [@greaterThanOrEqual], [@lessThanOrEqual], and
      [trimmed] for any other function. *)
Theorem trim_wrapping_by_comparator (c : Condition) :
  condition_type c = PROPERTY_COMPARISON ->
  let prop := or_empty (property_reference c) in
  let val := or_empty (compare_value c) in
  let trimmed := if apply_trim c then "@trim(" ++ prop ++ ")" else prop in
  let shown :=
    if startswith dquote val || looks_numeric val then val else quoted val in
  let shown_or_reference :=
    if compare_value_is_property c then val else shown in
  "@trim(" ++ prop ++ ")" <> prop
  /\ (forall comp name,
        pega_function c = None ->
        comparator c = Some comp ->
        (In (comp, name)
           [(IS_TRUE, "@isTrue"); (IS_FALSE, "@isFalse");
            (IS_BLANK, "@isBlank"); (IS_NOT_BLANK, "@isNotBlank")] ->
         _condition_to_expr c true = name ++ "(" ++ trimmed ++ ")")
        /\ (In (comp, name)
              [(EQUALS, "@equalsIgnoreCase");
               (NOT_EQUALS, "@notEqualsIgnoreCase");
               (CONTAINS, "@contains");
               (STARTS_WITH, "@startsWith");
               (ENDS_WITH, "@endsWith")] ->
            _condition_to_expr c true
            = name ++ "(" ++ trimmed ++ ", " ++ shown ++ ")")
        /\ (In (comp, name)
              [(GREATER_THAN, "@greaterThan");
               (GREATER_THAN_OR_EQUAL, "@greaterThanOrEqual");
               (LESS_THAN, "@lessThan");
               (LESS_THAN_OR_EQUAL, "@lessThanOrEqual")] ->
            _condition_to_expr c true
            = name ++ "(" ++ prop ++ ", " ++ val ++ ")"))
  /\ (pega_function c = None ->
      comparator c = Some IS_IN \/ comparator c = Some IS_NOT_IN
      \/ comparator c = None ->
      _condition_to_expr c true = "(" ++ prop ++ " == " ++ val ++ ")")
  /\ (forall func,
        pega_function c = Some func ->
        (In func [F_GREATER_THAN; F_LESS_THAN; F_GREATER_THAN_OR_EQUAL;
                  F_LESS_THAN_OR_EQUAL] ->
         _condition_to_expr c true
         = PegaFunction_value func ++ "(" ++ prop ++ ", "
           ++ shown_or_reference ++ ")")
        /\ (In func [F_IS_TRUE; F_IS_FALSE; F_IS_BLANK; F_IS_NOT_BLANK] ->
            _condition_to_expr c true
            = PegaFunction_value func ++ "(" ++ trimmed ++ ")")
        /\ (In func [F_EQUALS_IGNORE_CASE; F_NOT_EQUALS_IGNORE_CASE;
                     F_CONTAINS; F_STARTS_WITH; F_ENDS_WITH; F_TRIM;
                     F_CALL_WHEN; F_IS_IN_PAGE_LIST] ->
            _condition_to_expr c true
            = PegaFunction_value func ++ "(" ++ trimmed ++ ", "
              ++ shown_or_reference ++ ")")).
Proof.
  intros Ht prop val trimmed shown shown_or_reference.
  split; [apply trim_call_differs |].
  split; [| split].
  - intros comp name Hf Hc.
    rewrite (function_dialect_from_comparator c Ht Hf).
    split; [| split]; intros Hin; simpl in Hin;
      decompose [or] Hin; clear Hin;
      match goal with
      | H : False |- _ => destruct H
      | H : (_, _) = (_, _) |- _ => inversion H; subst comp name; clear H
      end.
    1-4: destruct (from_comparator_unary c _ Hc eq_refl) as [f [Hm E]];
         inversion Hm; subst f; exact E.
    1-5: rewrite (from_comparator_binary c _ _ Hc eq_refl eq_refl);
         simpl negb; cbn [andb]; rewrite andb_true_r, quoting_step;
         reflexivity.
    1-4: rewrite (from_comparator_binary c _ _ Hc eq_refl eq_refl);
         simpl negb; cbn [andb]; rewrite andb_false_r; reflexivity.
  - intros Hf Hc.
    rewrite (function_dialect_from_comparator c Ht Hf).
    unfold _build_function_expr_from_comparator.
    destruct Hc as [Hc | [Hc | Hc]]; now rewrite Hc.
  - intros func Hf.
    rewrite (function_dialect_explicit c func Ht Hf).
    split; [| split]; intros Hin; simpl in Hin;
      decompose [or] Hin; clear Hin;
      match goal with
      | H : False |- _ => destruct H
      | H : _ = func |- _ => subst func
      end.
    1-4: match goal with
         | |- _build_function_expr ?x ?f = _ =>
             rewrite (explicit_function_binary x f eq_refl)
         end;
         simpl negb; rewrite andb_false_r; reflexivity.
    1-4: match goal with
         | |- _build_function_expr ?x ?f = _ =>
             exact (explicit_function_unary x f eq_refl)
         end.
    1-8: match goal with
         | |- _build_function_expr ?x ?f = _ =>
             rewrite (explicit_function_binary x f eq_refl)
         end;
         simpl negb; rewrite andb_true_r; reflexivity.
Qed.

(** An equality is trimmed and a magnitude comparison is not; the
    membership fallback has no [@trim]; with an explicit function the
    function decides: [@greaterThan] on an equality is not trimmed,
    [@contains] on a magnitude comparator is; a blank test is trimmed,
    from the comparator and from the function; and with [apply_trim]
    unset the property of an equality stays bare. *)
Lemma trim_wrapping_by_comparator_witness :
  _condition_to_expr Samples.segment_is_premier true
  = "@equalsIgnoreCase(@trim(CUST_SEG), " ++ dquote ++ "Premier" ++ dquote
    ++ ")"
  /\ _condition_to_expr Samples.age_above_text true
     = "@greaterThan(AGE_NUM, abc)"
  /\ _condition_to_expr Samples.segment_in_list true = "(CUST_SEG == A,B)"
  /\ _condition_to_expr MoreSamples.segment_by_magnitude_function true
     = "@greaterThan(CUST_SEG, " ++ dquote ++ "Premier" ++ dquote ++ ")"
  /\ _condition_to_expr MoreSamples.age_by_contains true
     = "@contains(@trim(AGE_NUM), " ++ dquote ++ "abc" ++ dquote ++ ")"
  /\ _condition_to_expr MoreSamples.segment_is_blank true
     = "@isBlank(@trim(CUST_SEG))"
  /\ _condition_to_expr MoreSamples.segment_is_blank_by_function true
     = "@isBlank(@trim(CUST_SEG))"
  /\ _condition_to_expr MoreSamples.segment_untrimmed true
     = "@equalsIgnoreCase(CUST_SEG, " ++ dquote ++ "Premier" ++ dquote ++ ")".
Proof.
  pose proof (trim_wrapping_by_comparator Samples.segment_is_premier eq_refl)
    as [_ [H1 _]].
  pose proof (trim_wrapping_by_comparator Samples.age_above_text eq_refl)
    as [_ [H2 _]].
  pose proof (trim_wrapping_by_comparator Samples.segment_in_list eq_refl)
    as [_ [_ [H3 _]]].
  pose proof (trim_wrapping_by_comparator
                MoreSamples.segment_by_magnitude_function eq_refl)
    as [_ [_ [_ H4]]].
  pose proof (trim_wrapping_by_comparator MoreSamples.age_by_contains eq_refl)
    as [_ [_ [_ H5]]].
  pose proof (trim_wrapping_by_comparator MoreSamples.segment_is_blank eq_refl)
    as [_ [H6 _]].
  pose proof (trim_wrapping_by_comparator
                MoreSamples.segment_is_blank_by_function eq_refl)
    as [_ [_ [_ H7]]].
  pose proof (trim_wrapping_by_comparator MoreSamples.segment_untrimmed eq_refl)
    as [_ [H8 _]].
  split; [exact (proj1 (proj2 (H1 EQUALS "@equalsIgnoreCase" eq_refl eq_refl))
                   (or_introl eq_refl)) |].
  split; [exact (proj2 (proj2 (H2 GREATER_THAN "@greaterThan" eq_refl eq_refl))
                   (or_introl eq_refl)) |].
  split; [exact (H3 eq_refl (or_introl eq_refl)) |].
  split; [exact (proj1 (H4 F_GREATER_THAN eq_refl) (or_introl eq_refl)) |].
  split; [exact (proj2 (proj2 (H5 F_CONTAINS eq_refl))
                   (or_intror (or_intror (or_introl eq_refl)))) |].
  split; [exact (proj1 (H6 IS_BLANK "@isBlank" eq_refl eq_refl)
                   (or_intror (or_intror (or_introl eq_refl)))) |].
  split; [exact (proj1 (proj2 (H7 F_IS_BLANK eq_refl))
                   (or_intror (or_intror (or_introl eq_refl)))) |].
  exact (proj1 (proj2 (H8 EQUALS "@equalsIgnoreCase" eq_refl eq_refl))
           (or_introl eq_refl)).
Defined.

(** C6, the claim as stated fails: [IS_IN] is none of the four magnitude
    comparators and [apply_trim] is set, yet the rendering holds no
    [@trim] call. *)
Lemma membership_not_trimmed :
  apply_trim Samples.segment_in_list = true
  /\ comparator_is_magnitude (comparator Samples.segment_in_list) = false
  /\ _condition_to_expr Samples.segment_in_list true = "(CUST_SEG == A,B)"
  /\ contains "@trim(" (_condition_to_expr Samples.segment_in_list true)
     = false.
Proof. repeat split. Qed.

(** C9, as amended.  A property comparison with no explicit function whose
    comparator is [IS_IN] or [IS_NOT_IN] renders in the function dialect as
    [(<property> == <value>)], property and value as they are. *)
Theorem membership_comparators_fall_back (c : Condition) :
  condition_type c = PROPERTY_COMPARISON ->
  pega_function c = None ->
  comparator c = Some IS_IN \/ comparator c = Some IS_NOT_IN ->
  _condition_to_expr c true
  = "(" ++ or_empty (property_reference c) ++ " == "
    ++ or_empty (compare_value c) ++ ")".
Proof.
  intros Ht Hf Hc.
  rewrite (function_dialect_from_comparator c Ht Hf).
  unfold _build_function_expr_from_comparator.
  destruct Hc as [Hc | Hc]; now rewrite Hc.
Qed.

Lemma membership_comparators_fall_back_witness :
  _condition_to_expr Samples.segment_in_list true = "(CUST_SEG == A,B)".
Proof.
  exact (membership_comparators_fall_back Samples.segment_in_list
           eq_refl eq_refl (or_introl eq_refl)).
Defined.

(** C9, the claim as stated fails: a property comparison whose comparator
    is [IS_IN] and that names [@IsInPageListWhen] as its function renders
    in the function dialect as a call of that function, with the property
    trimmed and the value quoted, and not as the fallback. *)
Lemma membership_with_function_calls_function :
  condition_type MoreSamples.membership_with_function = PROPERTY_COMPARISON
  /\ comparator MoreSamples.membership_with_function = Some IS_IN
  /\ _condition_to_expr MoreSamples.membership_with_function true
     = "@IsInPageListWhen(@trim(CUST_SEG), " ++ dquote ++ "A,B" ++ dquote
       ++ ")"
  /\ _condition_to_expr MoreSamples.membership_with_function true
     <> "(CUST_SEG == A,B)".
Proof.
  repeat split; try reflexivity.
  vm_compute. discriminate.
Qed.

End ConditionFacts.

(** ** The dictionary rendering *)

Module DictFacts.
Import PyStr Py Models ListFacts.

Lemma conditions_list_flat_map (r : WhenRule) :
  conditions_list r
  = flat_map (fun g => map (condition_record g) (conditions g))
      (condition_groups r).
Proof.
  unfold conditions_list.
  now rewrite (fold_left_nested_append conditions condition_record).
Qed.

Lemma length_flat_map_conditions {A B : Type} (inner : A -> list B)
  (l : list A) :
  length (flat_map inner l) = list_sum (map (fun a => length (inner a)) l).
Proof.
  induction l as [| a l IH]; simpl; [reflexivity |].
  now rewrite length_app, IH.
Qed.

(** The record at a position of a flattened list of lists. *)
Lemma nth_error_flat_map_at {A B : Type} (inner : A -> list B)
  (before after : list A) (a : A) (front back : list B) (b : B) :
  inner a = (front ++ b :: back)%list ->
  nth_error (flat_map inner (before ++ a :: after)%list)
    (list_sum (map (fun x => length (inner x)) before) + length front)
  = Some b.
Proof.
  intros Ha.
  rewrite flat_map_app. simpl. rewrite Ha.
  rewrite nth_error_app2; rewrite length_flat_map_conditions; [| lia].
  replace (list_sum (map (fun x => length (inner x)) before) + length front
           - list_sum (map (fun x => length (inner x)) before))
    with (length front) by lia.
  rewrite <- app_assoc.
  rewrite nth_error_app2 by lia.
  now rewrite Nat.sub_diag.
Qed.

(** The [pyLogicalOperator] of a record, with the symbol written out. *)
Lemma record_operator (g : ConditionGroup) (c : Condition) :
  item (condition_record g c) "pyLogicalOperator"
  = Some (PyStr match operator g with
                | AND => "&&"
                | OR => "||"
                end).
Proof.
  unfold condition_record.
  destruct (is_rule_reference (condition_type c)), (operator g); reflexivity.
Qed.

(** C4.  The [pyConditions] of [to_dict] hold, group after group, one
    record for each condition of the group, and their number is the number
    of conditions of the rule.  The record of the condition that stands at
    position [j] of the group at position [i] is the record at position
    [n + j], with [n] the number of conditions of the groups before; its
    [pyLogicalOperator] is ["&&"] when the operator of that group is [AND]
    and ["||"] when it is [OR]; and when the operator of the group is not
    the rule-level [group_operator], the field is not the symbol of the
    rule-level operator. *)
Theorem to_dict_one_record_per_condition (r : WhenRule) :
  item (to_dict r) "pyConditions"
  = Some (PyList (flat_map (fun g => map (condition_record g) (conditions g))
                    (condition_groups r)))
  /\ length (conditions_list r)
     = list_sum (map (fun g => length (conditions g)) (condition_groups r))
  /\ (forall before g after front c back,
        condition_groups r = (before ++ g :: after)%list ->
        conditions g = (front ++ c :: back)%list ->
        let symbol_of op := match op with AND => "&&" | OR => "||" end in
        exists record,
          nth_error (conditions_list r)
            (list_sum (map (fun g' => length (conditions g')) before)
             + length front)
          = Some record
          /\ record = condition_record g c
          /\ item record "pyLogicalOperator"
             = Some (PyStr (symbol_of (operator g)))
          /\ (operator g <> group_operator r ->
              item record "pyLogicalOperator"
              <> Some (PyStr (symbol_of (group_operator r)))))
  /\ (forall g c,
        item (condition_record g c) "pyLogicalOperator"
        = Some (PyStr (op_symbol (operator g)))).
Proof.
  split; [| split; [| split]].
  - simpl. now rewrite conditions_list_flat_map.
  - rewrite conditions_list_flat_map, length_flat_map_conditions.
    f_equal. apply map_ext. intros g. apply length_map.
  - intros before g after front c back Hr Hg symbol_of.
    exists (condition_record g c).
    split; [| split; [reflexivity | split]].
    + rewrite conditions_list_flat_map, Hr.
      replace (list_sum (map (fun g' => length (conditions g')) before)
               + length front)
        with (list_sum
                (map (fun g' => length (map (condition_record g')
                                         (conditions g'))) before)
              + length (map (condition_record g) front)).
      * apply (nth_error_flat_map_at
                 (fun g' => map (condition_record g') (conditions g'))
                 before after g
                 (map (condition_record g) front)
                 (map (condition_record g) back)).
        now rewrite Hg, map_app.
      * rewrite length_map. f_equal. f_equal. apply map_ext.
        intros g'. apply length_map.
    + apply record_operator.
    + intros Hne. rewrite record_operator. subst symbol_of.
      destruct (operator g), (group_operator r);
        solve [congruence | discriminate].
  - intros g c. unfold condition_record.
    destruct (is_rule_reference (condition_type c)); reflexivity.
Qed.

(** An AND group of one condition and an OR group of two, combined with
    AND: three records, the first with ["&&"] and the two of the OR group
    with ["||"], which is not the symbol of the rule-level operator. *)
Lemma to_dict_one_record_per_condition_witness :
  item (to_dict MoreSamples.mixed_rule) "pyConditions"
  = Some (PyList
            [PyDict [("pyConditionType", PyStr "property");
                     ("pyPropertyRef", PyStr "AGE_NUM");
                     ("pyComparator", PyStr "is greater than");
                     ("pyCompareValue", PyStr "abc");
                     ("pyCompareValueIsProperty", PyBool false);
                     ("pyLogicalOperator", PyStr "&&")];
             PyDict [("pyConditionType", PyStr "property");
                     ("pyPropertyRef", PyStr "CUST_SEG");
                     ("pyComparator", PyStr "is equal to");
                     ("pyCompareValue", PyStr "Premier");
                     ("pyCompareValueIsProperty", PyBool false);
                     ("pyLogicalOperator", PyStr "||")];
             PyDict [("pyConditionType", PyStr "property");
                     ("pyPropertyRef", PyStr "RANGE");
                     ("pyComparator", PyStr "is equal to");
                     ("pyCompareValue", PyStr "1-2");
                     ("pyCompareValueIsProperty", PyBool false);
                     ("pyLogicalOperator", PyStr "||")]])
  /\ length (conditions_list MoreSamples.mixed_rule) = 3
  /\ group_operator MoreSamples.mixed_rule = AND
  /\ exists record,
       nth_error (conditions_list MoreSamples.mixed_rule) 2 = Some record
       /\ item record "pyPropertyRef" = Some (PyStr "RANGE")
       /\ item record "pyLogicalOperator" = Some (PyStr "||")
       /\ item record "pyLogicalOperator" <> Some (PyStr "&&").
Proof.
  pose proof (to_dict_one_record_per_condition MoreSamples.mixed_rule)
    as [H1 [H2 [H3 _]]].
  split; [exact H1 |].
  split; [exact H2 |].
  split; [reflexivity |].
  destruct (H3 [ {| conditions := [Samples.age_above_text];
                    operator := AND |} ]
               {| conditions := [Samples.segment_is_premier;
                                 Samples.range_value];
                  operator := OR |}
               []
               [Samples.segment_is_premier] Samples.range_value []
               eq_refl eq_refl)
    as [record [Hn [Hrec [Hop Hne]]]].
  exists record.
  split; [exact Hn |].
  split; [rewrite Hrec; reflexivity |].
  split; [exact Hop |].
  apply Hne. simpl. discriminate.
Defined.

End DictFacts.

(** ** The tool layer *)

Module AgentFacts.
Import PyStr Py Models Agent.

Lemma dict_get_set_same (k : string) (v : value) (d : dict) :
  dict_get k (dict_set k v d) = Some v.
Proof.
  induction d as [| [k' v'] d IH]; simpl.
  - now rewrite String.eqb_refl.
  - destruct (String.eqb k' k) eqn:E; simpl; rewrite E; [reflexivity | exact IH].
Qed.

Lemma dict_get_set_other (k k' : string) (v : value) (d : dict) :
  String.eqb k' k = false ->
  dict_get k (dict_set k' v d) = dict_get k d.
Proof.
  intros Hne.
  induction d as [| [k0 v0] d IH]; simpl.
  - now rewrite Hne.
  - destruct (String.eqb k0 k') eqn:E; simpl.
    + apply String.eqb_eq in E. subst k0. now rewrite Hne.
    + now rewrite IH.
Qed.

(** A text that matches no member's value selects [EQUALS]. *)
Lemma select_comparator_unmatched (comp_str : value) :
  (forall c, eq_str comp_str (Comparator_value c) = false) ->
  find_comparator comp_str = None /\ select_comparator comp_str = EQUALS.
Proof.
  intros H.
  assert (Hfind : find_comparator comp_str = None).
  { unfold find_comparator, Comparator_members. cbn [find].
    now rewrite !H. }
  split; [exact Hfind |].
  unfold select_comparator. now rewrite Hfind.
Qed.

Section Tool.

Variable json_loads : string -> value + string.
Variable validate_str : value -> option string.
Variable validate_bool : value -> option bool.


(** A text the decoder refuses gives the error result, with the decoder's
    words in its message. *)
Lemma invalid_json_is_error_result (name context descr text e : string)
  (campaign : option string) :
  json_loads text = inr e ->
  create_when_rule json_loads validate_str validate_bool
    name context descr text campaign
  = Ok (PyDict [("error", PyStr ("Invalid JSON in conditions: " ++ e))]).
Proof.
  intros H. unfold Agent.create_when_rule. now rewrite H.
Qed.

(** A decoded value that is no dict has no [get]: the [AttributeError]
    leaves the tool. *)
Lemma non_dict_document_raises (name context descr text : string)
  (campaign : option string) (v : value) :
  json_loads text = inl v ->
  (forall d, v <> PyDict d) ->
  create_when_rule json_loads validate_str validate_bool
    name context descr text campaign = Raise AttributeError.
Proof.
  intros H Hnd. unfold Agent.create_when_rule. rewrite H.
  destruct v; try reflexivity.
  now destruct (Hnd entries).
Qed.

(** C8.  For a condition entry without a [rule] key whose comparator text
    equals the value of no member of [Comparator]: the comparator chosen is
    [EQUALS]; building the entry has the very outcome of building the same
    entry with the text ["is equal to"], so the unknown text is the cause
    of no error; and the condition built, when there is one, carries
    [EQUALS]. *)
Theorem unknown_comparator_defaults_to_equals (d : dict) (comp_str : value) :
  dict_has "rule" d = false ->
  dict_get "comparator" d = Some comp_str ->
  (forall c, eq_str comp_str (Comparator_value c) = false) ->
  select_comparator comp_str = EQUALS
  /\ build_condition validate_str validate_bool (PyDict d)
     = build_condition validate_str validate_bool
         (PyDict (dict_set "comparator" (PyStr "is equal to") d))
  /\ (forall c, build_condition validate_str validate_bool (PyDict d) = Ok c ->
        comparator c = Some EQUALS
        /\ condition_type c = PROPERTY_COMPARISON).
Proof.
  intros Hrule Hcomp Hnone.
  destruct (select_comparator_unmatched comp_str Hnone) as [_ Hsel].
  split; [exact Hsel |].
  assert (Hbuild :
    build_condition validate_str validate_bool (PyDict d)
    = (property_reference <-
         optional_str_field validate_str
           (match dict_get "property" d with
            | Some x => x
            | None => PyStr EmptyString
            end) ;;
       compare_value <-
         optional_str_field validate_str
           (match dict_get "value" d with
            | Some x => x
            | None => PyNone
            end) ;;
       apply_trim <-
         bool_field validate_bool
           (match dict_get "apply_trim" d with
            | Some x => x
            | None => PyBool true
            end) ;;
       compare_value_is_property <-
         bool_field validate_bool
           (match dict_get "is_property" d with
            | Some x => x
            | None => PyBool false
            end) ;;
       Ok {| condition_type := PROPERTY_COMPARISON;
             property_reference := property_reference;
             comparator := Some EQUALS;
             pega_function := None;
             compare_value := compare_value;
             apply_trim := apply_trim;
             compare_value_is_property := compare_value_is_property;
             referenced_rule := None;
             rule_evaluates_to := true |})%py).
  { unfold Agent.build_condition. simpl.
    now rewrite Hrule, Hcomp, Hsel. }
  split.
  - rewrite Hbuild.
    unfold Agent.build_condition. simpl.
    unfold dict_has.
    rewrite (dict_get_set_other "rule" "comparator") by reflexivity.
    fold (dict_has "rule" d). rewrite Hrule.
    rewrite dict_get_set_same.
    rewrite !dict_get_set_other by reflexivity.
    reflexivity.
  - intros c Hc. rewrite Hbuild in Hc.
    destruct (optional_str_field validate_str _); simpl in Hc; [| discriminate].
    destruct (optional_str_field validate_str _); simpl in Hc; [| discriminate].
    destruct (bool_field validate_bool _); simpl in Hc; [| discriminate].
    destruct (bool_field validate_bool _); simpl in Hc; [| discriminate].
    inversion Hc. split; reflexivity.
Qed.

End Tool.

Lemma unknown_comparator_defaults_to_equals_witness :
  select_comparator (PyStr "roughly") = EQUALS
  /\ Agent.build_condition Pydantic.strict_str Pydantic.strict_bool
       (PyDict Samples.roughly_entry)
     = Ok Samples.segment_is_premier.
Proof.
  pose proof (unknown_comparator_defaults_to_equals
                Pydantic.strict_str Pydantic.strict_bool
                Samples.roughly_entry (PyStr "roughly") eq_refl eq_refl) as H.
  assert (Hnone : forall c,
             eq_str (PyStr "roughly") (Comparator_value c) = false)
    by (intros c; destruct c; reflexivity).
  split.
  - exact (proj1 (H Hnone)).
  - reflexivity.
Defined.

(** The tool run on a specification with an unknown comparator text
    succeeds and renders an equality. *)
Example unknown_comparator_run :
  exists reply,
    run_create_when_rule "IsPremier" "Customer Eligibility" "sample"
      Samples.roughly_spec None = Ok reply
    /\ item reply "status" = Some (PyStr "success")
    /\ item reply "expression_simple"
       = Some (PyStr ("CUST_SEG is equal to " ++ dquote ++ "Premier" ++ dquote)).
Proof. eexists. split; [vm_compute; reflexivity |]. split; reflexivity. Qed.

(** C1, the code at the failing inputs: on a valid JSON text of the wrong
    shape no error result is returned; a [TypeError] or an
    [AttributeError] leaves the tool, whatever the field validators are.
    A text that is no JSON does give the error result. *)
Theorem wrong_shape_raises (validate_str : value -> option string)
  (validate_bool : value -> option bool) :
  let tool := create_when_rule Json.loads validate_str validate_bool
                "IsEligible" "Customer Eligibility" "sample" in
  tool Samples.groups_is_number None = Raise TypeError
  /\ tool Samples.top_level_list None = Raise AttributeError
  /\ tool Samples.group_is_string None = Raise AttributeError
  /\ tool "invalid json" None
     = Ok (PyDict
             [("error",
               PyStr "Invalid JSON in conditions: Expecting value: line 1 column 1 (char 0)")]).
Proof.
  intros tool. repeat split.
Qed.

End AgentFacts.

(** ** The decoder is total *)

Module JsonFacts.
Import Py Json.

Lemma skip_ws_length (s : string) (idx : nat) :
  String.length (fst (skip_ws s idx)) <= String.length s.
Proof.
  revert idx. induction s as [| c s IH]; intros idx; simpl; [lia |].
  destruct (is_ws c); simpl; [specialize (IH (S idx)); lia | lia].
Qed.

Lemma map_outcome_done {A B : Type} (f : A -> B) (o : outcome A) (b : B)
  (r : string) (i : nat) :
  map_outcome f o = Done b r i -> exists a, o = Done a r i /\ b = f a.
Proof.
  destruct o; simpl; intros H; inversion H; subst. eexists; split; reflexivity.
Qed.

Lemma map_outcome_fuel {A B : Type} (f : A -> B) (o : outcome A) :
  map_outcome f o = OutOfFuel -> o = OutOfFuel.
Proof. destruct o; simpl; intros H; now inversion H. Qed.

Lemma scanstring_bounded (n : nat) :
  forall begin s idx, String.length s <= n ->
    scanstring begin s idx <> OutOfFuel
    /\ (forall k r i, scanstring begin s idx = Done k r i ->
          String.length r < String.length s).
Proof.
  induction n as [| n IH]; intros begin s idx Hn.
  - destruct s; simpl in Hn; [| lia]. simpl. split; [discriminate |].
    intros k r i H. discriminate.
  - destruct s as [| c rest]; simpl.
    + split; [discriminate | intros k r i H; discriminate].
    + simpl in Hn.
      destruct (Ascii.eqb c dq).
      { split; [discriminate |]. intros k r i H. inversion H; subst. lia. }
      destruct (Ascii.eqb c "\"%char).
      * destruct rest as [| e rest1]; [split; [discriminate | intros; discriminate] |].
        simpl in Hn.
        destruct (Ascii.eqb e "u"%char).
        -- destruct rest1 as [| h1 [| h2 [| h3 [| h4 [| x rest2]]]]];
             try (split; [discriminate | intros; discriminate]).
           destruct (hex_value h1), (hex_value h2), (hex_value h3), (hex_value h4);
             try (split; [discriminate | intros; discriminate]).
           destruct (Nat.eqb n0 0 && Nat.eqb n1 0);
             try (split; [discriminate | intros; discriminate]).
           simpl in Hn.
           destruct (IH begin (String x rest2) (idx + 6)) as [H1 H2];
             [simpl; lia |].
           split.
           ++ intros H. apply map_outcome_fuel in H. now apply H1.
           ++ intros k r i H. apply map_outcome_done in H.
              destruct H as [a [H _]]. apply H2 in H. simpl in *. lia.
        -- destruct (unescape e);
             try (split; [discriminate | intros; discriminate]).
           destruct (IH begin rest1 (idx + 2)) as [H1 H2]; [lia |].
           split.
           ++ intros H. apply map_outcome_fuel in H. now apply H1.
           ++ intros k r i H. apply map_outcome_done in H.
              destruct H as [b [H _]]. apply H2 in H. simpl. lia.
      * destruct (Nat.ltb (nat_of_ascii c) 32);
          try (split; [discriminate | intros; discriminate]).
        destruct (IH begin rest (S idx)) as [H1 H2]; [lia |].
        split.
        -- intros H. apply map_outcome_fuel in H. now apply H1.
        -- intros k r i H. apply map_outcome_done in H.
           destruct H as [b [H _]]. apply H2 in H. lia.
Qed.

Lemma strip_prefix_length (p s r : string) :
  strip_prefix p s = Some r -> String.length r <= String.length s.
Proof.
  revert s. induction p as [| a p IH]; intros s H; simpl in H.
  - destruct s; inversion H; subst; lia.
  - destruct s as [| b s]; [discriminate |].
    destruct (Ascii.eqb a b); [| discriminate].
    apply IH in H. simpl. lia.
Qed.

Lemma span_digits_length (s : string) :
  String.length (snd (span_digits s)) <= String.length s.
Proof.
  induction s as [| c s IH]; simpl; [lia |].
  destruct (is_ascii_digit c); simpl; [| lia].
  destruct (span_digits s); simpl in *. lia.
Qed.

Lemma scan_number_length (s : string) (v : value) (r : string) :
  scan_number s = Some (v, r) -> String.length r <= String.length s.
Proof.
  unfold scan_number.
  set (ns := match s with
             | String c r0 => if Ascii.eqb c "-"%char then (true, r0) else (false, s)
             | EmptyString => (false, s)
             end).
  assert (Hns : String.length (snd ns) <= String.length s).
  { subst ns. destruct s as [| c r0]; simpl; [lia |].
    destruct (Ascii.eqb c "-"%char); simpl; lia. }
  destruct ns as [neg s0]. simpl in Hns.
  destruct s0 as [| c r0]; [discriminate |].
  destruct (is_ascii_digit c); [| discriminate].
  set (ip := if Ascii.eqb c "0"%char then ("0", r0) else span_digits (String c r0)).
  assert (Hip : String.length (snd ip) <= String.length (String c r0)).
  { subst ip. destruct (Ascii.eqb c "0"%char); [simpl; lia |].
    apply span_digits_length. }
  destruct ip as [int_part r1]. simpl snd in Hip.
  set (fp := match r1 with
             | String p r' => _
             | EmptyString => _
             end).
  assert (Hfp : String.length (snd fp) <= String.length r1).
  { subst fp. destruct r1 as [| p r']; simpl; [lia |].
    destruct (Ascii.eqb p "."%char); [| simpl; lia].
    pose proof (span_digits_length r') as Hs.
    destruct (span_digits r') as [d r'']. simpl in Hs.
    destruct (is_empty d); simpl; lia. }
  destruct fp as [frac r2]. simpl snd in Hfp.
  set (ep := match r2 with
             | String e r' => _
             | EmptyString => _
             end).
  assert (Hep : String.length (snd ep) <= String.length r2).
  { subst ep. destruct r2 as [| e r']; simpl; [lia |].
    destruct (Ascii.eqb e "e"%char || Ascii.eqb e "E"%char); [| simpl; lia].
    set (sp := match r' with
               | String g t => _
               | EmptyString => _
               end).
    assert (Hsp : String.length (snd sp) <= String.length r').
    { subst sp. destruct r' as [| g t]; simpl; [lia |].
      destruct (Ascii.eqb g "+"%char || Ascii.eqb g "-"%char); simpl; lia. }
    destruct sp as [sign r'']. simpl in Hsp.
    pose proof (span_digits_length r'') as Hs.
    destruct (span_digits r'') as [d r''']. simpl in Hs.
    destruct (is_empty d); simpl; lia. }
  destruct ep as [exp r3]. simpl snd in Hep.
  intros H.
  assert (r = r3) by (destruct (is_empty frac && is_empty exp); now inversion H).
  subst r3. cbn [String.length] in *. lia.
Qed.

Lemma scan_atom_length (s : string) (v : value) (r : string) :
  scan_atom s = Some (v, r) -> String.length r <= String.length s.
Proof.
  unfold scan_atom. intros H.
  repeat match type of H with
  | match strip_prefix ?p s with _ => _ end = _ =>
      let E := fresh "E" in
      destruct (strip_prefix p s) eqn:E;
        [apply strip_prefix_length in E; inversion H; subst; exact E |]
  | match scan_number s with _ => _ end = _ =>
      let E := fresh "E" in
      destruct (scan_number s) as [[v0 r0] |] eqn:E;
        [apply scan_number_length in E; inversion H; subst; exact E |]
  end.
  discriminate.
Qed.

(** What the three scanners leave is no longer than what they were
    given. *)
Lemma scanners_consume (fuel : nat) :
  (forall s idx v r i, scan_once fuel s idx = Done v r i ->
     String.length r <= String.length s)
  /\ (forall acc s idx v r i, array_loop fuel acc s idx = Done v r i ->
        String.length r <= String.length s)
  /\ (forall acc begin s idx v r i,
        object_loop fuel acc begin s idx = Done v r i ->
        String.length r <= String.length s).
Proof.
  induction fuel as [| fuel [IHs [IHa IHo]]].
  - repeat split; intros; discriminate.
  - split; [| split].
    + intros s idx v r i H. simpl in H.
      destruct s as [| c rest]; [discriminate |].
      destruct (Ascii.eqb c dq).
      { apply map_outcome_done in H. destruct H as [k [H _]].
        apply (scanstring_bounded (String.length rest)) in H; [| lia].
        simpl. lia. }
      destruct (Ascii.eqb c "{"%char).
      { pose proof (skip_ws_length rest (S idx)) as Hw.
        destruct (skip_ws rest (S idx)) as [s1 i1]. simpl in Hw.
        destruct s1 as [| c1 r1]; [discriminate |].
        cbn [String.length] in *.
        destruct (Ascii.eqb c1 "}"%char); [inversion H; subst; lia |].
        destruct (Ascii.eqb c1 dq); [| discriminate].
        apply IHo in H. lia. }
      destruct (Ascii.eqb c "["%char).
      { pose proof (skip_ws_length rest (S idx)) as Hw.
        destruct (skip_ws rest (S idx)) as [s1 i1]. simpl in Hw.
        destruct s1 as [| c1 r1].
        - apply IHa in H. cbn [String.length] in *. lia.
        - cbn [String.length] in *.
          destruct (Ascii.eqb c1 "]"%char); [inversion H; subst; lia |].
          apply IHa in H. cbn [String.length] in *. lia. }
      destruct (scan_atom (String c rest)) as [[v0 r0] |] eqn:E; [| discriminate].
      apply scan_atom_length in E. inversion H; subst. exact E.
    + intros acc s idx v r i H. simpl in H.
      destruct (scan_once fuel s idx) as [v0 rest i0 | |] eqn:E; try discriminate.
      apply IHs in E.
      pose proof (skip_ws_length rest i0) as Hw.
      destruct (skip_ws rest i0) as [s1 i1]. simpl in Hw.
      destruct s1 as [| c r1]; [discriminate |].
      cbn [String.length] in *.
      destruct (Ascii.eqb c "]"%char); [inversion H; subst; lia |].
      destruct (Ascii.eqb c ","%char); [| discriminate].
      pose proof (skip_ws_length r1 (S i1)) as Hw2.
      destruct (skip_ws r1 (S i1)) as [s2 i2]. simpl in Hw2.
      apply IHa in H. lia.
    + intros acc begin s idx v r i H. simpl in H.
      destruct (scanstring begin s idx) as [key rest i0 | |] eqn:E; try discriminate.
      apply (scanstring_bounded (String.length s)) in E; [| lia].
      pose proof (skip_ws_length rest i0) as Hw.
      destruct (skip_ws rest i0) as [s1 i1]. simpl in Hw.
      destruct s1 as [| c r1]; [discriminate |].
      cbn [String.length] in *.
      destruct (Ascii.eqb c ":"%char); [| discriminate].
      pose proof (skip_ws_length r1 (S i1)) as Hw2.
      destruct (skip_ws r1 (S i1)) as [s2 i2]. simpl in Hw2.
      destruct (scan_once fuel s2 i2) as [v0 rest3 i3 | |] eqn:E2; try discriminate.
      apply IHs in E2.
      pose proof (skip_ws_length rest3 i3) as Hw3.
      destruct (skip_ws rest3 i3) as [s4 i4]. simpl in Hw3.
      destruct s4 as [| c4 r4]; [discriminate |].
      cbn [String.length] in *.
      destruct (Ascii.eqb c4 "}"%char); [inversion H; subst; lia |].
      destruct (Ascii.eqb c4 ","%char); [| discriminate].
      pose proof (skip_ws_length r4 (S i4)) as Hw4.
      destruct (skip_ws r4 (S i4)) as [s5 i5]. simpl in Hw4.
      destruct s5 as [| c5 r5]; [discriminate |].
      cbn [String.length] in *.
      destruct (Ascii.eqb c5 dq); [| discriminate].
      apply IHo in H. lia.
Qed.

(** With fuel above twice the length of the text, no scanner runs out. *)
Lemma fuel_suffices (fuel : nat) :
  (forall s idx, 2 * String.length s + 1 <= fuel ->
     scan_once fuel s idx <> OutOfFuel)
  /\ (forall acc s idx, 2 * String.length s + 2 <= fuel ->
        array_loop fuel acc s idx <> OutOfFuel)
  /\ (forall acc begin s idx, 2 * String.length s + 2 <= fuel ->
        object_loop fuel acc begin s idx <> OutOfFuel).
Proof.
  induction fuel as [| fuel [IHs [IHa IHo]]].
  - repeat split; intros; lia.
  - split; [| split].
    + intros s idx Hf. simpl.
      destruct s as [| c rest]; [discriminate |].
      cbn [String.length] in Hf.
      destruct (Ascii.eqb c dq).
      { intros H. apply map_outcome_fuel in H.
        now apply (scanstring_bounded (String.length rest) idx rest (S idx)). }
      destruct (Ascii.eqb c "{"%char).
      { pose proof (skip_ws_length rest (S idx)) as Hw.
        destruct (skip_ws rest (S idx)) as [s1 i1]. simpl in Hw.
        destruct s1 as [| c1 r1]; [discriminate |].
        cbn [String.length] in *.
        destruct (Ascii.eqb c1 "}"%char); [discriminate |].
        destruct (Ascii.eqb c1 dq); [| discriminate].
        apply IHo. lia. }
      destruct (Ascii.eqb c "["%char).
      { pose proof (skip_ws_length rest (S idx)) as Hw.
        destruct (skip_ws rest (S idx)) as [s1 i1]. simpl in Hw.
        destruct s1 as [| c1 r1].
        - apply IHa. cbn [String.length] in *. lia.
        - cbn [String.length] in *.
          destruct (Ascii.eqb c1 "]"%char); [discriminate |].
          apply IHa. cbn [String.length] in *. lia. }
      destruct (scan_atom (String c rest)) as [[v0 r0] |]; discriminate.
    + intros acc s idx Hf. simpl.
      destruct (scan_once fuel s idx) as [v0 rest i0 | |] eqn:E.
      * apply (proj1 (scanners_consume fuel)) in E.
        pose proof (skip_ws_length rest i0) as Hw.
        destruct (skip_ws rest i0) as [s1 i1]. simpl in Hw.
        destruct s1 as [| c r1]; [discriminate |].
        cbn [String.length] in *.
        destruct (Ascii.eqb c "]"%char); [discriminate |].
        destruct (Ascii.eqb c ","%char); [| discriminate].
        pose proof (skip_ws_length r1 (S i1)) as Hw2.
        destruct (skip_ws r1 (S i1)) as [s2 i2]. simpl in Hw2.
        apply IHa. lia.
      * discriminate.
      * exfalso. revert E. apply IHs. lia.
    + intros acc begin s idx Hf. simpl.
      destruct (scanstring begin s idx) as [key rest i0 | |] eqn:E.
      * apply (scanstring_bounded (String.length s)) in E; [| lia].
        pose proof (skip_ws_length rest i0) as Hw.
        destruct (skip_ws rest i0) as [s1 i1]. simpl in Hw.
        destruct s1 as [| c r1]; [discriminate |].
        cbn [String.length] in *.
        destruct (Ascii.eqb c ":"%char); [| discriminate].
        pose proof (skip_ws_length r1 (S i1)) as Hw2.
        destruct (skip_ws r1 (S i1)) as [s2 i2]. simpl in Hw2.
        destruct (scan_once fuel s2 i2) as [v0 rest3 i3 | |] eqn:E2.
        -- apply (proj1 (scanners_consume fuel)) in E2.
           pose proof (skip_ws_length rest3 i3) as Hw3.
           destruct (skip_ws rest3 i3) as [s4 i4]. simpl in Hw3.
           destruct s4 as [| c4 r4]; [discriminate |].
           cbn [String.length] in *.
           destruct (Ascii.eqb c4 "}"%char); [discriminate |].
           destruct (Ascii.eqb c4 ","%char); [| discriminate].
           pose proof (skip_ws_length r4 (S i4)) as Hw4.
           destruct (skip_ws r4 (S i4)) as [s5 i5]. simpl in Hw4.
           destruct s5 as [| c5 r5]; [discriminate |].
           cbn [String.length] in *.
           destruct (Ascii.eqb c5 dq); [| discriminate].
           apply IHo. lia.
        -- discriminate.
        -- exfalso. revert E2. apply IHs. lia.
      * discriminate.
      * exfalso. revert E.
        now apply (scanstring_bounded (String.length s)).
Qed.

(** The decoder is total: every text is decoded or refused. *)
Theorem decode_total (s : string) : decode s <> OutOfFuel.
Proof.
  unfold decode.
  pose proof (skip_ws_length s 0) as Hw.
  destruct (skip_ws s 0) as [s0 i0]. simpl in Hw.
  destruct (scan_once (2 * String.length s + 1) s0 i0) as [v rest i | |] eqn:E.
  - destruct (skip_ws rest i) as [s1 i1]. destruct s1; discriminate.
  - discriminate.
  - exfalso. revert E. apply (proj1 (fuel_suffices _)). lia.
Qed.

(** So [loads] gives a value or the text of a decoding error. *)
Corollary loads_decodes_or_refuses (s : string) :
  (exists v rest i, decode s = Done v rest i /\ loads s = inl v)
  \/ (exists msg pos, decode s = Fail msg pos /\ loads s = inr (errmsg s msg pos)).
Proof.
  unfold loads. pose proof (decode_total s) as Ht.
  destruct (decode s) as [v rest i | msg pos |].
  - left. now exists v, rest, i.
  - right. now exists msg, pos.
  - now destruct Ht.
Qed.

End JsonFacts.

(** * Further properties *)

(** ** Rule references and the XML blocks *)

Module RenderingFacts.
Import PyStr Py Models ModelsXml ListFacts.

(** X1.  A rule reference with a name renders in both dialects as
    [{Rule <name> evaluates to true}] or [... false}]. *)
Theorem rule_reference_same_in_both_dialects (c : Condition) (name : string)
  (b : bool) :
  condition_type c = RULE_REFERENCE ->
  referenced_rule c = Some name ->
  name <> EmptyString ->
  _condition_to_expr c b
  = "{Rule " ++ name ++ " evaluates to "
    ++ (if rule_evaluates_to c then "true" else "false") ++ "}".
Proof.
  intros Ht Hr Hn. unfold _condition_to_expr. rewrite Ht, Hr.
  destruct name as [| a name]; [now destruct Hn |]. reflexivity.
Qed.

Lemma rule_reference_same_in_both_dialects_witness :
  _condition_to_expr MoreSamples.not_hkid false
  = "{Rule IsHKID evaluates to false}"
  /\ _condition_to_expr MoreSamples.not_hkid true
     = "{Rule IsHKID evaluates to false}".
Proof.
  split;
    apply (rule_reference_same_in_both_dialects MoreSamples.not_hkid "IsHKID"
             _ eq_refl eq_refl);
    discriminate.
Defined.

(** X2.  A rule reference whose name is missing or empty is not rendered
    as a rule reference: with no property, comparator, function or value
    it gives [( == )] in the function dialect and the empty text in the
    simple dialect, while [to_dict] and [to_pega_xml] still record it as
    a rule reference. *)
Theorem nameless_rule_reference_renders_as_property (c : Condition) :
  condition_type c = RULE_REFERENCE ->
  truthy (referenced_rule c) = false ->
  property_reference c = None ->
  comparator c = None ->
  pega_function c = None ->
  compare_value c = None ->
  _condition_to_expr c true = "( == )"
  /\ _condition_to_expr c false = EmptyString
  /\ (forall g,
        item (condition_record g c) "pyConditionType" = Some (PyStr "rule"))
  /\ condition_xml c
     = "    <ruleReference>" ++ newline
       ++ "      <ruleName>" ++ format_opt (referenced_rule c)
       ++ "</ruleName>" ++ newline
       ++ "      <evaluatesTo>" ++ bool_lower (rule_evaluates_to c)
       ++ "</evaluatesTo>" ++ newline
       ++ "    </ruleReference>".
Proof.
  intros Ht Hr Hp Hc Hf Hv.
  unfold _condition_to_expr, _build_function_expr_from_comparator,
    condition_record, condition_xml.
  rewrite Ht, Hr, Hp, Hc, Hf, Hv. repeat split.
Qed.

Lemma nameless_rule_reference_renders_as_property_witness :
  Agent.build_condition Pydantic.strict_str Pydantic.strict_bool
    (PyDict [("rule", PyNone)])
  = Ok MoreSamples.nameless_reference
  /\ _condition_to_expr MoreSamples.nameless_reference true = "( == )".
Proof.
  split; [reflexivity |].
  exact (proj1 (nameless_rule_reference_renders_as_property
                  MoreSamples.nameless_reference
                  eq_refl eq_refl eq_refl eq_refl eq_refl eq_refl)).
Defined.

(** A loop over [enumerate(l)] that appends an item and, except after
    the last, a separator builds the items with the separator between
    them. *)
Lemma fold_enumerate_intersperse {A B : Type} (f : A -> B) (sep : B)
  (l : list A) :
  forall (k total : nat) (acc : list B),
    total = k + length l ->
    fold_left
      (fun acc '(idx, x) =>
         let acc := append acc (f x) in
         if Nat.ltb idx (total - 1) then append acc sep else acc)
      (combine (seq k (length l)) l) acc
    = (acc ++ intersperse sep (map f l))%list.
Proof.
  induction l as [| x l IH]; intros k total acc Ht; simpl.
  - now rewrite app_nil_r.
  - destruct l as [| y l].
    + simpl in *. replace (Nat.ltb k (total - 1)) with false
        by (symmetry; apply Nat.ltb_ge; lia).
      reflexivity.
    + replace (Nat.ltb k (total - 1)) with true
        by (symmetry; apply Nat.ltb_lt; simpl in Ht; lia).
      rewrite (IH (S k) total) by (simpl in *; lia).
      unfold append. rewrite <- !app_assoc. reflexivity.
Qed.

(** The same for a loop whose body appends a whole list. *)
Lemma fold_enumerate_chain {A B : Type} (f : A -> list B) (sep : B)
  (l : list A) :
  forall (k total : nat) (acc : list B),
    total = k + length l ->
    fold_left
      (fun acc '(idx, x) =>
         let acc := (acc ++ f x)%list in
         if Nat.ltb idx (total - 1) then append acc sep else acc)
      (combine (seq k (length l)) l) acc
    = (acc ++ chain sep (map f l))%list.
Proof.
  induction l as [| x l IH]; intros k total acc Ht; simpl.
  - now rewrite app_nil_r.
  - destruct l as [| y l].
    + simpl in *. replace (Nat.ltb k (total - 1)) with false
        by (symmetry; apply Nat.ltb_ge; lia).
      reflexivity.
    + replace (Nat.ltb k (total - 1)) with true
        by (symmetry; apply Nat.ltb_lt; simpl in Ht; lia).
      rewrite (IH (S k) total) by (simpl in *; lia).
      unfold append. rewrite <- !app_assoc. reflexivity.
Qed.

Lemma fold_left_same_step {A B : Type} (f g : A -> B -> A) (l : list B)
  (a : A) :
  (forall acc x, f acc x = g acc x) -> fold_left f l a = fold_left g l a.
Proof.
  intros H. revert a.
  induction l as [| x l IH]; intros a; simpl; [reflexivity |].
  now rewrite H, IH.
Qed.

(** X3.  The document of [to_pega_xml] holds the blocks of
    [conditions_xml] joined by line feeds, and these blocks are, group
    after group, the blocks of the group's conditions with an
    [<operator>] line between two of them, and a [<groupOperator>] line
    between two groups, also around a group without conditions. *)
Theorem conditions_xml_interleaved (r : WhenRule) :
  conditions_xml r
  = chain (group_operator_line r)
      (map (fun g => intersperse (operator_line g)
                       (map condition_xml (conditions g)))
         (condition_groups r))
  /\ to_pega_xml r
     = "<?xml version=" ++ dquote ++ "1.0" ++ dquote ++ " encoding=" ++ dquote
       ++ "UTF-8" ++ dquote ++ "?>" ++ newline
       ++ "<pega:WhenRule xmlns:pega=" ++ dquote ++ "http://www.pega.com/rules"
       ++ dquote ++ ">" ++ newline
       ++ "  <ruleName>" ++ rule_name r ++ "</ruleName>" ++ newline
       ++ "  <appliesTo>" ++ applies_to r ++ "</appliesTo>" ++ newline
       ++ "  <description>" ++ description r ++ "</description>" ++ newline
       ++ "  <campaignId>" ++ or_empty (campaign_id r) ++ "</campaignId>"
       ++ newline
       ++ "  <conditions>" ++ newline
       ++ join newline (conditions_xml r) ++ newline
       ++ "  </conditions>" ++ newline
       ++ "</pega:WhenRule>".
Proof.
  split; [| reflexivity].
  unfold conditions_xml, enumerate.
  rewrite (fold_left_same_step _
             (fun acc '(idx, g) =>
                let acc :=
                  (acc ++ intersperse (operator_line g)
                            (map condition_xml (conditions g)))%list in
                if Nat.ltb idx (length (condition_groups r) - 1)
                then append acc (group_operator_line r)
                else acc)).
  - pose proof (fold_enumerate_chain
                  (fun g => intersperse (operator_line g)
                              (map condition_xml (conditions g)))
                  (group_operator_line r) (condition_groups r) 0
                  (length (condition_groups r)) [] eq_refl) as H.
    cbv beta iota zeta in H |- *. now rewrite H.
  - intros acc [idx g].
    pose proof (fold_enumerate_intersperse condition_xml (operator_line g)
                  (conditions g) 0 (length (conditions g)) acc eq_refl) as H.
    cbv beta iota zeta in H |- *. now rewrite H.
Qed.

End RenderingFacts.

(** ** The lint *)

Module LintFacts.
Import PyStr PyText Py Models AgentTools Lint StrFacts.

Lemma count_char_app (c : ascii) (a b : string) :
  count_char c (a ++ b) = count_char c a + count_char c b.
Proof.
  induction a as [| x a IH]; simpl; [reflexivity |].
  destruct (Ascii.eqb x c); simpl; now rewrite IH.
Qed.

Lemma has_char_app (c : ascii) (a b : string) :
  has_char c (a ++ b) = has_char c a || has_char c b.
Proof.
  induction a as [| x a IH]; simpl; [reflexivity |].
  now rewrite IH, orb_assoc.
Qed.

Lemma plain_app (a b : string) : plain (a ++ b) = plain a && plain b.
Proof.
  induction a as [| x a IH]; simpl; [reflexivity |].
  now rewrite IH, andb_assoc.
Qed.

(** A plain text holds none of the five special characters. *)
Lemma plain_has_none (c : ascii) (s : string) :
  plain s = true -> plain_char c = false ->
  count_char c s = 0 /\ has_char c s = false.
Proof.
  intros Hs Hc.
  induction s as [| x s IH]; simpl; [now split |].
  simpl in Hs. apply andb_true_iff in Hs. destruct Hs as [Hx Hs].
  destruct (IH Hs) as [IH1 IH2].
  destruct (Ascii.eqb x c) eqn:E.
  - apply Ascii.eqb_eq in E. subst x. congruence.
  - simpl. now split.
Qed.

Lemma skip_word_app (a b : string) :
  skip_word a <> EmptyString -> skip_word (a ++ b) = skip_word a ++ b.
Proof.
  induction a as [| x a IH]; simpl; intros H; [now destruct H |].
  destruct (is_word_char x); [now apply IH | reflexivity].
Qed.

Lemma call_at_app (a b : string) :
  call_at a = true -> call_at (a ++ b) = true.
Proof.
  destruct a as [| x a]; [discriminate |].
  intros H. unfold call_at in H.
  apply andb_true_iff in H. destruct H as [Hw H].
  destruct (skip_word (String x a)) as [| p after] eqn:E; [discriminate |].
  apply andb_true_iff in H. destruct H as [Hp Hc].
  assert (Hs : skip_word (String x (a ++ b)) = String p (after ++ b)).
  { change (String x (a ++ b)) with (String x a ++ b).
    rewrite skip_word_app by (rewrite E; discriminate). now rewrite E. }
  change (String x a ++ b) with (String x (a ++ b)).
  unfold call_at. rewrite Hw, Hs, Hp, has_char_app, Hc. reflexivity.
Qed.

Lemma search_call_app_l (a b : string) :
  search_call a = true -> search_call (a ++ b) = true.
Proof.
  induction a as [| x a IH]; simpl; [discriminate |].
  intros H. apply orb_true_iff in H. destruct H as [H | H].
  - apply andb_true_iff in H. destruct H as [Hx Hc].
    now rewrite Hx, (call_at_app a b Hc).
  - rewrite (IH H). apply orb_true_r.
Qed.

Lemma search_call_app_r (a b : string) :
  search_call b = true -> search_call (a ++ b) = true.
Proof.
  intros H. induction a as [| x a IH]; simpl; [exact H |].
  rewrite IH. apply orb_true_r.
Qed.

(** The three parts of [balanced]. *)
Lemma balanced_parts (s : string) :
  balanced s = true <->
  count_char "("%char s = count_char ")"%char s
  /\ count_char "{"%char s = count_char "}"%char s
  /\ (has_char "@"%char s = false \/ search_call s = true).
Proof.
  unfold balanced. rewrite !andb_true_iff, !Nat.eqb_eq, orb_true_iff,
    negb_true_iff. tauto.
Qed.

Lemma balanced_app (a b : string) :
  balanced a = true -> balanced b = true -> balanced (a ++ b) = true.
Proof.
  rewrite !balanced_parts. intros [Ha1 [Ha2 Ha3]] [Hb1 [Hb2 Hb3]].
  rewrite !count_char_app, has_char_app. repeat split; try lia.
  destruct Ha3 as [Ha3 | Ha3].
  - destruct Hb3 as [Hb3 | Hb3].
    + left. now rewrite Ha3, Hb3.
    + right. now apply search_call_app_r.
  - right. now apply search_call_app_l.
Qed.

Lemma plain_balanced (s : string) : plain s = true -> balanced s = true.
Proof.
  intros H. apply balanced_parts.
  rewrite (proj1 (plain_has_none "("%char s H eq_refl)),
    (proj1 (plain_has_none ")"%char s H eq_refl)),
    (proj1 (plain_has_none "{"%char s H eq_refl)),
    (proj1 (plain_has_none "}"%char s H eq_refl)),
    (proj2 (plain_has_none "@"%char s H eq_refl)).
  repeat split. now left.
Qed.

(** A balanced text between a pair of parentheses or of braces is
    balanced. *)
Lemma balanced_wrap (s : string) :
  balanced s = true ->
  balanced ("(" ++ s ++ ")") = true /\ balanced ("{" ++ s ++ "}") = true.
Proof.
  rewrite !balanced_parts. intros [H1 [H2 H3]].
  assert (Hat : forall l r : string,
             has_char "@"%char l = false -> has_char "@"%char r = false ->
             has_char "@"%char (l ++ s ++ r) = false
             \/ search_call (l ++ s ++ r) = true).
  { intros l r Hl Hr. destruct H3 as [H3 | H3].
    - left. now rewrite !has_char_app, Hl, H3, Hr.
    - right. apply search_call_app_r. now apply search_call_app_l. }
  split; (split; [| split]);
    try (rewrite !count_char_app; simpl; lia);
    now apply Hat.
Qed.

Lemma balanced_join (sep : string) (l : list string) :
  plain sep = true ->
  Forall (fun t => balanced t = true) l ->
  balanced (join sep l) = true.
Proof.
  intros Hsep H. induction H as [| x l Hx Hl IH]; [reflexivity |].
  destruct l as [| y l]; [exact Hx |].
  rewrite join_cons2.
  apply balanced_app; [exact Hx |].
  apply balanced_app; [now apply plain_balanced | exact IH].
Qed.

(** A call of a function that a comparator maps to, or of [@trim],
    around balanced arguments is balanced. *)
Lemma function_value_plain_but_at (f : PegaFunction) (c : ascii) :
  plain_char c = false -> c <> "@"%char ->
  count_char c (PegaFunction_value f) = 0.
Proof.
  intros Hc Hne.
  unfold plain_char in Hc. apply negb_false_iff in Hc.
  rewrite !orb_true_iff in Hc.
  destruct Hc as [[[[Hc | Hc] | Hc] | Hc] | Hc];
    apply Ascii.eqb_eq in Hc; subst c;
    solve [destruct f; reflexivity | now destruct Hne].
Qed.

Lemma search_call_function (f : PegaFunction) (x : string) :
  f <> F_CALL_WHEN ->
  search_call (PegaFunction_value f ++ "(" ++ x ++ ")") = true.
Proof.
  intros Hf.
  destruct f; try (now destruct Hf); simpl;
    rewrite has_char_app; simpl; now rewrite orb_true_r.
Qed.

Lemma balanced_call (f : PegaFunction) (x : string) :
  f <> F_CALL_WHEN ->
  balanced x = true ->
  balanced (PegaFunction_value f ++ "(" ++ x ++ ")") = true.
Proof.
  intros Hf Hx. apply balanced_parts.
  apply balanced_parts in Hx. destruct Hx as [H1 [H2 _]].
  split; [| split].
  - rewrite !count_char_app,
      (function_value_plain_but_at f "("%char),
      (function_value_plain_but_at f ")"%char)
      by (reflexivity || discriminate).
    simpl. lia.
  - rewrite !count_char_app,
      (function_value_plain_but_at f "{"%char),
      (function_value_plain_but_at f "}"%char)
      by (reflexivity || discriminate).
    simpl. lia.
  - right. now apply search_call_function.
Qed.

Lemma last_char_end (a : string) (c : ascii) :
  last_char (a ++ String c EmptyString) = Some c.
Proof.
  induction a as [| x a IH]; [reflexivity |].
  change (String x a ++ String c EmptyString)
    with (String x (a ++ String c EmptyString)).
  cbn [last_char]. rewrite IH.
  destruct (a ++ String c EmptyString) eqn:E; [| reflexivity].
  now destruct a.
Qed.

Lemma last_char_cons (x : ascii) (s : string) :
  s <> EmptyString -> last_char (String x s) = last_char s.
Proof. destruct s; [intros H; now destruct H | reflexivity]. Qed.

Lemma last_char_app (a b : string) :
  b <> EmptyString -> last_char (a ++ b) = last_char b.
Proof.
  intros Hb. induction a as [| x a IH]; [reflexivity |].
  change (String x a ++ b) with (String x (a ++ b)).
  rewrite last_char_cons; [exact IH |].
  destruct a; [exact Hb | discriminate].
Qed.

Lemma ends_closed_nonempty (s : string) :
  ends_closed s = true -> s <> EmptyString.
Proof. intros H E. subst s. discriminate. Qed.

Lemma ends_closed_app (a b : string) :
  ends_closed b = true -> ends_closed (a ++ b) = true.
Proof.
  intros H. unfold ends_closed.
  rewrite last_char_app by now apply ends_closed_nonempty.
  exact H.
Qed.

Lemma ends_closed_join (sep : string) (l : list string) :
  l <> [] ->
  Forall (fun t => ends_closed t = true) l ->
  ends_closed (join sep l) = true.
Proof.
  intros Hl H. induction H as [| x l Hx Hf IH]; [now destruct Hl |].
  destruct l as [| y l]; [exact Hx |].
  rewrite join_cons2. apply ends_closed_app. apply ends_closed_app.
  apply IH. discriminate.
Qed.

Lemma rstrip_cons (x : ascii) (s : string) :
  rstrip (String x s)
  = match rstrip s with
    | EmptyString => if is_space x then EmptyString else String x EmptyString
    | kept => String x kept
    end.
Proof. reflexivity. Qed.

(** Stripping a text that ends with a character that is no white space
    keeps that last character. *)
Lemma rstrip_keeps (s : string) (c : ascii) :
  last_char s = Some c -> is_space c = false -> rstrip s = s.
Proof.
  induction s as [| x s IH]; intros Hl Hc; [reflexivity |].
  destruct s as [| y s].
  - simpl in Hl. inversion Hl; subst. simpl. now rewrite Hc.
  - rewrite last_char_cons in Hl by discriminate.
    rewrite rstrip_cons, (IH Hl Hc). reflexivity.
Qed.

Lemma lstrip_last (s : string) (c : ascii) :
  last_char s = Some c -> is_space c = false ->
  last_char (lstrip s) = Some c.
Proof.
  induction s as [| x s IH]; intros Hl Hc; [discriminate |].
  cbn [lstrip]. destruct (is_space x) eqn:Hx; [| exact Hl].
  destruct s as [| y s].
  - simpl in Hl. inversion Hl; subst. congruence.
  - rewrite last_char_cons in Hl by discriminate. now apply IH.
Qed.

Lemma strip_last (s : string) (c : ascii) :
  last_char s = Some c -> is_space c = false ->
  last_char (strip s) = Some c.
Proof.
  intros Hl Hc. unfold strip.
  pose proof (lstrip_last s c Hl Hc) as H.
  now rewrite (rstrip_keeps _ c H Hc).
Qed.

(** A text that ends with [suffix] has the last character of
    [suffix]. *)
Lemma endswith_last (suffix s : string) :
  suffix <> EmptyString ->
  endswith suffix s = true -> last_char s = last_char suffix.
Proof.
  intros Hne. induction s as [| x s IH]; intros H.
  - cbn [endswith] in H. rewrite orb_false_r in H. apply String.eqb_eq in H.
    now subst suffix.
  - cbn [endswith] in H. apply orb_true_iff in H. destruct H as [H | H].
    + apply String.eqb_eq in H. now subst suffix.
    + rewrite last_char_cons; [now apply IH |].
      intros E. subst s. cbn [endswith] in H. rewrite orb_false_r in H.
      apply String.eqb_eq in H. now subst suffix.
Qed.

Lemma endswith_app (suffix a : string) : endswith suffix (a ++ suffix) = true.
Proof.
  induction a as [| x a IH].
  - destruct suffix; simpl; [reflexivity |].
    now rewrite Ascii.eqb_refl, String.eqb_refl.
  - change (String x a ++ suffix) with (String x (a ++ suffix)).
    cbn [endswith]. rewrite IH. apply orb_true_r.
Qed.

(** The dangling-operator check finds nothing in a text that is empty or
    ends with a closing parenthesis or brace. *)
Lemma closes_not_dangling (s : string) :
  closes s = true ->
  existsb (fun suffix => endswith suffix (strip s)) ["&&"; "||"; "AND"; "OR"]
  = false.
Proof.
  unfold closes. destruct (last_char s) as [c |] eqn:Hl.
  - intros Hc.
    assert (Hsp : is_space c = false).
    { apply orb_true_iff in Hc.
      destruct Hc as [Hc | Hc]; apply Ascii.eqb_eq in Hc; now subst c. }
    pose proof (strip_last s c Hl Hsp) as Hs.
    assert (Hno : forall suffix c',
               suffix <> EmptyString -> last_char suffix = Some c' ->
               (Ascii.eqb c' ")"%char || Ascii.eqb c' "}"%char) = false ->
               endswith suffix (strip s) = false).
    { intros suffix c' Hne Hc' Hd.
      destruct (endswith suffix (strip s)) eqn:E; [| reflexivity].
      apply (endswith_last suffix _ Hne) in E.
      rewrite Hs, Hc' in E. inversion E; subst c'. congruence. }
    cbn [existsb].
    rewrite (Hno "&&" "&"%char), (Hno "||" "|"%char), (Hno "AND" "D"%char),
      (Hno "OR" "R"%char) by (reflexivity || discriminate).
    reflexivity.
  - intros _. destruct s as [| x s]; [reflexivity |].
    exfalso. clear -Hl. revert x Hl.
    induction s as [| y s IH]; intros x Hl; [discriminate |].
    rewrite last_char_cons in Hl by discriminate. now apply (IH y).
Qed.

(** The lint accepts a balanced text that is empty or ends with a closing
    parenthesis or brace. *)
Lemma balanced_accepted (s : string) :
  balanced s = true -> closes s = true ->
  validate_when_rule s = accepted s.
Proof.
  intros Hb Hc. apply balanced_parts in Hb. destruct Hb as [H1 [H2 H3]].
  unfold validate_when_rule, accepted.
  rewrite H1, H2, !Nat.eqb_refl, (closes_not_dangling s Hc). cbn [negb].
  destruct H3 as [H3 | H3].
  - now rewrite H3.
  - rewrite H3. now destruct (has_char "@"%char s).
Qed.

Lemma rstrip_all_space (w : string) :
  all_space w = true -> rstrip w = EmptyString.
Proof.
  induction w as [| x w IH]; [reflexivity |].
  simpl. intros H. apply andb_true_iff in H. destruct H as [Hx Hw].
  now rewrite (IH Hw), Hx.
Qed.

Lemma rstrip_app_space (a w : string) :
  all_space w = true -> rstrip (a ++ w) = rstrip a.
Proof.
  intros Hw. induction a as [| x a IH].
  - simpl. now apply rstrip_all_space.
  - change (String x a ++ w) with (String x (a ++ w)).
    now rewrite !rstrip_cons, IH.
Qed.

(** Stripping on the left a text that holds a character that is no white
    space removes a prefix of white space only. *)
Lemma lstrip_keeps_tail (a b : string) (c : ascii) :
  is_space c = false ->
  exists a', lstrip (a ++ String c b) = a' ++ String c b.
Proof.
  intros Hc. induction a as [| x a IH].
  - exists EmptyString. simpl. now rewrite Hc.
  - change (String x a ++ String c b) with (String x (a ++ String c b)).
    cbn [lstrip]. destruct (is_space x).
    + exact IH.
    + now exists (String x a).
Qed.

(** After stripping, a text followed by an operator and white space ends
    with the operator. *)
Lemma strip_ends_with_operator (e op w : string) :
  In op ["&&"; "||"; "AND"; "OR"] ->
  all_space w = true ->
  endswith op (strip (e ++ op ++ w)) = true.
Proof.
  intros Hop Hw.
  assert (Hform : exists c1 mid c2,
             op = String c1 (mid ++ String c2 EmptyString)
             /\ is_space c1 = false /\ is_space c2 = false).
  { simpl in Hop.
    destruct Hop as [H | [H | [H | [H | []]]]]; subst op.
    - exists "&"%char, EmptyString, "&"%char. repeat split.
    - exists "|"%char, EmptyString, "|"%char. repeat split.
    - exists "A"%char, "N", "D"%char. repeat split.
    - exists "O"%char, EmptyString, "R"%char. repeat split. }
  destruct Hform as [c1 [mid [c2 [Eop [H1 H2]]]]].
  unfold strip.
  assert (Hl : exists a', lstrip (e ++ op ++ w) = a' ++ op ++ w).
  { rewrite Eop.
    change (String c1 (mid ++ String c2 EmptyString) ++ w)
      with (String c1 ((mid ++ String c2 EmptyString) ++ w)).
    apply lstrip_keeps_tail. exact H1. }
  destruct Hl as [a' Hl]. rewrite Hl.
  rewrite <- append_assoc, (rstrip_app_space _ w Hw).
  rewrite (rstrip_keeps (a' ++ op) c2).
  - apply endswith_app.
  - rewrite Eop.
    change (String c1 (mid ++ String c2 EmptyString))
      with (String c1 mid ++ String c2 EmptyString).
    rewrite <- append_assoc. apply last_char_end.
  - exact H2.
Qed.

(** X4.  Whatever text comes before, an expression that ends with [&&],
    [||], [AND] or [OR], followed or not by white space, is not valid, and
    the dangling-operator error is among the errors reported. *)
Theorem dangling_operator_rejected (e op w : string) :
  In op ["&&"; "||"; "AND"; "OR"] ->
  all_space w = true ->
  item (validate_when_rule (e ++ op ++ w)) "valid" = Some (PyBool false)
  /\ exists errors,
       item (validate_when_rule (e ++ op ++ w)) "errors"
       = Some (PyList errors)
       /\ In (PyStr "Expression ends with a dangling logical operator")
            errors.
Proof.
  intros Hop Hw.
  pose proof (strip_ends_with_operator e op w Hop Hw) as Hend.
  assert (Hex : existsb (fun suffix => endswith suffix (strip (e ++ op ++ w)))
                  ["&&"; "||"; "AND"; "OR"] = true).
  { apply existsb_exists. exists op. now split. }
  unfold validate_when_rule. rewrite Hex.
  set (x := e ++ op ++ w).
  destruct (Nat.eqb (count_char "("%char x) (count_char ")"%char x));
    destruct (Nat.eqb (count_char "{"%char x) (count_char "}"%char x));
    destruct (has_char "@"%char x); destruct (search_call x);
    cbn; (split; [reflexivity |]); eexists; (split; [reflexivity |]);
    simpl; tauto.
Qed.

Lemma dangling_operator_rejected_witness :
  item (validate_when_rule (".Age is greater than 18 " ++ "AND" ++ " "))
    "valid" = Some (PyBool false)
  /\ item (validate_when_rule (".VEND" ++ "OR" ++ EmptyString)) "valid"
     = Some (PyBool false).
Proof.
  split.
  - exact (proj1 (dangling_operator_rejected ".Age is greater than 18 " "AND"
                    " " (or_intror (or_intror (or_introl eq_refl))) eq_refl)).
  - exact (proj1 (dangling_operator_rejected ".VEND" "OR" EmptyString
                    (or_intror (or_intror (or_intror (or_introl eq_refl))))
                    eq_refl)).
Defined.

Lemma mapped_function_not_call_when (comp : option Comparator)
  (f : PegaFunction) :
  func_map_get comp = Some f -> f <> F_CALL_WHEN.
Proof.
  destruct comp as [[] |]; simpl; intros H; inversion H; discriminate.
Qed.

Lemma plain_quoted (v : string) : plain v = true -> plain (quoted v) = true.
Proof.
  intros H. unfold quoted. now rewrite !plain_app, H.
Qed.

(** The function-dialect token of a plain condition is balanced and ends
    with a closing parenthesis or brace. *)
Lemma plain_condition_token (c : Condition) :
  plain_condition c = true ->
  balanced (_condition_to_expr c true) = true
  /\ ends_closed (_condition_to_expr c true) = true.
Proof.
  unfold plain_condition.
  destruct (pega_function c) eqn:Hf; [discriminate |].
  rewrite !andb_true_iff. intros [[Hp Hv] Hr].
  unfold _condition_to_expr. rewrite Hf.
  destruct (is_rule_reference (condition_type c) && truthy (referenced_rule c))
    eqn:Href.
  - assert (E : forall n tf : string,
               "{Rule " ++ n ++ " evaluates to " ++ tf ++ "}"
               = "{" ++ ("Rule " ++ n ++ " evaluates to " ++ tf) ++ "}").
    { intros n tf. simpl. now rewrite !append_assoc. }
    apply andb_true_iff in Href. destruct Href as [_ Ht].
    destruct (referenced_rule c) as [n |]; [| discriminate].
    simpl in Hr. cbn [format_opt]. rewrite E. split.
    + apply balanced_wrap. apply plain_balanced.
      rewrite !plain_app, Hr. now destruct (rule_evaluates_to c).
    + rewrite <- !append_assoc. unfold ends_closed.
      now rewrite (last_char_end _ "}"%char).
  - unfold _build_function_expr_from_comparator.
    set (p := or_empty (property_reference c)) in *.
    set (v := or_empty (compare_value c)) in *.
    destruct (func_map_get (comparator c)) as [f |] eqn:Hm.
    + pose proof (mapped_function_not_call_when _ _ Hm) as Hcw.
      set (P := if apply_trim c && negb (comparator_is_magnitude (comparator c))
                then "@trim(" ++ p ++ ")" else p).
      assert (HP : balanced P = true).
      { subst P.
        destruct (apply_trim c
                  && negb (comparator_is_magnitude (comparator c))).
        - apply (balanced_call F_TRIM p); [discriminate |].
          now apply plain_balanced.
        - now apply plain_balanced. }
      destruct (function_is_unary f).
      * split.
        -- now apply balanced_call.
        -- do 3 apply ends_closed_app. reflexivity.
      * set (V := if negb (comparator_is_magnitude (comparator c))
                     && negb (startswith dquote v)
                  then if negb (looks_numeric v) then quoted v else v
                  else v).
        assert (HV : plain V = true).
        { subst V.
          destruct (negb (comparator_is_magnitude (comparator c))
                    && negb (startswith dquote v)); [| exact Hv].
          destruct (negb (looks_numeric v));
            [now apply plain_quoted | exact Hv]. }
        assert (E : P ++ ", " ++ V ++ ")" = (P ++ ", " ++ V) ++ ")")
          by now rewrite !append_assoc.
        rewrite E. split.
        -- apply balanced_call; [exact Hcw |].
           apply balanced_app; [exact HP |].
           apply plain_balanced. now rewrite plain_app, HV.
        -- do 3 apply ends_closed_app. reflexivity.
    + assert (E : p ++ " == " ++ v ++ ")" = (p ++ " == " ++ v) ++ ")")
        by now rewrite !append_assoc.
      rewrite E. split.
      * apply balanced_wrap. apply plain_balanced.
        now rewrite !plain_app, Hp, Hv.
      * do 2 apply ends_closed_app. reflexivity.
Qed.

(** The token of a group of plain conditions is balanced and ends with a
    closing parenthesis or brace. *)
Lemma plain_group_token (g : ConditionGroup) :
  forallb plain_condition (conditions g) = true ->
  balanced (group_expression true g) = true
  /\ ends_closed (group_expression true g) = true.
Proof.
  intros H. rewrite ExpressionFacts.group_expression_tokens.
  assert (Hall : Forall (fun t => balanced t = true /\ ends_closed t = true)
                   (map (fun c => _condition_to_expr c true) (conditions g))).
  { apply Forall_map. apply Forall_forall. intros c Hc.
    apply plain_condition_token.
    rewrite forallb_forall in H. now apply H. }
  set (tokens := map (fun c => _condition_to_expr c true) (conditions g)) in *.
  assert (Hwrap : balanced ("(" ++ join (" " ++ op_symbol (operator g) ++ " ")
                                      tokens ++ ")") = true
                  /\ ends_closed ("(" ++ join (" " ++ op_symbol (operator g)
                                               ++ " ") tokens ++ ")") = true).
  { split.
    - apply balanced_wrap. apply balanced_join.
      + now destruct (operator g).
      + eapply Forall_impl; [| exact Hall]. now intros t [Hb _].
    - do 2 apply ends_closed_app. reflexivity. }
  destruct tokens as [| t [| t2 rest]]; try exact Hwrap.
  inversion Hall; subst. assumption.
Qed.

(** The function-dialect expression of a plain rule is balanced and is
    empty or ends with a closing parenthesis or brace. *)
Lemma plain_rule_expression (r : WhenRule) :
  plain_rule r = true ->
  balanced (to_expression r true) = true
  /\ closes (to_expression r true) = true.
Proof.
  intros H. unfold plain_rule in H.
  assert (Hall : Forall (fun t => balanced t = true /\ ends_closed t = true)
                   (map (group_expression true) (condition_groups r))).
  { apply Forall_map. apply Forall_forall. intros g Hg.
    apply plain_group_token.
    rewrite forallb_forall in H. now apply H. }
  rewrite ExpressionFacts.to_expression_join.
  set (tokens := map (group_expression true) (condition_groups r)) in *.
  split.
  - apply balanced_join.
    + now destruct (group_operator r).
    + eapply Forall_impl; [| exact Hall]. now intros t [Hb _].
  - destruct tokens as [| t rest] eqn:E; [reflexivity |].
    assert (Hc : ends_closed (join (" " ++ op_symbol (group_operator r) ++ " ")
                                (t :: rest)) = true).
    { apply ends_closed_join; [discriminate |].
      eapply Forall_impl; [| exact Hall]. now intros t' [_ Hc]. }
    unfold ends_closed in Hc. unfold closes.
    now destruct (last_char _).
Qed.

(** X5.  The lint accepts every function-dialect expression of a rule
    whose conditions carry no explicit function and whose property names,
    values and rule names hold none of the characters [(], [)], [{], [}]
    and [@]. *)
Theorem lint_accepts_compiled_expression (r : WhenRule) :
  plain_rule r = true ->
  validate_when_rule (to_expression r true) = accepted (to_expression r true).
Proof.
  intros H. destruct (plain_rule_expression r H) as [Hb Hc].
  now apply balanced_accepted.
Qed.

Lemma lint_accepts_compiled_expression_witness :
  validate_when_rule (to_expression Samples.two_groups true)
  = accepted (to_expression Samples.two_groups true).
Proof.
  exact (lint_accepts_compiled_expression Samples.two_groups eq_refl).
Defined.

End LintFacts.

(** ** Comparator texts and well-formed specifications *)

Module ToolFacts.
Import PyStr Py Models Agent AgentTools Shape.

(** X6.  Every comparator is listed by [list_comparators] with its value
    and its name; given back as the comparator text of a condition entry,
    the value selects that comparator and no other comparator has the same
    value, while the name selects [EQUALS] like any unknown text. *)
Theorem comparator_value_round_trip (c : Comparator) :
  (exists listed,
     item list_comparators "comparators" = Some (PyList listed)
     /\ length listed = 15
     /\ In (PyDict [("value", PyStr (Comparator_value c));
                    ("name", PyStr (Comparator_name c))]) listed)
  /\ select_comparator (PyStr (Comparator_value c)) = c
  /\ (forall c', Comparator_value c' = Comparator_value c -> c' = c)
  /\ select_comparator (PyStr (Comparator_name c)) = EQUALS.
Proof.
  split; [| split; [| split]].
  - eexists. split; [reflexivity |]. split; [reflexivity |].
    destruct c; simpl; tauto.
  - destruct c; reflexivity.
  - intros c' H. destruct c, c'; solve [reflexivity | discriminate H].
  - destruct c; reflexivity.
Qed.

Lemma comparator_value_round_trip_witness :
  select_comparator (PyStr "is greater than") = GREATER_THAN
  /\ select_comparator (PyStr "GREATER_THAN") = EQUALS.
Proof.
  pose proof (comparator_value_round_trip GREATER_THAN) as H.
  split.
  - exact (proj1 (proj2 H)).
  - exact (proj2 (proj2 (proj2 H))).
Defined.

(** A loop whose body succeeds on every item succeeds, with one result
    per item. *)
Lemma for_each_succeeds {A B : Type} (body : A -> result B) (l : list A) :
  Forall (fun x => exists y, body x = Ok y) l ->
  exists ys, for_each body l = Ok ys
             /\ Forall2 (fun x y => body x = Ok y) l ys.
Proof.
  intros H. induction H as [| x l [y Hy] Hl [ys [IH1 IH2]]].
  - exists []. split; [reflexivity | constructor].
  - exists (y :: ys). simpl. rewrite Hy. simpl. rewrite IH1. simpl.
    split; [reflexivity | now constructor].
Qed.

Section Tool.

Variable json_loads : string -> value + string.
Variable validate_str : value -> option string.
Variable validate_bool : value -> option bool.

Hypothesis validate_str_accepts : forall s, validate_str (PyStr s) = Some s.
Hypothesis validate_bool_accepts :
  forall b, validate_bool (PyBool b) = Some b.

Lemma text_field_accepted (o : option value) (default : string) :
  text_or_absent o = true ->
  exists r,
    optional_str_field validate_str
      (match o with Some x => x | None => PyStr default end) = Ok r.
Proof.
  destruct o as [[] |]; try discriminate; intros _; simpl;
    try rewrite validate_str_accepts; eexists; reflexivity.
Qed.

Lemma null_field_accepted (o : option value) :
  text_or_absent o = true ->
  exists r,
    optional_str_field validate_str
      (match o with Some x => x | None => PyNone end) = Ok r.
Proof.
  destruct o as [[] |]; try discriminate; intros _; simpl;
    try rewrite validate_str_accepts; eexists; reflexivity.
Qed.

Lemma flag_field_accepted (o : option value) (default : bool) :
  flag_or_absent o = true ->
  exists r,
    bool_field validate_bool
      (match o with Some x => x | None => PyBool default end) = Ok r.
Proof.
  destruct o as [[] |]; try discriminate; intros _; unfold bool_field;
    rewrite validate_bool_accepts; eexists; reflexivity.
Qed.

(** A well-formed entry builds a condition. *)
Lemma entry_builds (v : value) :
  entry_ok v = true ->
  exists c, build_condition validate_str validate_bool v = Ok c.
Proof.
  destruct v; try discriminate. simpl.
  unfold build_condition. simpl.
  destruct (dict_has "rule" entries).
  - rewrite andb_true_iff. intros [H1 H2].
    destruct (null_field_accepted _ H1) as [r1 E1].
    destruct (flag_field_accepted _ true H2) as [r2 E2].
    rewrite E1. simpl. rewrite E2. simpl. eexists. reflexivity.
  - rewrite !andb_true_iff. intros [[[H1 H2] H3] H4].
    destruct (text_field_accepted _ EmptyString H1) as [r1 E1].
    destruct (null_field_accepted _ H2) as [r2 E2].
    match goal with
    | |- context [bool_field validate_bool
                    match dict_get "apply_trim" entries with
                    | Some x => x
                    | None => PyBool ?d
                    end] =>
        destruct (flag_field_accepted _ d H3) as [r3 E3]
    end.
    destruct (flag_field_accepted _ false H4) as [r4 E4].
    rewrite E1. simpl. rewrite E2. simpl. rewrite E3. simpl.
    rewrite E4. simpl. eexists. reflexivity.
Qed.

(** A well-formed group builds a group with one condition per entry,
    combined with AND exactly when the [operator] key is missing or holds
    the text [AND]. *)
Lemma group_builds (v : value) :
  group_ok v = true ->
  exists g entries,
    build_group validate_str validate_bool v = Ok g
    /\ group_entries v = Some entries
    /\ length (conditions g) = length entries.
Proof.
  unfold group_ok. destruct (group_entries v) as [es |] eqn:E; [| discriminate].
  intros Hall.
  assert (Hloop : exists cs,
             for_each (build_condition validate_str validate_bool) es = Ok cs
             /\ Forall2 (fun x y => build_condition validate_str validate_bool x
                                    = Ok y) es cs).
  { apply for_each_succeeds. apply Forall_forall. intros x Hx.
    apply entry_builds. rewrite forallb_forall in Hall. now apply Hall. }
  destruct Hloop as [cs [Hcs Hrel]].
  destruct v; try discriminate.
  unfold group_entries in E. unfold build_group. simpl.
  assert (Hlen : length cs = length es)
    by (symmetry; eapply Forall2_length; exact Hrel).
  destruct (dict_get "conditions" entries) as [[] |]; try discriminate;
    inversion E; subst es; cbn [iter bind]; rewrite Hcs; cbn [bind];
    eexists; eexists; (split; [reflexivity |]); (split; [reflexivity |]);
    exact Hlen.
Qed.

Lemma built_groups_shape (gs : list value) (groups : list ConditionGroup) :
  Forall2 (fun x y => build_group validate_str validate_bool x = Ok y)
    gs groups ->
  forallb group_ok gs = true ->
  Forall2 (fun v g =>
             exists es, group_entries v = Some es
                        /\ length (conditions g) = length es)
    gs groups.
Proof.
  intros Hrel. induction Hrel as [| x g xs gs' Hx Hrest IH]; intros Hall.
  - constructor.
  - simpl in Hall. apply andb_true_iff in Hall. destruct Hall as [Hok Hall].
    constructor; [| now apply IH].
    destruct (group_builds x Hok) as [g' [es [Hg [He Hl]]]].
    rewrite Hx in Hg. inversion Hg; subst g'. now exists es.
Qed.

(** The groups that a well-formed document builds. *)
Lemma document_builds (name context descr text : string)
  (campaign : option string) (doc : value) :
  json_loads text = inl doc ->
  document_ok doc = true ->
  exists groups entries group_op,
    document_groups doc = Some entries
    /\ Forall2 (fun v g =>
                  exists es, group_entries v = Some es
                             /\ length (conditions g) = length es)
         entries groups
    /\ create_when_rule json_loads validate_str validate_bool
         name context descr text campaign
       = Ok (let when_rule :=
               {| rule_name := name;
                  applies_to := context;
                  description := descr;
                  condition_groups := groups;
                  group_operator := group_op;
                  campaign_id := campaign |} in
             PyDict
               [("status", PyStr "success");
                ("rule_name", PyStr name);
                ("applies_to", PyStr context);
                ("campaign_id", py_opt_str campaign);
                ("expression", PyStr (to_expression when_rule true));
                ("expression_simple", PyStr (to_expression when_rule false));
                ("xml", PyStr (to_pega_xml when_rule));
                ("api_payload", to_dict when_rule)]).
Proof.
  intros Hload. unfold document_ok.
  destruct (document_groups doc) as [gs |] eqn:E; [| discriminate].
  intros Hall.
  assert (Hloop : exists groups,
             for_each (build_group validate_str validate_bool) gs = Ok groups
             /\ Forall2 (fun x y => build_group validate_str validate_bool x
                                    = Ok y) gs groups).
  { apply for_each_succeeds. apply Forall_forall. intros x Hx.
    rewrite forallb_forall in Hall.
    destruct (group_builds x (Hall x Hx)) as [g [es [Hg _]]].
    now exists g. }
  destruct Hloop as [groups [Hgroups Hrel]].
  assert (Hshape : Forall2 (fun v g =>
                              exists es, group_entries v = Some es
                                         /\ length (conditions g) = length es)
                     gs groups).
  { now apply built_groups_shape. }
  destruct doc; try discriminate.
  unfold document_groups in E.
  unfold create_when_rule. rewrite Hload. simpl.
  destruct (dict_get "groups" entries) as [[] |]; try discriminate;
    inversion E; subst gs; cbn [iter bind]; rewrite Hgroups; cbn [bind];
    eexists; eexists; eexists; (split; [reflexivity |]);
    (split; [exact Hshape | reflexivity]).
Qed.

(** X7.  On a specification of the documented shape (a map whose [groups],
    when present, is a list of maps whose [conditions], when present, is
    a list of maps with text and boolean fields) the tool raises nothing
    and returns the success reply: it carries the name, the context and
    both expressions and no [error] key. *)
Theorem well_formed_specification_succeeds (name context descr text : string)
  (campaign : option string) (doc : value) :
  json_loads text = inl doc ->
  document_ok doc = true ->
  exists reply function_text simple_text,
    create_when_rule json_loads validate_str validate_bool
      name context descr text campaign = Ok reply
    /\ item reply "status" = Some (PyStr "success")
    /\ item reply "error" = None
    /\ item reply "rule_name" = Some (PyStr name)
    /\ item reply "applies_to" = Some (PyStr context)
    /\ item reply "expression" = Some (PyStr function_text)
    /\ item reply "expression_simple" = Some (PyStr simple_text).
Proof.
  intros Hload Hok.
  destruct (document_builds name context descr text campaign doc Hload Hok)
    as [groups [entries [group_op [_ [_ Hrun]]]]].
  eexists. eexists. eexists. split; [exact Hrun |].
  repeat split.
Qed.

(** X8.  On such a specification the [pyConditions] of the reply's
    [api_payload] hold as many records as the specification has condition
    entries. *)
Theorem payload_has_one_record_per_entry (name context descr text : string)
  (campaign : option string) (doc : value) :
  json_loads text = inl doc ->
  document_ok doc = true ->
  exists reply payload records,
    create_when_rule json_loads validate_str validate_bool
      name context descr text campaign = Ok reply
    /\ item reply "api_payload" = Some payload
    /\ item payload "pyConditions" = Some (PyList records)
    /\ length records = entry_count doc.
Proof.
  intros Hload Hok.
  destruct (document_builds name context descr text campaign doc Hload Hok)
    as [groups [entries [group_op [Hdoc [Hshape Hrun]]]]].
  eexists. eexists. eexists. split; [exact Hrun |].
  split; [reflexivity |]. split; [reflexivity |].
  rewrite DictFacts.conditions_list_flat_map,
    DictFacts.length_flat_map_conditions.
  unfold entry_count. rewrite Hdoc. simpl condition_groups.
  clear Hrun Hdoc. induction Hshape as [| v g vs gs [es [He Hl]] _ IH];
    [reflexivity |].
  simpl. rewrite He, length_map, Hl. f_equal. exact IH.
Qed.

(** X9.  The group built from a map combines its conditions with AND
    exactly when the [operator] key is missing or holds the text [AND];
    any other value, [and] or [OR] alike, gives OR. *)
Theorem group_operator_is_and_only_for_exact_text (d : dict)
  (g : ConditionGroup) :
  build_group validate_str validate_bool (PyDict d) = Ok g ->
  (operator g = AND <->
   dict_get "operator" d = None \/ dict_get "operator" d = Some (PyStr "AND")).
Proof.
  unfold build_group. simpl.
  destruct (iter _) as [items |]; simpl; [| discriminate].
  destruct (for_each _ items) as [cs |]; simpl; [| discriminate].
  intros H. inversion H; subst g; clear H. simpl.
  destruct (dict_get "operator" d) as [v |].
  - destruct (eq_str v "AND") eqn:E.
    + unfold eq_str in E. destruct v; try discriminate.
      apply String.eqb_eq in E. subst s.
      split; [now right | reflexivity].
    + split; [discriminate |].
      intros [H | H]; [discriminate |]. inversion H; subst v.
      discriminate.
  - split; [now left | reflexivity].
Qed.

End Tool.

Lemma well_formed_specification_succeeds_witness :
  exists reply function_text simple_text,
    run_create_when_rule "IsPremier" "Customer Eligibility" "sample"
      Samples.roughly_spec None = Ok reply
    /\ item reply "status" = Some (PyStr "success")
    /\ item reply "error" = None
    /\ item reply "rule_name" = Some (PyStr "IsPremier")
    /\ item reply "applies_to" = Some (PyStr "Customer Eligibility")
    /\ item reply "expression" = Some (PyStr function_text)
    /\ item reply "expression_simple" = Some (PyStr simple_text).
Proof.
  exact (well_formed_specification_succeeds Json.loads Pydantic.strict_str
           Pydantic.strict_bool (fun _ => eq_refl) (fun _ => eq_refl)
           "IsPremier" "Customer Eligibility" "sample" Samples.roughly_spec
           None MoreSamples.roughly_document eq_refl eq_refl).
Defined.

Lemma payload_has_one_record_per_entry_witness :
  exists reply payload records,
    run_create_when_rule "IsPremier" "Customer Eligibility" "sample"
      Samples.roughly_spec None = Ok reply
    /\ item reply "api_payload" = Some payload
    /\ item payload "pyConditions" = Some (PyList records)
    /\ length records = 1.
Proof.
  exact (payload_has_one_record_per_entry Json.loads Pydantic.strict_str
           Pydantic.strict_bool (fun _ => eq_refl) (fun _ => eq_refl)
           "IsPremier" "Customer Eligibility" "sample" Samples.roughly_spec
           None MoreSamples.roughly_document eq_refl eq_refl).
Defined.

Lemma group_operator_is_and_only_for_exact_text_witness :
  build_group Pydantic.strict_str Pydantic.strict_bool
    (PyDict MoreSamples.lower_case_and_group)
  = Ok {| conditions := []; operator := OR |}
  /\ (operator {| conditions := []; operator := OR |} = AND <->
      dict_get "operator" MoreSamples.lower_case_and_group = None
      \/ dict_get "operator" MoreSamples.lower_case_and_group
         = Some (PyStr "AND")).
Proof.
  split; [reflexivity |].
  exact (group_operator_is_and_only_for_exact_text
           Pydantic.strict_str Pydantic.strict_bool
           MoreSamples.lower_case_and_group
           {| conditions := []; operator := OR |} eq_refl).
Defined.

End ToolFacts.

(** ** The expression syntax module beside the rule model *)

Module SyntaxFacts.
Import PyStr PyText Py Models StrFacts.

Lemma append_cancel_l (a x y : string) : a ++ x = a ++ y -> x = y.
Proof.
  induction a as [| c a IH]; simpl; intros H; [exact H |].
  inversion H. now apply IH.
Qed.

Lemma append_cancel_r (x y : string) (c : ascii) :
  x ++ String c EmptyString = y ++ String c EmptyString -> x = y.
Proof.
  revert y. induction x as [| a x IH]; intros [| b y] H; simpl in H.
  - reflexivity.
  - inversion H. now destruct y.
  - inversion H. now destruct x.
  - inversion H. f_equal. now apply IH.
Qed.

Lemma remove_char_absent (c : ascii) (s : string) :
  has_char c s = false -> remove_char c s = s.
Proof.
  induction s as [| a s IH]; simpl; [reflexivity |].
  intros H. apply orb_false_iff in H. destruct H as [Ha Hs].
  now rewrite Ha, IH.
Qed.

(** X10.  [build_rule_reference] renders as
    [{Rule <name> evaluates to true}] or [... false}] for every name; the
    rule model renders a reference to the same rule as the same text in
    both dialects when the name is not empty, and as [( == )] in its
    function dialect when it is. *)
Theorem rule_reference_agrees_with_models (name : string)
  (evaluates_to dialect : bool) :
  PegaSyntax.Condition_to_expression
    (PegaSyntax.build_rule_reference name evaluates_to)
  = "{Rule " ++ name ++ " evaluates to "
    ++ (if evaluates_to then "true" else "false") ++ "}"
  /\ (name <> EmptyString ->
      _condition_to_expr
        (MoreSamples.reference_condition name evaluates_to) dialect
      = PegaSyntax.Condition_to_expression
          (PegaSyntax.build_rule_reference name evaluates_to))
  /\ (name = EmptyString ->
      _condition_to_expr
        (MoreSamples.reference_condition name evaluates_to) true
      = "( == )").
Proof.
  split; [reflexivity |]. split.
  - intros Hn. destruct name as [| a name]; [now destruct Hn |].
    reflexivity.
  - intros Hn. subst name. reflexivity.
Qed.

Lemma rule_reference_agrees_with_models_witness :
  _condition_to_expr (MoreSamples.reference_condition "IsHKID" false) false
  = PegaSyntax.Condition_to_expression
      (PegaSyntax.build_rule_reference "IsHKID" false).
Proof.
  apply (proj1 (proj2 (rule_reference_agrees_with_models "IsHKID" false
                         false))).
  discriminate.
Defined.

Lemma numeric_function_is_binary (op : string) (f : PegaSyntax.PegaFunction) :
  PegaSyntax.numeric_func_map op = Some f ->
  PegaSyntax.function_is_unary f = false.
Proof.
  unfold PegaSyntax.numeric_func_map.
  destruct (String.eqb op ">"); [intros H; now inversion H |].
  destruct (String.eqb op ">="); [intros H; now inversion H |].
  destruct (String.eqb op "<"); [intros H; now inversion H |].
  destruct (String.eqb op "<="); [intros H; now inversion H |].
  discriminate.
Qed.

(** The call that [build_numeric_comparison] renders for one of its four
    operators. *)
Lemma numeric_comparison_call (p v op : string)
  (f : PegaSyntax.PegaFunction) :
  PegaSyntax.numeric_func_map op = Some f ->
  PegaSyntax.Condition_to_expression
    (PegaSyntax.build_numeric_comparison p v op)
  = PegaSyntax.PegaFunction_value f ++ "(" ++ p ++ ", "
    ++ (if negb (truthy (Some v)) || startswith dquote v || isdigit v
        then v else dquote ++ v ++ dquote)
    ++ ")".
Proof.
  intros Hf. unfold PegaSyntax.build_numeric_comparison. rewrite Hf.
  unfold PegaSyntax.Condition_to_expression. cbn [PegaSyntax.rule_reference
    PegaSyntax.simple_operator PegaSyntax.function PegaSyntax.apply_trim
    PegaSyntax.property_ref PegaSyntax.compare_value truthy format_opt].
  rewrite (numeric_function_is_binary op f Hf).
  destruct v as [| a v']; [reflexivity |].
  cbn [truthy negb andb orb].
  now destruct (startswith dquote (String a v')), (isdigit (String a v')).
Qed.

(** X11.  [build_numeric_comparison] with one of the operators [>], [>=],
    [<], [<=] renders as a call of the matching function on the bare
    property, the value wrapped in double quotes unless it is empty,
    starts with a double quote or passes [str.isdigit]; with any other
    operator it renders as [(<property> <operator> <value>)], and with
    the empty operator as the empty text. *)
Theorem numeric_comparison_rendering (p v op : string) :
  let rendered :=
    PegaSyntax.Condition_to_expression
      (PegaSyntax.build_numeric_comparison p v op) in
  (forall f,
     PegaSyntax.numeric_func_map op = Some f ->
     rendered
     = PegaSyntax.PegaFunction_value f ++ "(" ++ p ++ ", "
       ++ (if negb (truthy (Some v)) || startswith dquote v || isdigit v
           then v else dquote ++ v ++ dquote)
       ++ ")")
  /\ (PegaSyntax.numeric_func_map op = None ->
      op <> EmptyString ->
      rendered = "(" ++ p ++ " " ++ op ++ " " ++ v ++ ")")
  /\ (op = EmptyString -> rendered = EmptyString).
Proof.
  intros rendered. subst rendered. split; [| split].
  - intros f Hf. now apply numeric_comparison_call.
  - intros Hf Hop. unfold PegaSyntax.build_numeric_comparison. rewrite Hf.
    destruct op as [| a op]; [now destruct Hop |]. reflexivity.
  - intros Hop. subst op. reflexivity.
Qed.

Lemma numeric_comparison_rendering_witness :
  PegaSyntax.Condition_to_expression
    (PegaSyntax.build_numeric_comparison "AGE_NUM" "1.5" ">")
  = "@greaterThan(AGE_NUM, " ++ dquote ++ "1.5" ++ dquote ++ ")"
  /\ PegaSyntax.Condition_to_expression
       (PegaSyntax.build_numeric_comparison "AGE_NUM" "18" "==")
     = "(AGE_NUM == 18)".
Proof.
  split.
  - exact (proj1 (numeric_comparison_rendering "AGE_NUM" "1.5" ">")
             PegaSyntax.GREATER_THAN eq_refl).
  - apply (proj1 (proj2 (numeric_comparison_rendering "AGE_NUM" "18" "==")));
      [reflexivity | discriminate].
Defined.

(** X12.  A magnitude comparison built by [build_numeric_comparison] and
    the function dialect of the rule model give the same text exactly
    when the value is empty, starts with a double quote or passes
    [str.isdigit]: the rule model leaves every value bare, the syntax
    module wraps a decimal or negative number in double quotes. *)
Theorem numeric_comparison_vs_models (p v op : string)
  (f : PegaSyntax.PegaFunction) (comp : Comparator) (f' : PegaFunction)
  (trim : bool) :
  PegaSyntax.numeric_func_map op = Some f ->
  func_map_get (Some comp) = Some f' ->
  comparator_is_magnitude (Some comp) = true ->
  PegaSyntax.PegaFunction_value f = PegaFunction_value f' ->
  _condition_to_expr (MoreSamples.comparison_condition p comp v trim) true
  = PegaFunction_value f' ++ "(" ++ p ++ ", " ++ v ++ ")"
  /\ (PegaSyntax.Condition_to_expression
        (PegaSyntax.build_numeric_comparison p v op)
      = _condition_to_expr (MoreSamples.comparison_condition p comp v trim)
          true
      <-> v = EmptyString \/ startswith dquote v = true \/ isdigit v = true).
Proof.
  intros Hf Hm Hmag Hval.
  assert (Hmodel :
    _condition_to_expr (MoreSamples.comparison_condition p comp v trim) true
    = PegaFunction_value f' ++ "(" ++ p ++ ", " ++ v ++ ")").
  { assert (Hu : comparator_is_unary comp = false)
      by (destruct comp; simpl in Hmag; try discriminate; reflexivity).
    rewrite (ConditionFacts.function_dialect_from_comparator
               (MoreSamples.comparison_condition p comp v trim)
               eq_refl eq_refl).
    rewrite (ConditionFacts.from_comparator_binary
               (MoreSamples.comparison_condition p comp v trim) comp f'
               eq_refl Hm Hu).
    rewrite Hmag. simpl. now rewrite andb_false_r. }
  split; [exact Hmodel |].
  rewrite Hmodel.
  rewrite (numeric_comparison_call p v op f Hf), Hval.
  split.
  - intros H.
    apply append_cancel_l in H. apply (append_cancel_l "(") in H.
    apply append_cancel_l in H. apply (append_cancel_l ", ") in H.
    apply append_cancel_r in H.
    destruct v as [| a v']; [now left |]. right.
    cbn [truthy negb orb] in H.
    destruct (startswith dquote (String a v')); [now left |].
    destruct (isdigit (String a v')); [now right |].
    exfalso. exact (ConditionFacts.quoted_differs _ H).
  - intros [H | [H | H]].
    + subst v. reflexivity.
    + now rewrite H, orb_true_r.
    + now rewrite H, orb_true_r.
Qed.

Lemma numeric_comparison_vs_models_witness :
  _condition_to_expr
    (MoreSamples.comparison_condition "AGE_NUM" GREATER_THAN "18" false) true
  = "@greaterThan(AGE_NUM, 18)"
  /\ (PegaSyntax.Condition_to_expression
        (PegaSyntax.build_numeric_comparison "AGE_NUM" "18" ">")
      = _condition_to_expr
          (MoreSamples.comparison_condition "AGE_NUM" GREATER_THAN "18" false)
          true
      <-> "18" = EmptyString \/ startswith dquote "18" = true
          \/ isdigit "18" = true).
Proof.
  exact (numeric_comparison_vs_models "AGE_NUM" "18" ">"
           PegaSyntax.GREATER_THAN GREATER_THAN F_GREATER_THAN false
           eq_refl eq_refl eq_refl eq_refl).
Defined.

(** X13.  A group of the syntax module and a group of the rule model
    with the same condition tokens and the same operator symbol render
    alike when they hold a condition; without conditions the rule model
    gives [()] and the syntax module the empty text. *)
Theorem group_rendering_vs_models (g : ConditionGroup)
  (g' : PegaSyntax.ConditionGroup) (b : bool) :
  map (fun c => _condition_to_expr c b) (conditions g)
  = map PegaSyntax.Condition_to_expression (PegaSyntax.conditions g') ->
  op_symbol (operator g)
  = PegaSyntax.LogicalOperator_value (PegaSyntax.operator g') ->
  (conditions g <> [] ->
   group_expression b g = PegaSyntax.ConditionGroup_to_expression g')
  /\ (conditions g = [] ->
      group_expression b g = "()"
      /\ PegaSyntax.ConditionGroup_to_expression g' = EmptyString).
Proof.
  intros Htok Hop.
  rewrite ExpressionFacts.group_expression_tokens, Htok, Hop.
  unfold PegaSyntax.ConditionGroup_to_expression.
  split.
  - intros Hne.
    destruct (PegaSyntax.conditions g') as [| c' cs'] eqn:E.
    + destruct (conditions g); [now destruct Hne | discriminate].
    + destruct cs' as [| c2 cs']; reflexivity.
  - intros He. rewrite He in Htok.
    destruct (PegaSyntax.conditions g') as [| c' cs']; [| discriminate].
    split; reflexivity.
Qed.

Lemma group_rendering_vs_models_witness :
  group_expression true
    {| conditions := [MoreSamples.reference_condition "IsHKID" true;
                      MoreSamples.reference_condition "IsTcTi" false];
       operator := OR |}
  = PegaSyntax.ConditionGroup_to_expression
      {| PegaSyntax.conditions :=
           [PegaSyntax.build_rule_reference "IsHKID" true;
            PegaSyntax.build_rule_reference "IsTcTi" false];
         PegaSyntax.operator := PegaSyntax.OR |}.
Proof.
  apply (proj1 (group_rendering_vs_models
                  {| conditions :=
                       [MoreSamples.reference_condition "IsHKID" true;
                        MoreSamples.reference_condition "IsTcTi" false];
                     operator := OR |}
                  {| PegaSyntax.conditions :=
                       [PegaSyntax.build_rule_reference "IsHKID" true;
                        PegaSyntax.build_rule_reference "IsTcTi" false];
                     PegaSyntax.operator := PegaSyntax.OR |}
                  true eq_refl eq_refl)).
  discriminate.
Defined.

(** X14.  A case-insensitive comparison built by
    [build_string_comparison] and the function dialect of the rule model
    for [EQUALS] or [NOT_EQUALS] give the same text when the value is not
    empty and holds neither [.] nor [-]. *)
Theorem string_comparison_agrees_with_models (p v : string)
  (trim negate : bool) :
  v <> EmptyString ->
  has_char "."%char v = false ->
  has_char "-"%char v = false ->
  PegaSyntax.Condition_to_expression
    (PegaSyntax.build_string_comparison p v true trim negate)
  = _condition_to_expr
      (MoreSamples.comparison_condition p
         (if negate then NOT_EQUALS else EQUALS) v trim) true.
Proof.
  intros Hne Hdot Hdash.
  assert (Hnum : looks_numeric v = isdigit v).
  { unfold looks_numeric. now rewrite (remove_char_absent "."%char v Hdot),
      (remove_char_absent "-"%char v Hdash). }
  destruct v as [| a v']; [now destruct Hne |].
  rewrite (ConditionFacts.function_dialect_from_comparator
             (MoreSamples.comparison_condition p
                (if negate then NOT_EQUALS else EQUALS) (String a v') trim)
             eq_refl eq_refl).
  unfold _build_function_expr_from_comparator,
    PegaSyntax.Condition_to_expression, PegaSyntax.build_string_comparison.
  destruct negate;
    cbn [MoreSamples.comparison_condition comparator func_map_get
         property_reference compare_value apply_trim or_empty
         comparator_is_magnitude function_is_unary negb andb
         PegaSyntax.rule_reference PegaSyntax.simple_operator
         PegaSyntax.function PegaSyntax.apply_trim PegaSyntax.property_ref
         PegaSyntax.compare_value PegaSyntax.function_is_unary truthy
         format_opt PegaFunction_value PegaSyntax.PegaFunction_value];
    rewrite Hnum, andb_true_r; unfold quoted;
    destruct trim, (startswith dquote (String a v')),
      (isdigit (String a v')); reflexivity.
Qed.

Lemma string_comparison_agrees_with_models_witness :
  PegaSyntax.Condition_to_expression
    (PegaSyntax.build_string_comparison "CUST_SEG" "Premier" true true false)
  = _condition_to_expr
      (MoreSamples.comparison_condition "CUST_SEG" EQUALS "Premier" true) true.
Proof.
  apply (string_comparison_agrees_with_models "CUST_SEG" "Premier" true false);
    [discriminate | reflexivity | reflexivity].
Defined.

End SyntaxFacts.

(** ** The data source suggestion *)

Module DomainFacts.
Import PyStr PyText Py HsbcDomain.

(** X15.  [suggest_data_source] always has a suggestion, and its
    recommendation is the first of them: INVESTMENT when an investment
    keyword occurs in the lower-cased hint, else ELIGIBILITY, else AAR,
    else MAR for their keywords, and CAR only when none of these
    occurs. *)
Theorem recommendation_precedence (hint : string) :
  let h := lower hint in
  exists first rest,
    suggestions_for hint = first :: rest
    /\ item (suggest_data_source hint) "recommendation" = Some first
    /\ item (suggest_data_source hint) "suggestions"
       = Some (PyList (first :: rest))
    /\ item first "table"
       = Some (PyStr
                 (if any_keyword investment_keywords h then "INVESTMENT"
                  else if any_keyword eligibility_keywords h then "ELIGIBILITY"
                  else if any_keyword account_keywords h then "AAR"
                  else if any_keyword model_keywords h then "MAR"
                  else "CAR")).
Proof.
  intros h. unfold suggest_data_source, suggestions_for. fold h.
  destruct (any_keyword investment_keywords h);
    destruct (any_keyword eligibility_keywords h);
    destruct (any_keyword account_keywords h);
    destruct (any_keyword model_keywords h);
    destruct (any_keyword customer_keywords h);
    cbn; eexists; eexists; repeat split.
Qed.

End DomainFacts.

(** ** The tool and its lint together *)

Module EndToEndFacts.
Import PyStr PyText Py Models Agent AgentTools Shape PlainShape Lint.

(** What a finished loop returned, item by item. *)
Lemma for_each_results {A B : Type} (body : A -> result B) (l : list A)
  (ys : list B) :
  for_each body l = Ok ys -> Forall2 (fun x y => body x = Ok y) l ys.
Proof.
  revert ys. induction l as [| x l IH]; intros ys H; simpl in H.
  - inversion H. constructor.
  - destruct (body x) as [y |] eqn:Hx; simpl in H; [| discriminate].
    destruct (for_each body l) as [ys' |]; simpl in H; [| discriminate].
    inversion H; subst ys. constructor; [exact Hx | now apply IH].
Qed.

Section Tool.

Variable json_loads : string -> value + string.
Variable validate_str : value -> option string.
Variable validate_bool : value -> option bool.

Hypothesis validate_str_accepts : forall s, validate_str (PyStr s) = Some s.
Hypothesis validate_bool_accepts :
  forall b, validate_bool (PyBool b) = Some b.

(** X16.  A text that the decoder refuses gives the error reply and
    raises nothing: its only key is [error], whose message is the prefix
    [Invalid JSON in conditions: ] followed by the decoder's words, and it
    has none of the keys of a success reply. *)
Theorem undecodable_text_gives_error_reply (name context descr text e : string)
  (campaign : option string) :
  json_loads text = inr e ->
  exists reply message,
    create_when_rule json_loads validate_str validate_bool
      name context descr text campaign = Ok reply
    /\ reply = PyDict [("error", PyStr message)]
    /\ message = "Invalid JSON in conditions: " ++ e
    /\ message <> EmptyString
    /\ item reply "status" = None
    /\ item reply "expression" = None
    /\ item reply "api_payload" = None.
Proof.
  intros H. unfold create_when_rule. rewrite H.
  eexists. eexists. split; [reflexivity |].
  repeat split. discriminate.
Qed.

(** A well-formed entry with plain texts builds a plain condition. *)
Lemma entry_builds_plain (v : value) (c : Condition) :
  entry_ok v = true ->
  entry_plain v = true ->
  build_condition validate_str validate_bool v = Ok c ->
  plain_condition c = true.
Proof.
  destruct v as [| | | | | | d]; try discriminate.
  unfold entry_ok, entry_plain, build_condition.
  cbn [contains get bind].
  rewrite !andb_true_iff. intros Hok [[Hp Hv] Hr].
  destruct (dict_has "rule" d).
  - apply andb_true_iff in Hok. destruct Hok as [H1 H2].
    destruct (dict_get "rule" d) as [[] |]; try discriminate;
      destruct (dict_get "evaluates_to" d) as [[] |]; try discriminate;
      unfold optional_str_field, bool_field;
      rewrite ?validate_str_accepts, ?validate_bool_accepts;
      cbn [bind]; intros H; inversion H; subst;
      unfold plain_condition; cbn; simpl in Hr; try rewrite Hr; reflexivity.
  - rewrite !andb_true_iff in Hok. destruct Hok as [[[H1 H2] H3] H4].
    destruct (dict_get "property" d) as [[] |]; try discriminate;
      destruct (dict_get "value" d) as [[] |]; try discriminate;
      destruct (dict_get "apply_trim" d) as [[] |]; try discriminate;
      destruct (dict_get "is_property" d) as [[] |]; try discriminate;
      unfold optional_str_field, bool_field;
      rewrite ?validate_str_accepts, ?validate_bool_accepts;
      cbn [bind]; intros H; inversion H; subst;
      unfold plain_condition; cbn; simpl in Hp, Hv;
      rewrite ?Hp, ?Hv; reflexivity.
Qed.

Lemma entries_build_plain (es : list value) (cs : list Condition) :
  Forall2 (fun x y => build_condition validate_str validate_bool x = Ok y)
    es cs ->
  forallb entry_ok es = true ->
  forallb entry_plain es = true ->
  forallb plain_condition cs = true.
Proof.
  intros H. induction H as [| x y xs ys Hx _ IH]; intros Hok Hpl;
    [reflexivity |].
  simpl in *. apply andb_true_iff in Hok. apply andb_true_iff in Hpl.
  destruct Hok as [Hok1 Hok2]. destruct Hpl as [Hpl1 Hpl2].
  now rewrite (entry_builds_plain x y Hok1 Hpl1 Hx), IH.
Qed.

(** A well-formed group with plain texts builds plain conditions. *)
Lemma group_builds_plain (v : value) (g : ConditionGroup) :
  group_ok v = true ->
  group_plain v = true ->
  build_group validate_str validate_bool v = Ok g ->
  forallb plain_condition (conditions g) = true.
Proof.
  unfold group_ok, group_plain.
  destruct (group_entries v) as [es |] eqn:E; [| discriminate].
  intros Hok Hpl.
  destruct v as [| | | | | | d]; try discriminate.
  unfold group_entries in E. unfold build_group. cbn [get bind].
  assert (Hloop : forall cs,
             for_each (build_condition validate_str validate_bool) es = Ok cs ->
             forallb plain_condition cs = true).
  { intros cs Hcs. apply for_each_results in Hcs.
    now apply (entries_build_plain es cs Hcs). }
  destruct (dict_get "conditions" d) as [[] |]; try discriminate;
    inversion E; subst es; cbn [iter bind];
    destruct (for_each _ _) as [cs |] eqn:Hcs; cbn [bind];
    try discriminate; intros H; inversion H; subst g; simpl;
    now apply Hloop.
Qed.

Lemma groups_build_plain (gs : list value) (groups : list ConditionGroup) :
  Forall2 (fun x y => build_group validate_str validate_bool x = Ok y)
    gs groups ->
  forallb group_ok gs = true ->
  forallb group_plain gs = true ->
  forallb (fun g => forallb plain_condition (conditions g)) groups = true.
Proof.
  intros H. induction H as [| x y xs ys Hx _ IH]; intros Hok Hpl;
    [reflexivity |].
  simpl in *. apply andb_true_iff in Hok. apply andb_true_iff in Hpl.
  destruct Hok as [Hok1 Hok2]. destruct Hpl as [Hpl1 Hpl2].
  now rewrite (group_builds_plain x y Hok1 Hpl1 Hx), IH.
Qed.

(** X17.  On a specification of the documented shape whose property
    names, values and rule names hold none of the characters [(], [)],
    [{], [}] and [@], the function-dialect expression that the tool
    returns is accepted by the tool's own lint. *)
Theorem tool_expression_passes_lint (name context descr text : string)
  (campaign : option string) (doc : value) :
  json_loads text = inl doc ->
  document_ok doc = true ->
  document_plain doc = true ->
  exists reply expression,
    create_when_rule json_loads validate_str validate_bool
      name context descr text campaign = Ok reply
    /\ item reply "expression" = Some (PyStr expression)
    /\ validate_when_rule expression = accepted expression.
Proof.
  intros Hload. unfold document_ok, document_plain.
  destruct (document_groups doc) as [gs |] eqn:E; [| discriminate].
  intros Hok Hpl.
  assert (Hloop : exists groups,
             for_each (build_group validate_str validate_bool) gs = Ok groups
             /\ Forall2 (fun x y => build_group validate_str validate_bool x
                                    = Ok y) gs groups).
  { apply ToolFacts.for_each_succeeds. apply Forall_forall. intros x Hx.
    rewrite forallb_forall in Hok.
    destruct (ToolFacts.group_builds validate_str validate_bool
                validate_str_accepts validate_bool_accepts x (Hok x Hx))
      as [g [es [Hg _]]].
    now exists g. }
  destruct Hloop as [groups [Hgroups Hrel]].
  pose proof (groups_build_plain gs groups Hrel Hok Hpl) as Hplain.
  destruct doc as [| | | | | | d]; try discriminate.
  unfold document_groups in E.
  unfold create_when_rule. rewrite Hload. cbn [get bind].
  destruct (dict_get "groups" d) as [[] |]; try discriminate;
    inversion E; subst gs; cbn [iter bind]; rewrite Hgroups; cbn [bind];
    eexists; eexists; (split; [reflexivity |]); (split; [reflexivity |]);
    apply LintFacts.balanced_accepted;
    apply (LintFacts.plain_rule_expression
             {| rule_name := name;
                applies_to := context;
                description := descr;
                condition_groups := groups;
                group_operator :=
                  if eq_str
                       match dict_get "group_operator" d with
                       | Some x => x
                       | None => PyStr "AND"
                       end "AND"
                  then AND else OR;
                campaign_id := campaign |});
    exact Hplain.
Qed.

End Tool.

Lemma undecodable_text_gives_error_reply_witness :
  exists reply message,
    run_create_when_rule "IsEligible" "Customer Eligibility" "sample"
      "invalid json" None = Ok reply
    /\ reply = PyDict [("error", PyStr message)]
    /\ message
       = "Invalid JSON in conditions: "
         ++ "Expecting value: line 1 column 1 (char 0)"
    /\ message <> EmptyString
    /\ item reply "status" = None
    /\ item reply "expression" = None
    /\ item reply "api_payload" = None.
Proof.
  exact (undecodable_text_gives_error_reply Json.loads Pydantic.strict_str
           Pydantic.strict_bool "IsEligible" "Customer Eligibility" "sample"
           "invalid json" "Expecting value: line 1 column 1 (char 0)" None
           eq_refl).
Defined.

Lemma tool_expression_passes_lint_witness :
  exists reply expression,
    run_create_when_rule "IsPremier" "Customer Eligibility" "sample"
      Samples.roughly_spec None = Ok reply
    /\ item reply "expression" = Some (PyStr expression)
    /\ validate_when_rule expression = accepted expression.
Proof.
  exact (tool_expression_passes_lint Json.loads Pydantic.strict_str
           Pydantic.strict_bool (fun _ => eq_refl) (fun _ => eq_refl)
           "IsPremier" "Customer Eligibility" "sample" Samples.roughly_spec
           None MoreSamples.roughly_document eq_refl eq_refl eq_refl).
Defined.

End EndToEndFacts.
